(** * procmon: the /proc/<pid>/stat tokenizer and positional field decoder

    A shallow embedding of package [proc] (the revision with the full
    52-entry [fieldParseMap]) together with the properties of its
    tokenizer [StatStream.next], its field decoder [StatField.fill] and
    its driver [Stat.Parse].

    Conventions of the embedding:
    - Go's [int], [intN] and [uintN] are [Z]; every narrowing conversion
      is written out ([int8], [int32], [uint64], ...);
    - a Go [string] is a [string], a [[]byte] is a [list ascii];
    - a function that can panic returns an [outcome]; loops take fuel and
      the theorems show that the fuel the callers pass is never exhausted;
    - methods with pointer receivers take the receiver's state and return
      the new state next to their results. *)

From Stdlib Require Import ZArith List String Ascii Bool Lia.
Import ListNotations.

Local Open Scope string_scope.
Local Open Scope Z_scope.

(** ** Outcomes *)

Inductive outcome (A : Type) : Type :=
| Return (a : A)   (* the call returns normally *)
| Panic            (* run-time panic: index out of range, nil dereference *)
| OutOfFuel.       (* the model's loop bound was reached *)

Arguments Return {A} a.
Arguments Panic {A}.
Arguments OutOfFuel {A}.

Definition bind {A B : Type} (c : outcome A) (k : A -> outcome B) : outcome B :=
  match c with
  | Return a => k a
  | Panic => Panic
  | OutOfFuel => OutOfFuel
  end.

Notation "x <- c ;; k" := (bind c (fun x => k))
  (at level 61, c at next level, right associativity).
Notation "' p <- c ;; k" := (bind c (fun x => let 'p := x in k))
  (at level 61, p pattern, c at next level, right associativity).

(** ** Machine integers *)

Definition byteZ (c : ascii) : Z := Z.of_N (N_of_ascii c).

Definition uintN (w : Z) (z : Z) : Z := z mod 2 ^ w.
Definition intN (w : Z) (z : Z) : Z := (z + 2 ^ (w - 1)) mod 2 ^ w - 2 ^ (w - 1).

Definition int8 := intN 8.
Definition int16 := intN 16.
Definition int32 := intN 32.
Definition int64 := intN 64.
Definition uint16 := uintN 16.
Definition uint32 := uintN 32.
Definition uint64 := uintN 64.

Definition LF : ascii := "010"%char.   (* '\n' *)
Definition SP : ascii := " "%char.

(** ** Package strconv (Go standard library)

    [ParseUint] and [ParseInt] as [strconv/atoi.go] implements them, for
    an explicit base in 2..36 (the callers pass 10, so the base-0 prefix
    and underscore handling is never entered). *)

Module strconv.

Inductive sentinel : Type :=
| ErrRange     (* value out of range *)
| ErrSyntax    (* invalid syntax *)
| ErrBase      (* invalid base *)
| ErrBitSize.  (* invalid bit size *)

Record NumError : Type := mkNumError {
  Func : string;
  Num : string;
  Err : sentinel
}.

Definition syntaxError (fn str : string) : NumError := mkNumError fn str ErrSyntax.
Definition rangeError (fn str : string) : NumError := mkNumError fn str ErrRange.
Definition baseError (fn str : string) : NumError := mkNumError fn str ErrBase.
Definition bitSizeError (fn str : string) : NumError := mkNumError fn str ErrBitSize.

Definition fnParseUint : string := "ParseUint".
Definition fnParseInt : string := "ParseInt".

Definition maxUint64 : Z := 2 ^ 64 - 1.

(* lower(c) = c | ('x' - 'X') *)
Definition lower (c : Z) : Z := Z.lor c 32.

(* The digit value of byte [c], or [None] for the [default] case. *)
Definition digit (c : Z) : option Z :=
  if (48 <=? c) && (c <=? 57) then Some (c - 48)
  else if (97 <=? lower c) && (lower c <=? 122) then Some (lower c - 97 + 10)
  else None.

(* for _, c := range []byte(s) { ... } *)
Fixpoint ParseUint_loop (s0 : string) (base maxVal cutoff : Z)
         (cs : list ascii) (n : Z) : Z * option NumError :=
  match cs with
  | [] => (n, None)
  | ch :: cs' =>
    match digit (byteZ ch) with
    | None => (0, Some (syntaxError fnParseUint s0))
    | Some d =>
      if d >=? base then (0, Some (syntaxError fnParseUint s0))
      else if n >=? cutoff then (maxVal, Some (rangeError fnParseUint s0))
      else
        let n' := uint64 (n * base) in
        let n1 := uint64 (n' + d) in
        if (n1 <? n') || (n1 >? maxVal)
        then (maxVal, Some (rangeError fnParseUint s0))
        else ParseUint_loop s0 base maxVal cutoff cs' n1
    end
  end.

Definition ParseUint (s : string) (base bitSize : Z) : Z * option NumError :=
  if (s =? "")%string then (0, Some (syntaxError fnParseUint s))
  else if negb ((2 <=? base) && (base <=? 36)) then (0, Some (baseError fnParseUint s))
  else if (bitSize <=? 0) || (bitSize >? 64) then (0, Some (bitSizeError fnParseUint s))
  else
    let cutoff := maxUint64 / base + 1 in
    let maxVal := uint64 (uint64 (Z.shiftl 1 bitSize) - 1) in
    ParseUint_loop s base maxVal cutoff (list_ascii_of_string s) 0.

Definition ParseInt (s0 : string) (base bitSize : Z) : Z * option NumError :=
  match s0 with
  | EmptyString => (0, Some (syntaxError fnParseInt s0))
  | String c rest =>
    (* pick off the leading sign *)
    let '(neg, s) :=
      if (c =? "+")%char then (false, rest)
      else if (c =? "-")%char then (true, rest)
      else (false, s0) in
    (* convert unsigned and check the range *)
    let '(un, err) := ParseUint s base bitSize in
    match err with
    | Some (mkNumError _ _ ErrSyntax) => (0, Some (mkNumError fnParseInt s0 ErrSyntax))
    | Some (mkNumError _ _ ErrBase) => (0, Some (mkNumError fnParseInt s0 ErrBase))
    | Some (mkNumError _ _ ErrBitSize) => (0, Some (mkNumError fnParseInt s0 ErrBitSize))
    | _ =>
      let cutoff := uint64 (Z.shiftl 1 (bitSize - 1)) in
      if negb neg && (un >=? cutoff)
      then (int64 (cutoff - 1), Some (rangeError fnParseInt s0))
      else if neg && (un >? cutoff)
      then (int64 (- int64 cutoff), Some (rangeError fnParseInt s0))
      else
        let n := int64 un in
        (if neg then int64 (- n) else n, None)
    end
  end.

End strconv.

(** ** Errors

    The values an [error] of this package can hold: a [*strconv.NumError],
    the package-level [erreof], or whatever [ioutil.ReadFile] reports. *)

Inductive error : Type :=
| NumErr (e : strconv.NumError)
| erreof                           (* errors.New("stat stream read end of file") *)
| ReadErr (msg : string).

Definition wrapErr (e : option strconv.NumError) : option error := option_map NumErr e.

(** ** Task states *)

Definition StatTaskState : Type := Z.   (* int8 *)

Definition Running : StatTaskState := 82.        (* 'R' *)
Definition Sleeping : StatTaskState := 83.       (* 'S' *)
Definition DiskSleep : StatTaskState := 68.      (* 'D' *)
Definition Zombie : StatTaskState := 90.         (* 'Z' *)
Definition Stopped : StatTaskState := 84.        (* 'T' *)
Definition TracingStop : StatTaskState := 116.   (* 't' *)
Definition Dead : StatTaskState := 88.           (* 'X' *)
Definition Dead2633To313 : StatTaskState := 120. (* 'x' *)
Definition Wakekill : StatTaskState := 75.       (* 'K' *)
Definition PagingWaking : StatTaskState := 87.   (* 'W' *)
Definition Parked : StatTaskState := 80.         (* 'P' *)

(** ** The decoded record *)

Record StatField : Type := mkStatField {
  Pid : Z;                   (* (1) int32 *)
  Comm : string;             (* (2) string *)
  State : StatTaskState;     (* (3) int8 *)
  PPid : Z;                  (* (4) int32 *)
  PGrp : Z;                  (* (5) int32 *)
  Session : Z;               (* (6) int32 *)
  TTYNR : Z;                 (* (7) int32 *)
  TPGid : Z;                 (* (8) int32 *)
  TaskFlags : Z;             (* (9) uint32 *)
  MinFlt : Z;                (* (10) uint64 *)
  CMinFlt : Z;               (* (11) uint64 *)
  MajFlt : Z;                (* (12) uint64 *)
  CMajFlt : Z;               (* (13) uint64 *)
  UTime : Z;                 (* (14) uint64 *)
  STime : Z;                 (* (15) uint64 *)
  CUTime : Z;                (* (16) int64 *)
  CSTime : Z;                (* (17) int64 *)
  Priority : Z;              (* (18) int64 *)
  Nice : Z;                  (* (19) int64 *)
  NumThreads : Z;            (* (20) int64 *)
  ItRealValue : Z;           (* (21) int64 *)
  StartTime : Z;             (* (22) uint64 *)
  VSize : Z;                 (* (23) uint64 *)
  RSS : Z;                   (* (24) uint64 *)
  RSSLim : Z;                (* (25) uint64 *)
  StartCode : Z;             (* (26) uint64 *)
  EndCode : Z;               (* (27) uint64 *)
  StartStack : Z;            (* (28) uint64 *)
  KStkEsp : Z;               (* (29) uint64 *)
  KStkEip : Z;               (* (30) uint64 *)
  TaskPendingSig : Z;        (* (31) uint64 *)
  TaskBlockSig : Z;          (* (32) uint64 *)
  SigIgnoreSig : Z;          (* (33) uint64 *)
  SigCatchSig : Z;           (* (34) uint64 *)
  WChan : Z;                 (* (35) uint64 *)
  NSwap : Z;                 (* (36) uint64 *)
  CNSwap : Z;                (* (37) uint64 *)
  ExitSignal : Z;            (* (38) int32 *)
  Processor : Z;             (* (39) int32 *)
  RtPriority : Z;            (* (40) uint32 *)
  Policy : Z;                (* (41) uint32 *)
  DelayacctBlkioTicks : Z;   (* (42) uint64 *)
  GuestTime : Z;             (* (43) uint64 *)
  CGuestTime : Z;            (* (44) int64 *)
  StartData : Z;             (* (45) uint64 *)
  EndData : Z;               (* (46) uint64 *)
  StartBrk : Z;              (* (47) uint64 *)
  ArgStart : Z;              (* (48) uint64 *)
  ArgEnd : Z;                (* (49) uint64 *)
  EnvStart : Z;              (* (50) uint64 *)
  EnvEnd : Z;                (* (51) uint64 *)
  ExitCode : Z               (* (52) int32 *)
}.

(** [new(StatField)]: every field holds the zero value of its type. *)
Definition zeroStatField : StatField :=
  mkStatField 0 ""%string 0 0 0 0 0 0 0 0 0 0 0 0 0 0 0 0 0 0 0 0 0 0 0 0 0 0 0 0 0 0 0 0 0 0 0 0 0 0 0 0 0 0 0 0 0 0 0 0 0 0.

(** Assignments [sf.X = v].  One setter per field of the struct. *)
Definition set_Pid (v : Z) (sf : StatField) : StatField :=
  let 'mkStatField _ f_Comm f_State f_PPid f_PGrp f_Session f_TTYNR f_TPGid f_TaskFlags f_MinFlt f_CMinFlt f_MajFlt f_CMajFlt f_UTime f_STime f_CUTime f_CSTime f_Priority f_Nice f_NumThreads f_ItRealValue f_StartTime f_VSize f_RSS f_RSSLim f_StartCode f_EndCode f_StartStack f_KStkEsp f_KStkEip f_TaskPendingSig f_TaskBlockSig f_SigIgnoreSig f_SigCatchSig f_WChan f_NSwap f_CNSwap f_ExitSignal f_Processor f_RtPriority f_Policy f_DelayacctBlkioTicks f_GuestTime f_CGuestTime f_StartData f_EndData f_StartBrk f_ArgStart f_ArgEnd f_EnvStart f_EnvEnd f_ExitCode := sf in
  mkStatField v f_Comm f_State f_PPid f_PGrp f_Session f_TTYNR f_TPGid f_TaskFlags f_MinFlt f_CMinFlt f_MajFlt f_CMajFlt f_UTime f_STime f_CUTime f_CSTime f_Priority f_Nice f_NumThreads f_ItRealValue f_StartTime f_VSize f_RSS f_RSSLim f_StartCode f_EndCode f_StartStack f_KStkEsp f_KStkEip f_TaskPendingSig f_TaskBlockSig f_SigIgnoreSig f_SigCatchSig f_WChan f_NSwap f_CNSwap f_ExitSignal f_Processor f_RtPriority f_Policy f_DelayacctBlkioTicks f_GuestTime f_CGuestTime f_StartData f_EndData f_StartBrk f_ArgStart f_ArgEnd f_EnvStart f_EnvEnd f_ExitCode.
Definition set_Comm (v : string) (sf : StatField) : StatField :=
  let 'mkStatField f_Pid _ f_State f_PPid f_PGrp f_Session f_TTYNR f_TPGid f_TaskFlags f_MinFlt f_CMinFlt f_MajFlt f_CMajFlt f_UTime f_STime f_CUTime f_CSTime f_Priority f_Nice f_NumThreads f_ItRealValue f_StartTime f_VSize f_RSS f_RSSLim f_StartCode f_EndCode f_StartStack f_KStkEsp f_KStkEip f_TaskPendingSig f_TaskBlockSig f_SigIgnoreSig f_SigCatchSig f_WChan f_NSwap f_CNSwap f_ExitSignal f_Processor f_RtPriority f_Policy f_DelayacctBlkioTicks f_GuestTime f_CGuestTime f_StartData f_EndData f_StartBrk f_ArgStart f_ArgEnd f_EnvStart f_EnvEnd f_ExitCode := sf in
  mkStatField f_Pid v f_State f_PPid f_PGrp f_Session f_TTYNR f_TPGid f_TaskFlags f_MinFlt f_CMinFlt f_MajFlt f_CMajFlt f_UTime f_STime f_CUTime f_CSTime f_Priority f_Nice f_NumThreads f_ItRealValue f_StartTime f_VSize f_RSS f_RSSLim f_StartCode f_EndCode f_StartStack f_KStkEsp f_KStkEip f_TaskPendingSig f_TaskBlockSig f_SigIgnoreSig f_SigCatchSig f_WChan f_NSwap f_CNSwap f_ExitSignal f_Processor f_RtPriority f_Policy f_DelayacctBlkioTicks f_GuestTime f_CGuestTime f_StartData f_EndData f_StartBrk f_ArgStart f_ArgEnd f_EnvStart f_EnvEnd f_ExitCode.
Definition set_State (v : StatTaskState) (sf : StatField) : StatField :=
  let 'mkStatField f_Pid f_Comm _ f_PPid f_PGrp f_Session f_TTYNR f_TPGid f_TaskFlags f_MinFlt f_CMinFlt f_MajFlt f_CMajFlt f_UTime f_STime f_CUTime f_CSTime f_Priority f_Nice f_NumThreads f_ItRealValue f_StartTime f_VSize f_RSS f_RSSLim f_StartCode f_EndCode f_StartStack f_KStkEsp f_KStkEip f_TaskPendingSig f_TaskBlockSig f_SigIgnoreSig f_SigCatchSig f_WChan f_NSwap f_CNSwap f_ExitSignal f_Processor f_RtPriority f_Policy f_DelayacctBlkioTicks f_GuestTime f_CGuestTime f_StartData f_EndData f_StartBrk f_ArgStart f_ArgEnd f_EnvStart f_EnvEnd f_ExitCode := sf in
  mkStatField f_Pid f_Comm v f_PPid f_PGrp f_Session f_TTYNR f_TPGid f_TaskFlags f_MinFlt f_CMinFlt f_MajFlt f_CMajFlt f_UTime f_STime f_CUTime f_CSTime f_Priority f_Nice f_NumThreads f_ItRealValue f_StartTime f_VSize f_RSS f_RSSLim f_StartCode f_EndCode f_StartStack f_KStkEsp f_KStkEip f_TaskPendingSig f_TaskBlockSig f_SigIgnoreSig f_SigCatchSig f_WChan f_NSwap f_CNSwap f_ExitSignal f_Processor f_RtPriority f_Policy f_DelayacctBlkioTicks f_GuestTime f_CGuestTime f_StartData f_EndData f_StartBrk f_ArgStart f_ArgEnd f_EnvStart f_EnvEnd f_ExitCode.
Definition set_PPid (v : Z) (sf : StatField) : StatField :=
  let 'mkStatField f_Pid f_Comm f_State _ f_PGrp f_Session f_TTYNR f_TPGid f_TaskFlags f_MinFlt f_CMinFlt f_MajFlt f_CMajFlt f_UTime f_STime f_CUTime f_CSTime f_Priority f_Nice f_NumThreads f_ItRealValue f_StartTime f_VSize f_RSS f_RSSLim f_StartCode f_EndCode f_StartStack f_KStkEsp f_KStkEip f_TaskPendingSig f_TaskBlockSig f_SigIgnoreSig f_SigCatchSig f_WChan f_NSwap f_CNSwap f_ExitSignal f_Processor f_RtPriority f_Policy f_DelayacctBlkioTicks f_GuestTime f_CGuestTime f_StartData f_EndData f_StartBrk f_ArgStart f_ArgEnd f_EnvStart f_EnvEnd f_ExitCode := sf in
  mkStatField f_Pid f_Comm f_State v f_PGrp f_Session f_TTYNR f_TPGid f_TaskFlags f_MinFlt f_CMinFlt f_MajFlt f_CMajFlt f_UTime f_STime f_CUTime f_CSTime f_Priority f_Nice f_NumThreads f_ItRealValue f_StartTime f_VSize f_RSS f_RSSLim f_StartCode f_EndCode f_StartStack f_KStkEsp f_KStkEip f_TaskPendingSig f_TaskBlockSig f_SigIgnoreSig f_SigCatchSig f_WChan f_NSwap f_CNSwap f_ExitSignal f_Processor f_RtPriority f_Policy f_DelayacctBlkioTicks f_GuestTime f_CGuestTime f_StartData f_EndData f_StartBrk f_ArgStart f_ArgEnd f_EnvStart f_EnvEnd f_ExitCode.
Definition set_PGrp (v : Z) (sf : StatField) : StatField :=
  let 'mkStatField f_Pid f_Comm f_State f_PPid _ f_Session f_TTYNR f_TPGid f_TaskFlags f_MinFlt f_CMinFlt f_MajFlt f_CMajFlt f_UTime f_STime f_CUTime f_CSTime f_Priority f_Nice f_NumThreads f_ItRealValue f_StartTime f_VSize f_RSS f_RSSLim f_StartCode f_EndCode f_StartStack f_KStkEsp f_KStkEip f_TaskPendingSig f_TaskBlockSig f_SigIgnoreSig f_SigCatchSig f_WChan f_NSwap f_CNSwap f_ExitSignal f_Processor f_RtPriority f_Policy f_DelayacctBlkioTicks f_GuestTime f_CGuestTime f_StartData f_EndData f_StartBrk f_ArgStart f_ArgEnd f_EnvStart f_EnvEnd f_ExitCode := sf in
  mkStatField f_Pid f_Comm f_State f_PPid v f_Session f_TTYNR f_TPGid f_TaskFlags f_MinFlt f_CMinFlt f_MajFlt f_CMajFlt f_UTime f_STime f_CUTime f_CSTime f_Priority f_Nice f_NumThreads f_ItRealValue f_StartTime f_VSize f_RSS f_RSSLim f_StartCode f_EndCode f_StartStack f_KStkEsp f_KStkEip f_TaskPendingSig f_TaskBlockSig f_SigIgnoreSig f_SigCatchSig f_WChan f_NSwap f_CNSwap f_ExitSignal f_Processor f_RtPriority f_Policy f_DelayacctBlkioTicks f_GuestTime f_CGuestTime f_StartData f_EndData f_StartBrk f_ArgStart f_ArgEnd f_EnvStart f_EnvEnd f_ExitCode.
Definition set_Session (v : Z) (sf : StatField) : StatField :=
  let 'mkStatField f_Pid f_Comm f_State f_PPid f_PGrp _ f_TTYNR f_TPGid f_TaskFlags f_MinFlt f_CMinFlt f_MajFlt f_CMajFlt f_UTime f_STime f_CUTime f_CSTime f_Priority f_Nice f_NumThreads f_ItRealValue f_StartTime f_VSize f_RSS f_RSSLim f_StartCode f_EndCode f_StartStack f_KStkEsp f_KStkEip f_TaskPendingSig f_TaskBlockSig f_SigIgnoreSig f_SigCatchSig f_WChan f_NSwap f_CNSwap f_ExitSignal f_Processor f_RtPriority f_Policy f_DelayacctBlkioTicks f_GuestTime f_CGuestTime f_StartData f_EndData f_StartBrk f_ArgStart f_ArgEnd f_EnvStart f_EnvEnd f_ExitCode := sf in
  mkStatField f_Pid f_Comm f_State f_PPid f_PGrp v f_TTYNR f_TPGid f_TaskFlags f_MinFlt f_CMinFlt f_MajFlt f_CMajFlt f_UTime f_STime f_CUTime f_CSTime f_Priority f_Nice f_NumThreads f_ItRealValue f_StartTime f_VSize f_RSS f_RSSLim f_StartCode f_EndCode f_StartStack f_KStkEsp f_KStkEip f_TaskPendingSig f_TaskBlockSig f_SigIgnoreSig f_SigCatchSig f_WChan f_NSwap f_CNSwap f_ExitSignal f_Processor f_RtPriority f_Policy f_DelayacctBlkioTicks f_GuestTime f_CGuestTime f_StartData f_EndData f_StartBrk f_ArgStart f_ArgEnd f_EnvStart f_EnvEnd f_ExitCode.
Definition set_TTYNR (v : Z) (sf : StatField) : StatField :=
  let 'mkStatField f_Pid f_Comm f_State f_PPid f_PGrp f_Session _ f_TPGid f_TaskFlags f_MinFlt f_CMinFlt f_MajFlt f_CMajFlt f_UTime f_STime f_CUTime f_CSTime f_Priority f_Nice f_NumThreads f_ItRealValue f_StartTime f_VSize f_RSS f_RSSLim f_StartCode f_EndCode f_StartStack f_KStkEsp f_KStkEip f_TaskPendingSig f_TaskBlockSig f_SigIgnoreSig f_SigCatchSig f_WChan f_NSwap f_CNSwap f_ExitSignal f_Processor f_RtPriority f_Policy f_DelayacctBlkioTicks f_GuestTime f_CGuestTime f_StartData f_EndData f_StartBrk f_ArgStart f_ArgEnd f_EnvStart f_EnvEnd f_ExitCode := sf in
  mkStatField f_Pid f_Comm f_State f_PPid f_PGrp f_Session v f_TPGid f_TaskFlags f_MinFlt f_CMinFlt f_MajFlt f_CMajFlt f_UTime f_STime f_CUTime f_CSTime f_Priority f_Nice f_NumThreads f_ItRealValue f_StartTime f_VSize f_RSS f_RSSLim f_StartCode f_EndCode f_StartStack f_KStkEsp f_KStkEip f_TaskPendingSig f_TaskBlockSig f_SigIgnoreSig f_SigCatchSig f_WChan f_NSwap f_CNSwap f_ExitSignal f_Processor f_RtPriority f_Policy f_DelayacctBlkioTicks f_GuestTime f_CGuestTime f_StartData f_EndData f_StartBrk f_ArgStart f_ArgEnd f_EnvStart f_EnvEnd f_ExitCode.
Definition set_TPGid (v : Z) (sf : StatField) : StatField :=
  let 'mkStatField f_Pid f_Comm f_State f_PPid f_PGrp f_Session f_TTYNR _ f_TaskFlags f_MinFlt f_CMinFlt f_MajFlt f_CMajFlt f_UTime f_STime f_CUTime f_CSTime f_Priority f_Nice f_NumThreads f_ItRealValue f_StartTime f_VSize f_RSS f_RSSLim f_StartCode f_EndCode f_StartStack f_KStkEsp f_KStkEip f_TaskPendingSig f_TaskBlockSig f_SigIgnoreSig f_SigCatchSig f_WChan f_NSwap f_CNSwap f_ExitSignal f_Processor f_RtPriority f_Policy f_DelayacctBlkioTicks f_GuestTime f_CGuestTime f_StartData f_EndData f_StartBrk f_ArgStart f_ArgEnd f_EnvStart f_EnvEnd f_ExitCode := sf in
  mkStatField f_Pid f_Comm f_State f_PPid f_PGrp f_Session f_TTYNR v f_TaskFlags f_MinFlt f_CMinFlt f_MajFlt f_CMajFlt f_UTime f_STime f_CUTime f_CSTime f_Priority f_Nice f_NumThreads f_ItRealValue f_StartTime f_VSize f_RSS f_RSSLim f_StartCode f_EndCode f_StartStack f_KStkEsp f_KStkEip f_TaskPendingSig f_TaskBlockSig f_SigIgnoreSig f_SigCatchSig f_WChan f_NSwap f_CNSwap f_ExitSignal f_Processor f_RtPriority f_Policy f_DelayacctBlkioTicks f_GuestTime f_CGuestTime f_StartData f_EndData f_StartBrk f_ArgStart f_ArgEnd f_EnvStart f_EnvEnd f_ExitCode.
Definition set_TaskFlags (v : Z) (sf : StatField) : StatField :=
  let 'mkStatField f_Pid f_Comm f_State f_PPid f_PGrp f_Session f_TTYNR f_TPGid _ f_MinFlt f_CMinFlt f_MajFlt f_CMajFlt f_UTime f_STime f_CUTime f_CSTime f_Priority f_Nice f_NumThreads f_ItRealValue f_StartTime f_VSize f_RSS f_RSSLim f_StartCode f_EndCode f_StartStack f_KStkEsp f_KStkEip f_TaskPendingSig f_TaskBlockSig f_SigIgnoreSig f_SigCatchSig f_WChan f_NSwap f_CNSwap f_ExitSignal f_Processor f_RtPriority f_Policy f_DelayacctBlkioTicks f_GuestTime f_CGuestTime f_StartData f_EndData f_StartBrk f_ArgStart f_ArgEnd f_EnvStart f_EnvEnd f_ExitCode := sf in
  mkStatField f_Pid f_Comm f_State f_PPid f_PGrp f_Session f_TTYNR f_TPGid v f_MinFlt f_CMinFlt f_MajFlt f_CMajFlt f_UTime f_STime f_CUTime f_CSTime f_Priority f_Nice f_NumThreads f_ItRealValue f_StartTime f_VSize f_RSS f_RSSLim f_StartCode f_EndCode f_StartStack f_KStkEsp f_KStkEip f_TaskPendingSig f_TaskBlockSig f_SigIgnoreSig f_SigCatchSig f_WChan f_NSwap f_CNSwap f_ExitSignal f_Processor f_RtPriority f_Policy f_DelayacctBlkioTicks f_GuestTime f_CGuestTime f_StartData f_EndData f_StartBrk f_ArgStart f_ArgEnd f_EnvStart f_EnvEnd f_ExitCode.
Definition set_MinFlt (v : Z) (sf : StatField) : StatField :=
  let 'mkStatField f_Pid f_Comm f_State f_PPid f_PGrp f_Session f_TTYNR f_TPGid f_TaskFlags _ f_CMinFlt f_MajFlt f_CMajFlt f_UTime f_STime f_CUTime f_CSTime f_Priority f_Nice f_NumThreads f_ItRealValue f_StartTime f_VSize f_RSS f_RSSLim f_StartCode f_EndCode f_StartStack f_KStkEsp f_KStkEip f_TaskPendingSig f_TaskBlockSig f_SigIgnoreSig f_SigCatchSig f_WChan f_NSwap f_CNSwap f_ExitSignal f_Processor f_RtPriority f_Policy f_DelayacctBlkioTicks f_GuestTime f_CGuestTime f_StartData f_EndData f_StartBrk f_ArgStart f_ArgEnd f_EnvStart f_EnvEnd f_ExitCode := sf in
  mkStatField f_Pid f_Comm f_State f_PPid f_PGrp f_Session f_TTYNR f_TPGid f_TaskFlags v f_CMinFlt f_MajFlt f_CMajFlt f_UTime f_STime f_CUTime f_CSTime f_Priority f_Nice f_NumThreads f_ItRealValue f_StartTime f_VSize f_RSS f_RSSLim f_StartCode f_EndCode f_StartStack f_KStkEsp f_KStkEip f_TaskPendingSig f_TaskBlockSig f_SigIgnoreSig f_SigCatchSig f_WChan f_NSwap f_CNSwap f_ExitSignal f_Processor f_RtPriority f_Policy f_DelayacctBlkioTicks f_GuestTime f_CGuestTime f_StartData f_EndData f_StartBrk f_ArgStart f_ArgEnd f_EnvStart f_EnvEnd f_ExitCode.
Definition set_CMinFlt (v : Z) (sf : StatField) : StatField :=
  let 'mkStatField f_Pid f_Comm f_State f_PPid f_PGrp f_Session f_TTYNR f_TPGid f_TaskFlags f_MinFlt _ f_MajFlt f_CMajFlt f_UTime f_STime f_CUTime f_CSTime f_Priority f_Nice f_NumThreads f_ItRealValue f_StartTime f_VSize f_RSS f_RSSLim f_StartCode f_EndCode f_StartStack f_KStkEsp f_KStkEip f_TaskPendingSig f_TaskBlockSig f_SigIgnoreSig f_SigCatchSig f_WChan f_NSwap f_CNSwap f_ExitSignal f_Processor f_RtPriority f_Policy f_DelayacctBlkioTicks f_GuestTime f_CGuestTime f_StartData f_EndData f_StartBrk f_ArgStart f_ArgEnd f_EnvStart f_EnvEnd f_ExitCode := sf in
  mkStatField f_Pid f_Comm f_State f_PPid f_PGrp f_Session f_TTYNR f_TPGid f_TaskFlags f_MinFlt v f_MajFlt f_CMajFlt f_UTime f_STime f_CUTime f_CSTime f_Priority f_Nice f_NumThreads f_ItRealValue f_StartTime f_VSize f_RSS f_RSSLim f_StartCode f_EndCode f_StartStack f_KStkEsp f_KStkEip f_TaskPendingSig f_TaskBlockSig f_SigIgnoreSig f_SigCatchSig f_WChan f_NSwap f_CNSwap f_ExitSignal f_Processor f_RtPriority f_Policy f_DelayacctBlkioTicks f_GuestTime f_CGuestTime f_StartData f_EndData f_StartBrk f_ArgStart f_ArgEnd f_EnvStart f_EnvEnd f_ExitCode.
Definition set_MajFlt (v : Z) (sf : StatField) : StatField :=
  let 'mkStatField f_Pid f_Comm f_State f_PPid f_PGrp f_Session f_TTYNR f_TPGid f_TaskFlags f_MinFlt f_CMinFlt _ f_CMajFlt f_UTime f_STime f_CUTime f_CSTime f_Priority f_Nice f_NumThreads f_ItRealValue f_StartTime f_VSize f_RSS f_RSSLim f_StartCode f_EndCode f_StartStack f_KStkEsp f_KStkEip f_TaskPendingSig f_TaskBlockSig f_SigIgnoreSig f_SigCatchSig f_WChan f_NSwap f_CNSwap f_ExitSignal f_Processor f_RtPriority f_Policy f_DelayacctBlkioTicks f_GuestTime f_CGuestTime f_StartData f_EndData f_StartBrk f_ArgStart f_ArgEnd f_EnvStart f_EnvEnd f_ExitCode := sf in
  mkStatField f_Pid f_Comm f_State f_PPid f_PGrp f_Session f_TTYNR f_TPGid f_TaskFlags f_MinFlt f_CMinFlt v f_CMajFlt f_UTime f_STime f_CUTime f_CSTime f_Priority f_Nice f_NumThreads f_ItRealValue f_StartTime f_VSize f_RSS f_RSSLim f_StartCode f_EndCode f_StartStack f_KStkEsp f_KStkEip f_TaskPendingSig f_TaskBlockSig f_SigIgnoreSig f_SigCatchSig f_WChan f_NSwap f_CNSwap f_ExitSignal f_Processor f_RtPriority f_Policy f_DelayacctBlkioTicks f_GuestTime f_CGuestTime f_StartData f_EndData f_StartBrk f_ArgStart f_ArgEnd f_EnvStart f_EnvEnd f_ExitCode.
Definition set_CMajFlt (v : Z) (sf : StatField) : StatField :=
  let 'mkStatField f_Pid f_Comm f_State f_PPid f_PGrp f_Session f_TTYNR f_TPGid f_TaskFlags f_MinFlt f_CMinFlt f_MajFlt _ f_UTime f_STime f_CUTime f_CSTime f_Priority f_Nice f_NumThreads f_ItRealValue f_StartTime f_VSize f_RSS f_RSSLim f_StartCode f_EndCode f_StartStack f_KStkEsp f_KStkEip f_TaskPendingSig f_TaskBlockSig f_SigIgnoreSig f_SigCatchSig f_WChan f_NSwap f_CNSwap f_ExitSignal f_Processor f_RtPriority f_Policy f_DelayacctBlkioTicks f_GuestTime f_CGuestTime f_StartData f_EndData f_StartBrk f_ArgStart f_ArgEnd f_EnvStart f_EnvEnd f_ExitCode := sf in
  mkStatField f_Pid f_Comm f_State f_PPid f_PGrp f_Session f_TTYNR f_TPGid f_TaskFlags f_MinFlt f_CMinFlt f_MajFlt v f_UTime f_STime f_CUTime f_CSTime f_Priority f_Nice f_NumThreads f_ItRealValue f_StartTime f_VSize f_RSS f_RSSLim f_StartCode f_EndCode f_StartStack f_KStkEsp f_KStkEip f_TaskPendingSig f_TaskBlockSig f_SigIgnoreSig f_SigCatchSig f_WChan f_NSwap f_CNSwap f_ExitSignal f_Processor f_RtPriority f_Policy f_DelayacctBlkioTicks f_GuestTime f_CGuestTime f_StartData f_EndData f_StartBrk f_ArgStart f_ArgEnd f_EnvStart f_EnvEnd f_ExitCode.
Definition set_UTime (v : Z) (sf : StatField) : StatField :=
  let 'mkStatField f_Pid f_Comm f_State f_PPid f_PGrp f_Session f_TTYNR f_TPGid f_TaskFlags f_MinFlt f_CMinFlt f_MajFlt f_CMajFlt _ f_STime f_CUTime f_CSTime f_Priority f_Nice f_NumThreads f_ItRealValue f_StartTime f_VSize f_RSS f_RSSLim f_StartCode f_EndCode f_StartStack f_KStkEsp f_KStkEip f_TaskPendingSig f_TaskBlockSig f_SigIgnoreSig f_SigCatchSig f_WChan f_NSwap f_CNSwap f_ExitSignal f_Processor f_RtPriority f_Policy f_DelayacctBlkioTicks f_GuestTime f_CGuestTime f_StartData f_EndData f_StartBrk f_ArgStart f_ArgEnd f_EnvStart f_EnvEnd f_ExitCode := sf in
  mkStatField f_Pid f_Comm f_State f_PPid f_PGrp f_Session f_TTYNR f_TPGid f_TaskFlags f_MinFlt f_CMinFlt f_MajFlt f_CMajFlt v f_STime f_CUTime f_CSTime f_Priority f_Nice f_NumThreads f_ItRealValue f_StartTime f_VSize f_RSS f_RSSLim f_StartCode f_EndCode f_StartStack f_KStkEsp f_KStkEip f_TaskPendingSig f_TaskBlockSig f_SigIgnoreSig f_SigCatchSig f_WChan f_NSwap f_CNSwap f_ExitSignal f_Processor f_RtPriority f_Policy f_DelayacctBlkioTicks f_GuestTime f_CGuestTime f_StartData f_EndData f_StartBrk f_ArgStart f_ArgEnd f_EnvStart f_EnvEnd f_ExitCode.
Definition set_STime (v : Z) (sf : StatField) : StatField :=
  let 'mkStatField f_Pid f_Comm f_State f_PPid f_PGrp f_Session f_TTYNR f_TPGid f_TaskFlags f_MinFlt f_CMinFlt f_MajFlt f_CMajFlt f_UTime _ f_CUTime f_CSTime f_Priority f_Nice f_NumThreads f_ItRealValue f_StartTime f_VSize f_RSS f_RSSLim f_StartCode f_EndCode f_StartStack f_KStkEsp f_KStkEip f_TaskPendingSig f_TaskBlockSig f_SigIgnoreSig f_SigCatchSig f_WChan f_NSwap f_CNSwap f_ExitSignal f_Processor f_RtPriority f_Policy f_DelayacctBlkioTicks f_GuestTime f_CGuestTime f_StartData f_EndData f_StartBrk f_ArgStart f_ArgEnd f_EnvStart f_EnvEnd f_ExitCode := sf in
  mkStatField f_Pid f_Comm f_State f_PPid f_PGrp f_Session f_TTYNR f_TPGid f_TaskFlags f_MinFlt f_CMinFlt f_MajFlt f_CMajFlt f_UTime v f_CUTime f_CSTime f_Priority f_Nice f_NumThreads f_ItRealValue f_StartTime f_VSize f_RSS f_RSSLim f_StartCode f_EndCode f_StartStack f_KStkEsp f_KStkEip f_TaskPendingSig f_TaskBlockSig f_SigIgnoreSig f_SigCatchSig f_WChan f_NSwap f_CNSwap f_ExitSignal f_Processor f_RtPriority f_Policy f_DelayacctBlkioTicks f_GuestTime f_CGuestTime f_StartData f_EndData f_StartBrk f_ArgStart f_ArgEnd f_EnvStart f_EnvEnd f_ExitCode.
Definition set_CUTime (v : Z) (sf : StatField) : StatField :=
  let 'mkStatField f_Pid f_Comm f_State f_PPid f_PGrp f_Session f_TTYNR f_TPGid f_TaskFlags f_MinFlt f_CMinFlt f_MajFlt f_CMajFlt f_UTime f_STime _ f_CSTime f_Priority f_Nice f_NumThreads f_ItRealValue f_StartTime f_VSize f_RSS f_RSSLim f_StartCode f_EndCode f_StartStack f_KStkEsp f_KStkEip f_TaskPendingSig f_TaskBlockSig f_SigIgnoreSig f_SigCatchSig f_WChan f_NSwap f_CNSwap f_ExitSignal f_Processor f_RtPriority f_Policy f_DelayacctBlkioTicks f_GuestTime f_CGuestTime f_StartData f_EndData f_StartBrk f_ArgStart f_ArgEnd f_EnvStart f_EnvEnd f_ExitCode := sf in
  mkStatField f_Pid f_Comm f_State f_PPid f_PGrp f_Session f_TTYNR f_TPGid f_TaskFlags f_MinFlt f_CMinFlt f_MajFlt f_CMajFlt f_UTime f_STime v f_CSTime f_Priority f_Nice f_NumThreads f_ItRealValue f_StartTime f_VSize f_RSS f_RSSLim f_StartCode f_EndCode f_StartStack f_KStkEsp f_KStkEip f_TaskPendingSig f_TaskBlockSig f_SigIgnoreSig f_SigCatchSig f_WChan f_NSwap f_CNSwap f_ExitSignal f_Processor f_RtPriority f_Policy f_DelayacctBlkioTicks f_GuestTime f_CGuestTime f_StartData f_EndData f_StartBrk f_ArgStart f_ArgEnd f_EnvStart f_EnvEnd f_ExitCode.
Definition set_CSTime (v : Z) (sf : StatField) : StatField :=
  let 'mkStatField f_Pid f_Comm f_State f_PPid f_PGrp f_Session f_TTYNR f_TPGid f_TaskFlags f_MinFlt f_CMinFlt f_MajFlt f_CMajFlt f_UTime f_STime f_CUTime _ f_Priority f_Nice f_NumThreads f_ItRealValue f_StartTime f_VSize f_RSS f_RSSLim f_StartCode f_EndCode f_StartStack f_KStkEsp f_KStkEip f_TaskPendingSig f_TaskBlockSig f_SigIgnoreSig f_SigCatchSig f_WChan f_NSwap f_CNSwap f_ExitSignal f_Processor f_RtPriority f_Policy f_DelayacctBlkioTicks f_GuestTime f_CGuestTime f_StartData f_EndData f_StartBrk f_ArgStart f_ArgEnd f_EnvStart f_EnvEnd f_ExitCode := sf in
  mkStatField f_Pid f_Comm f_State f_PPid f_PGrp f_Session f_TTYNR f_TPGid f_TaskFlags f_MinFlt f_CMinFlt f_MajFlt f_CMajFlt f_UTime f_STime f_CUTime v f_Priority f_Nice f_NumThreads f_ItRealValue f_StartTime f_VSize f_RSS f_RSSLim f_StartCode f_EndCode f_StartStack f_KStkEsp f_KStkEip f_TaskPendingSig f_TaskBlockSig f_SigIgnoreSig f_SigCatchSig f_WChan f_NSwap f_CNSwap f_ExitSignal f_Processor f_RtPriority f_Policy f_DelayacctBlkioTicks f_GuestTime f_CGuestTime f_StartData f_EndData f_StartBrk f_ArgStart f_ArgEnd f_EnvStart f_EnvEnd f_ExitCode.
Definition set_Priority (v : Z) (sf : StatField) : StatField :=
  let 'mkStatField f_Pid f_Comm f_State f_PPid f_PGrp f_Session f_TTYNR f_TPGid f_TaskFlags f_MinFlt f_CMinFlt f_MajFlt f_CMajFlt f_UTime f_STime f_CUTime f_CSTime _ f_Nice f_NumThreads f_ItRealValue f_StartTime f_VSize f_RSS f_RSSLim f_StartCode f_EndCode f_StartStack f_KStkEsp f_KStkEip f_TaskPendingSig f_TaskBlockSig f_SigIgnoreSig f_SigCatchSig f_WChan f_NSwap f_CNSwap f_ExitSignal f_Processor f_RtPriority f_Policy f_DelayacctBlkioTicks f_GuestTime f_CGuestTime f_StartData f_EndData f_StartBrk f_ArgStart f_ArgEnd f_EnvStart f_EnvEnd f_ExitCode := sf in
  mkStatField f_Pid f_Comm f_State f_PPid f_PGrp f_Session f_TTYNR f_TPGid f_TaskFlags f_MinFlt f_CMinFlt f_MajFlt f_CMajFlt f_UTime f_STime f_CUTime f_CSTime v f_Nice f_NumThreads f_ItRealValue f_StartTime f_VSize f_RSS f_RSSLim f_StartCode f_EndCode f_StartStack f_KStkEsp f_KStkEip f_TaskPendingSig f_TaskBlockSig f_SigIgnoreSig f_SigCatchSig f_WChan f_NSwap f_CNSwap f_ExitSignal f_Processor f_RtPriority f_Policy f_DelayacctBlkioTicks f_GuestTime f_CGuestTime f_StartData f_EndData f_StartBrk f_ArgStart f_ArgEnd f_EnvStart f_EnvEnd f_ExitCode.
Definition set_Nice (v : Z) (sf : StatField) : StatField :=
  let 'mkStatField f_Pid f_Comm f_State f_PPid f_PGrp f_Session f_TTYNR f_TPGid f_TaskFlags f_MinFlt f_CMinFlt f_MajFlt f_CMajFlt f_UTime f_STime f_CUTime f_CSTime f_Priority _ f_NumThreads f_ItRealValue f_StartTime f_VSize f_RSS f_RSSLim f_StartCode f_EndCode f_StartStack f_KStkEsp f_KStkEip f_TaskPendingSig f_TaskBlockSig f_SigIgnoreSig f_SigCatchSig f_WChan f_NSwap f_CNSwap f_ExitSignal f_Processor f_RtPriority f_Policy f_DelayacctBlkioTicks f_GuestTime f_CGuestTime f_StartData f_EndData f_StartBrk f_ArgStart f_ArgEnd f_EnvStart f_EnvEnd f_ExitCode := sf in
  mkStatField f_Pid f_Comm f_State f_PPid f_PGrp f_Session f_TTYNR f_TPGid f_TaskFlags f_MinFlt f_CMinFlt f_MajFlt f_CMajFlt f_UTime f_STime f_CUTime f_CSTime f_Priority v f_NumThreads f_ItRealValue f_StartTime f_VSize f_RSS f_RSSLim f_StartCode f_EndCode f_StartStack f_KStkEsp f_KStkEip f_TaskPendingSig f_TaskBlockSig f_SigIgnoreSig f_SigCatchSig f_WChan f_NSwap f_CNSwap f_ExitSignal f_Processor f_RtPriority f_Policy f_DelayacctBlkioTicks f_GuestTime f_CGuestTime f_StartData f_EndData f_StartBrk f_ArgStart f_ArgEnd f_EnvStart f_EnvEnd f_ExitCode.
Definition set_NumThreads (v : Z) (sf : StatField) : StatField :=
  let 'mkStatField f_Pid f_Comm f_State f_PPid f_PGrp f_Session f_TTYNR f_TPGid f_TaskFlags f_MinFlt f_CMinFlt f_MajFlt f_CMajFlt f_UTime f_STime f_CUTime f_CSTime f_Priority f_Nice _ f_ItRealValue f_StartTime f_VSize f_RSS f_RSSLim f_StartCode f_EndCode f_StartStack f_KStkEsp f_KStkEip f_TaskPendingSig f_TaskBlockSig f_SigIgnoreSig f_SigCatchSig f_WChan f_NSwap f_CNSwap f_ExitSignal f_Processor f_RtPriority f_Policy f_DelayacctBlkioTicks f_GuestTime f_CGuestTime f_StartData f_EndData f_StartBrk f_ArgStart f_ArgEnd f_EnvStart f_EnvEnd f_ExitCode := sf in
  mkStatField f_Pid f_Comm f_State f_PPid f_PGrp f_Session f_TTYNR f_TPGid f_TaskFlags f_MinFlt f_CMinFlt f_MajFlt f_CMajFlt f_UTime f_STime f_CUTime f_CSTime f_Priority f_Nice v f_ItRealValue f_StartTime f_VSize f_RSS f_RSSLim f_StartCode f_EndCode f_StartStack f_KStkEsp f_KStkEip f_TaskPendingSig f_TaskBlockSig f_SigIgnoreSig f_SigCatchSig f_WChan f_NSwap f_CNSwap f_ExitSignal f_Processor f_RtPriority f_Policy f_DelayacctBlkioTicks f_GuestTime f_CGuestTime f_StartData f_EndData f_StartBrk f_ArgStart f_ArgEnd f_EnvStart f_EnvEnd f_ExitCode.
Definition set_ItRealValue (v : Z) (sf : StatField) : StatField :=
  let 'mkStatField f_Pid f_Comm f_State f_PPid f_PGrp f_Session f_TTYNR f_TPGid f_TaskFlags f_MinFlt f_CMinFlt f_MajFlt f_CMajFlt f_UTime f_STime f_CUTime f_CSTime f_Priority f_Nice f_NumThreads _ f_StartTime f_VSize f_RSS f_RSSLim f_StartCode f_EndCode f_StartStack f_KStkEsp f_KStkEip f_TaskPendingSig f_TaskBlockSig f_SigIgnoreSig f_SigCatchSig f_WChan f_NSwap f_CNSwap f_ExitSignal f_Processor f_RtPriority f_Policy f_DelayacctBlkioTicks f_GuestTime f_CGuestTime f_StartData f_EndData f_StartBrk f_ArgStart f_ArgEnd f_EnvStart f_EnvEnd f_ExitCode := sf in
  mkStatField f_Pid f_Comm f_State f_PPid f_PGrp f_Session f_TTYNR f_TPGid f_TaskFlags f_MinFlt f_CMinFlt f_MajFlt f_CMajFlt f_UTime f_STime f_CUTime f_CSTime f_Priority f_Nice f_NumThreads v f_StartTime f_VSize f_RSS f_RSSLim f_StartCode f_EndCode f_StartStack f_KStkEsp f_KStkEip f_TaskPendingSig f_TaskBlockSig f_SigIgnoreSig f_SigCatchSig f_WChan f_NSwap f_CNSwap f_ExitSignal f_Processor f_RtPriority f_Policy f_DelayacctBlkioTicks f_GuestTime f_CGuestTime f_StartData f_EndData f_StartBrk f_ArgStart f_ArgEnd f_EnvStart f_EnvEnd f_ExitCode.
Definition set_StartTime (v : Z) (sf : StatField) : StatField :=
  let 'mkStatField f_Pid f_Comm f_State f_PPid f_PGrp f_Session f_TTYNR f_TPGid f_TaskFlags f_MinFlt f_CMinFlt f_MajFlt f_CMajFlt f_UTime f_STime f_CUTime f_CSTime f_Priority f_Nice f_NumThreads f_ItRealValue _ f_VSize f_RSS f_RSSLim f_StartCode f_EndCode f_StartStack f_KStkEsp f_KStkEip f_TaskPendingSig f_TaskBlockSig f_SigIgnoreSig f_SigCatchSig f_WChan f_NSwap f_CNSwap f_ExitSignal f_Processor f_RtPriority f_Policy f_DelayacctBlkioTicks f_GuestTime f_CGuestTime f_StartData f_EndData f_StartBrk f_ArgStart f_ArgEnd f_EnvStart f_EnvEnd f_ExitCode := sf in
  mkStatField f_Pid f_Comm f_State f_PPid f_PGrp f_Session f_TTYNR f_TPGid f_TaskFlags f_MinFlt f_CMinFlt f_MajFlt f_CMajFlt f_UTime f_STime f_CUTime f_CSTime f_Priority f_Nice f_NumThreads f_ItRealValue v f_VSize f_RSS f_RSSLim f_StartCode f_EndCode f_StartStack f_KStkEsp f_KStkEip f_TaskPendingSig f_TaskBlockSig f_SigIgnoreSig f_SigCatchSig f_WChan f_NSwap f_CNSwap f_ExitSignal f_Processor f_RtPriority f_Policy f_DelayacctBlkioTicks f_GuestTime f_CGuestTime f_StartData f_EndData f_StartBrk f_ArgStart f_ArgEnd f_EnvStart f_EnvEnd f_ExitCode.
Definition set_VSize (v : Z) (sf : StatField) : StatField :=
  let 'mkStatField f_Pid f_Comm f_State f_PPid f_PGrp f_Session f_TTYNR f_TPGid f_TaskFlags f_MinFlt f_CMinFlt f_MajFlt f_CMajFlt f_UTime f_STime f_CUTime f_CSTime f_Priority f_Nice f_NumThreads f_ItRealValue f_StartTime _ f_RSS f_RSSLim f_StartCode f_EndCode f_StartStack f_KStkEsp f_KStkEip f_TaskPendingSig f_TaskBlockSig f_SigIgnoreSig f_SigCatchSig f_WChan f_NSwap f_CNSwap f_ExitSignal f_Processor f_RtPriority f_Policy f_DelayacctBlkioTicks f_GuestTime f_CGuestTime f_StartData f_EndData f_StartBrk f_ArgStart f_ArgEnd f_EnvStart f_EnvEnd f_ExitCode := sf in
  mkStatField f_Pid f_Comm f_State f_PPid f_PGrp f_Session f_TTYNR f_TPGid f_TaskFlags f_MinFlt f_CMinFlt f_MajFlt f_CMajFlt f_UTime f_STime f_CUTime f_CSTime f_Priority f_Nice f_NumThreads f_ItRealValue f_StartTime v f_RSS f_RSSLim f_StartCode f_EndCode f_StartStack f_KStkEsp f_KStkEip f_TaskPendingSig f_TaskBlockSig f_SigIgnoreSig f_SigCatchSig f_WChan f_NSwap f_CNSwap f_ExitSignal f_Processor f_RtPriority f_Policy f_DelayacctBlkioTicks f_GuestTime f_CGuestTime f_StartData f_EndData f_StartBrk f_ArgStart f_ArgEnd f_EnvStart f_EnvEnd f_ExitCode.
Definition set_RSS (v : Z) (sf : StatField) : StatField :=
  let 'mkStatField f_Pid f_Comm f_State f_PPid f_PGrp f_Session f_TTYNR f_TPGid f_TaskFlags f_MinFlt f_CMinFlt f_MajFlt f_CMajFlt f_UTime f_STime f_CUTime f_CSTime f_Priority f_Nice f_NumThreads f_ItRealValue f_StartTime f_VSize _ f_RSSLim f_StartCode f_EndCode f_StartStack f_KStkEsp f_KStkEip f_TaskPendingSig f_TaskBlockSig f_SigIgnoreSig f_SigCatchSig f_WChan f_NSwap f_CNSwap f_ExitSignal f_Processor f_RtPriority f_Policy f_DelayacctBlkioTicks f_GuestTime f_CGuestTime f_StartData f_EndData f_StartBrk f_ArgStart f_ArgEnd f_EnvStart f_EnvEnd f_ExitCode := sf in
  mkStatField f_Pid f_Comm f_State f_PPid f_PGrp f_Session f_TTYNR f_TPGid f_TaskFlags f_MinFlt f_CMinFlt f_MajFlt f_CMajFlt f_UTime f_STime f_CUTime f_CSTime f_Priority f_Nice f_NumThreads f_ItRealValue f_StartTime f_VSize v f_RSSLim f_StartCode f_EndCode f_StartStack f_KStkEsp f_KStkEip f_TaskPendingSig f_TaskBlockSig f_SigIgnoreSig f_SigCatchSig f_WChan f_NSwap f_CNSwap f_ExitSignal f_Processor f_RtPriority f_Policy f_DelayacctBlkioTicks f_GuestTime f_CGuestTime f_StartData f_EndData f_StartBrk f_ArgStart f_ArgEnd f_EnvStart f_EnvEnd f_ExitCode.
Definition set_RSSLim (v : Z) (sf : StatField) : StatField :=
  let 'mkStatField f_Pid f_Comm f_State f_PPid f_PGrp f_Session f_TTYNR f_TPGid f_TaskFlags f_MinFlt f_CMinFlt f_MajFlt f_CMajFlt f_UTime f_STime f_CUTime f_CSTime f_Priority f_Nice f_NumThreads f_ItRealValue f_StartTime f_VSize f_RSS _ f_StartCode f_EndCode f_StartStack f_KStkEsp f_KStkEip f_TaskPendingSig f_TaskBlockSig f_SigIgnoreSig f_SigCatchSig f_WChan f_NSwap f_CNSwap f_ExitSignal f_Processor f_RtPriority f_Policy f_DelayacctBlkioTicks f_GuestTime f_CGuestTime f_StartData f_EndData f_StartBrk f_ArgStart f_ArgEnd f_EnvStart f_EnvEnd f_ExitCode := sf in
  mkStatField f_Pid f_Comm f_State f_PPid f_PGrp f_Session f_TTYNR f_TPGid f_TaskFlags f_MinFlt f_CMinFlt f_MajFlt f_CMajFlt f_UTime f_STime f_CUTime f_CSTime f_Priority f_Nice f_NumThreads f_ItRealValue f_StartTime f_VSize f_RSS v f_StartCode f_EndCode f_StartStack f_KStkEsp f_KStkEip f_TaskPendingSig f_TaskBlockSig f_SigIgnoreSig f_SigCatchSig f_WChan f_NSwap f_CNSwap f_ExitSignal f_Processor f_RtPriority f_Policy f_DelayacctBlkioTicks f_GuestTime f_CGuestTime f_StartData f_EndData f_StartBrk f_ArgStart f_ArgEnd f_EnvStart f_EnvEnd f_ExitCode.
Definition set_StartCode (v : Z) (sf : StatField) : StatField :=
  let 'mkStatField f_Pid f_Comm f_State f_PPid f_PGrp f_Session f_TTYNR f_TPGid f_TaskFlags f_MinFlt f_CMinFlt f_MajFlt f_CMajFlt f_UTime f_STime f_CUTime f_CSTime f_Priority f_Nice f_NumThreads f_ItRealValue f_StartTime f_VSize f_RSS f_RSSLim _ f_EndCode f_StartStack f_KStkEsp f_KStkEip f_TaskPendingSig f_TaskBlockSig f_SigIgnoreSig f_SigCatchSig f_WChan f_NSwap f_CNSwap f_ExitSignal f_Processor f_RtPriority f_Policy f_DelayacctBlkioTicks f_GuestTime f_CGuestTime f_StartData f_EndData f_StartBrk f_ArgStart f_ArgEnd f_EnvStart f_EnvEnd f_ExitCode := sf in
  mkStatField f_Pid f_Comm f_State f_PPid f_PGrp f_Session f_TTYNR f_TPGid f_TaskFlags f_MinFlt f_CMinFlt f_MajFlt f_CMajFlt f_UTime f_STime f_CUTime f_CSTime f_Priority f_Nice f_NumThreads f_ItRealValue f_StartTime f_VSize f_RSS f_RSSLim v f_EndCode f_StartStack f_KStkEsp f_KStkEip f_TaskPendingSig f_TaskBlockSig f_SigIgnoreSig f_SigCatchSig f_WChan f_NSwap f_CNSwap f_ExitSignal f_Processor f_RtPriority f_Policy f_DelayacctBlkioTicks f_GuestTime f_CGuestTime f_StartData f_EndData f_StartBrk f_ArgStart f_ArgEnd f_EnvStart f_EnvEnd f_ExitCode.
Definition set_EndCode (v : Z) (sf : StatField) : StatField :=
  let 'mkStatField f_Pid f_Comm f_State f_PPid f_PGrp f_Session f_TTYNR f_TPGid f_TaskFlags f_MinFlt f_CMinFlt f_MajFlt f_CMajFlt f_UTime f_STime f_CUTime f_CSTime f_Priority f_Nice f_NumThreads f_ItRealValue f_StartTime f_VSize f_RSS f_RSSLim f_StartCode _ f_StartStack f_KStkEsp f_KStkEip f_TaskPendingSig f_TaskBlockSig f_SigIgnoreSig f_SigCatchSig f_WChan f_NSwap f_CNSwap f_ExitSignal f_Processor f_RtPriority f_Policy f_DelayacctBlkioTicks f_GuestTime f_CGuestTime f_StartData f_EndData f_StartBrk f_ArgStart f_ArgEnd f_EnvStart f_EnvEnd f_ExitCode := sf in
  mkStatField f_Pid f_Comm f_State f_PPid f_PGrp f_Session f_TTYNR f_TPGid f_TaskFlags f_MinFlt f_CMinFlt f_MajFlt f_CMajFlt f_UTime f_STime f_CUTime f_CSTime f_Priority f_Nice f_NumThreads f_ItRealValue f_StartTime f_VSize f_RSS f_RSSLim f_StartCode v f_StartStack f_KStkEsp f_KStkEip f_TaskPendingSig f_TaskBlockSig f_SigIgnoreSig f_SigCatchSig f_WChan f_NSwap f_CNSwap f_ExitSignal f_Processor f_RtPriority f_Policy f_DelayacctBlkioTicks f_GuestTime f_CGuestTime f_StartData f_EndData f_StartBrk f_ArgStart f_ArgEnd f_EnvStart f_EnvEnd f_ExitCode.
Definition set_StartStack (v : Z) (sf : StatField) : StatField :=
  let 'mkStatField f_Pid f_Comm f_State f_PPid f_PGrp f_Session f_TTYNR f_TPGid f_TaskFlags f_MinFlt f_CMinFlt f_MajFlt f_CMajFlt f_UTime f_STime f_CUTime f_CSTime f_Priority f_Nice f_NumThreads f_ItRealValue f_StartTime f_VSize f_RSS f_RSSLim f_StartCode f_EndCode _ f_KStkEsp f_KStkEip f_TaskPendingSig f_TaskBlockSig f_SigIgnoreSig f_SigCatchSig f_WChan f_NSwap f_CNSwap f_ExitSignal f_Processor f_RtPriority f_Policy f_DelayacctBlkioTicks f_GuestTime f_CGuestTime f_StartData f_EndData f_StartBrk f_ArgStart f_ArgEnd f_EnvStart f_EnvEnd f_ExitCode := sf in
  mkStatField f_Pid f_Comm f_State f_PPid f_PGrp f_Session f_TTYNR f_TPGid f_TaskFlags f_MinFlt f_CMinFlt f_MajFlt f_CMajFlt f_UTime f_STime f_CUTime f_CSTime f_Priority f_Nice f_NumThreads f_ItRealValue f_StartTime f_VSize f_RSS f_RSSLim f_StartCode f_EndCode v f_KStkEsp f_KStkEip f_TaskPendingSig f_TaskBlockSig f_SigIgnoreSig f_SigCatchSig f_WChan f_NSwap f_CNSwap f_ExitSignal f_Processor f_RtPriority f_Policy f_DelayacctBlkioTicks f_GuestTime f_CGuestTime f_StartData f_EndData f_StartBrk f_ArgStart f_ArgEnd f_EnvStart f_EnvEnd f_ExitCode.
Definition set_KStkEsp (v : Z) (sf : StatField) : StatField :=
  let 'mkStatField f_Pid f_Comm f_State f_PPid f_PGrp f_Session f_TTYNR f_TPGid f_TaskFlags f_MinFlt f_CMinFlt f_MajFlt f_CMajFlt f_UTime f_STime f_CUTime f_CSTime f_Priority f_Nice f_NumThreads f_ItRealValue f_StartTime f_VSize f_RSS f_RSSLim f_StartCode f_EndCode f_StartStack _ f_KStkEip f_TaskPendingSig f_TaskBlockSig f_SigIgnoreSig f_SigCatchSig f_WChan f_NSwap f_CNSwap f_ExitSignal f_Processor f_RtPriority f_Policy f_DelayacctBlkioTicks f_GuestTime f_CGuestTime f_StartData f_EndData f_StartBrk f_ArgStart f_ArgEnd f_EnvStart f_EnvEnd f_ExitCode := sf in
  mkStatField f_Pid f_Comm f_State f_PPid f_PGrp f_Session f_TTYNR f_TPGid f_TaskFlags f_MinFlt f_CMinFlt f_MajFlt f_CMajFlt f_UTime f_STime f_CUTime f_CSTime f_Priority f_Nice f_NumThreads f_ItRealValue f_StartTime f_VSize f_RSS f_RSSLim f_StartCode f_EndCode f_StartStack v f_KStkEip f_TaskPendingSig f_TaskBlockSig f_SigIgnoreSig f_SigCatchSig f_WChan f_NSwap f_CNSwap f_ExitSignal f_Processor f_RtPriority f_Policy f_DelayacctBlkioTicks f_GuestTime f_CGuestTime f_StartData f_EndData f_StartBrk f_ArgStart f_ArgEnd f_EnvStart f_EnvEnd f_ExitCode.
Definition set_KStkEip (v : Z) (sf : StatField) : StatField :=
  let 'mkStatField f_Pid f_Comm f_State f_PPid f_PGrp f_Session f_TTYNR f_TPGid f_TaskFlags f_MinFlt f_CMinFlt f_MajFlt f_CMajFlt f_UTime f_STime f_CUTime f_CSTime f_Priority f_Nice f_NumThreads f_ItRealValue f_StartTime f_VSize f_RSS f_RSSLim f_StartCode f_EndCode f_StartStack f_KStkEsp _ f_TaskPendingSig f_TaskBlockSig f_SigIgnoreSig f_SigCatchSig f_WChan f_NSwap f_CNSwap f_ExitSignal f_Processor f_RtPriority f_Policy f_DelayacctBlkioTicks f_GuestTime f_CGuestTime f_StartData f_EndData f_StartBrk f_ArgStart f_ArgEnd f_EnvStart f_EnvEnd f_ExitCode := sf in
  mkStatField f_Pid f_Comm f_State f_PPid f_PGrp f_Session f_TTYNR f_TPGid f_TaskFlags f_MinFlt f_CMinFlt f_MajFlt f_CMajFlt f_UTime f_STime f_CUTime f_CSTime f_Priority f_Nice f_NumThreads f_ItRealValue f_StartTime f_VSize f_RSS f_RSSLim f_StartCode f_EndCode f_StartStack f_KStkEsp v f_TaskPendingSig f_TaskBlockSig f_SigIgnoreSig f_SigCatchSig f_WChan f_NSwap f_CNSwap f_ExitSignal f_Processor f_RtPriority f_Policy f_DelayacctBlkioTicks f_GuestTime f_CGuestTime f_StartData f_EndData f_StartBrk f_ArgStart f_ArgEnd f_EnvStart f_EnvEnd f_ExitCode.
Definition set_TaskPendingSig (v : Z) (sf : StatField) : StatField :=
  let 'mkStatField f_Pid f_Comm f_State f_PPid f_PGrp f_Session f_TTYNR f_TPGid f_TaskFlags f_MinFlt f_CMinFlt f_MajFlt f_CMajFlt f_UTime f_STime f_CUTime f_CSTime f_Priority f_Nice f_NumThreads f_ItRealValue f_StartTime f_VSize f_RSS f_RSSLim f_StartCode f_EndCode f_StartStack f_KStkEsp f_KStkEip _ f_TaskBlockSig f_SigIgnoreSig f_SigCatchSig f_WChan f_NSwap f_CNSwap f_ExitSignal f_Processor f_RtPriority f_Policy f_DelayacctBlkioTicks f_GuestTime f_CGuestTime f_StartData f_EndData f_StartBrk f_ArgStart f_ArgEnd f_EnvStart f_EnvEnd f_ExitCode := sf in
  mkStatField f_Pid f_Comm f_State f_PPid f_PGrp f_Session f_TTYNR f_TPGid f_TaskFlags f_MinFlt f_CMinFlt f_MajFlt f_CMajFlt f_UTime f_STime f_CUTime f_CSTime f_Priority f_Nice f_NumThreads f_ItRealValue f_StartTime f_VSize f_RSS f_RSSLim f_StartCode f_EndCode f_StartStack f_KStkEsp f_KStkEip v f_TaskBlockSig f_SigIgnoreSig f_SigCatchSig f_WChan f_NSwap f_CNSwap f_ExitSignal f_Processor f_RtPriority f_Policy f_DelayacctBlkioTicks f_GuestTime f_CGuestTime f_StartData f_EndData f_StartBrk f_ArgStart f_ArgEnd f_EnvStart f_EnvEnd f_ExitCode.
Definition set_TaskBlockSig (v : Z) (sf : StatField) : StatField :=
  let 'mkStatField f_Pid f_Comm f_State f_PPid f_PGrp f_Session f_TTYNR f_TPGid f_TaskFlags f_MinFlt f_CMinFlt f_MajFlt f_CMajFlt f_UTime f_STime f_CUTime f_CSTime f_Priority f_Nice f_NumThreads f_ItRealValue f_StartTime f_VSize f_RSS f_RSSLim f_StartCode f_EndCode f_StartStack f_KStkEsp f_KStkEip f_TaskPendingSig _ f_SigIgnoreSig f_SigCatchSig f_WChan f_NSwap f_CNSwap f_ExitSignal f_Processor f_RtPriority f_Policy f_DelayacctBlkioTicks f_GuestTime f_CGuestTime f_StartData f_EndData f_StartBrk f_ArgStart f_ArgEnd f_EnvStart f_EnvEnd f_ExitCode := sf in
  mkStatField f_Pid f_Comm f_State f_PPid f_PGrp f_Session f_TTYNR f_TPGid f_TaskFlags f_MinFlt f_CMinFlt f_MajFlt f_CMajFlt f_UTime f_STime f_CUTime f_CSTime f_Priority f_Nice f_NumThreads f_ItRealValue f_StartTime f_VSize f_RSS f_RSSLim f_StartCode f_EndCode f_StartStack f_KStkEsp f_KStkEip f_TaskPendingSig v f_SigIgnoreSig f_SigCatchSig f_WChan f_NSwap f_CNSwap f_ExitSignal f_Processor f_RtPriority f_Policy f_DelayacctBlkioTicks f_GuestTime f_CGuestTime f_StartData f_EndData f_StartBrk f_ArgStart f_ArgEnd f_EnvStart f_EnvEnd f_ExitCode.
Definition set_SigIgnoreSig (v : Z) (sf : StatField) : StatField :=
  let 'mkStatField f_Pid f_Comm f_State f_PPid f_PGrp f_Session f_TTYNR f_TPGid f_TaskFlags f_MinFlt f_CMinFlt f_MajFlt f_CMajFlt f_UTime f_STime f_CUTime f_CSTime f_Priority f_Nice f_NumThreads f_ItRealValue f_StartTime f_VSize f_RSS f_RSSLim f_StartCode f_EndCode f_StartStack f_KStkEsp f_KStkEip f_TaskPendingSig f_TaskBlockSig _ f_SigCatchSig f_WChan f_NSwap f_CNSwap f_ExitSignal f_Processor f_RtPriority f_Policy f_DelayacctBlkioTicks f_GuestTime f_CGuestTime f_StartData f_EndData f_StartBrk f_ArgStart f_ArgEnd f_EnvStart f_EnvEnd f_ExitCode := sf in
  mkStatField f_Pid f_Comm f_State f_PPid f_PGrp f_Session f_TTYNR f_TPGid f_TaskFlags f_MinFlt f_CMinFlt f_MajFlt f_CMajFlt f_UTime f_STime f_CUTime f_CSTime f_Priority f_Nice f_NumThreads f_ItRealValue f_StartTime f_VSize f_RSS f_RSSLim f_StartCode f_EndCode f_StartStack f_KStkEsp f_KStkEip f_TaskPendingSig f_TaskBlockSig v f_SigCatchSig f_WChan f_NSwap f_CNSwap f_ExitSignal f_Processor f_RtPriority f_Policy f_DelayacctBlkioTicks f_GuestTime f_CGuestTime f_StartData f_EndData f_StartBrk f_ArgStart f_ArgEnd f_EnvStart f_EnvEnd f_ExitCode.
Definition set_SigCatchSig (v : Z) (sf : StatField) : StatField :=
  let 'mkStatField f_Pid f_Comm f_State f_PPid f_PGrp f_Session f_TTYNR f_TPGid f_TaskFlags f_MinFlt f_CMinFlt f_MajFlt f_CMajFlt f_UTime f_STime f_CUTime f_CSTime f_Priority f_Nice f_NumThreads f_ItRealValue f_StartTime f_VSize f_RSS f_RSSLim f_StartCode f_EndCode f_StartStack f_KStkEsp f_KStkEip f_TaskPendingSig f_TaskBlockSig f_SigIgnoreSig _ f_WChan f_NSwap f_CNSwap f_ExitSignal f_Processor f_RtPriority f_Policy f_DelayacctBlkioTicks f_GuestTime f_CGuestTime f_StartData f_EndData f_StartBrk f_ArgStart f_ArgEnd f_EnvStart f_EnvEnd f_ExitCode := sf in
  mkStatField f_Pid f_Comm f_State f_PPid f_PGrp f_Session f_TTYNR f_TPGid f_TaskFlags f_MinFlt f_CMinFlt f_MajFlt f_CMajFlt f_UTime f_STime f_CUTime f_CSTime f_Priority f_Nice f_NumThreads f_ItRealValue f_StartTime f_VSize f_RSS f_RSSLim f_StartCode f_EndCode f_StartStack f_KStkEsp f_KStkEip f_TaskPendingSig f_TaskBlockSig f_SigIgnoreSig v f_WChan f_NSwap f_CNSwap f_ExitSignal f_Processor f_RtPriority f_Policy f_DelayacctBlkioTicks f_GuestTime f_CGuestTime f_StartData f_EndData f_StartBrk f_ArgStart f_ArgEnd f_EnvStart f_EnvEnd f_ExitCode.
Definition set_WChan (v : Z) (sf : StatField) : StatField :=
  let 'mkStatField f_Pid f_Comm f_State f_PPid f_PGrp f_Session f_TTYNR f_TPGid f_TaskFlags f_MinFlt f_CMinFlt f_MajFlt f_CMajFlt f_UTime f_STime f_CUTime f_CSTime f_Priority f_Nice f_NumThreads f_ItRealValue f_StartTime f_VSize f_RSS f_RSSLim f_StartCode f_EndCode f_StartStack f_KStkEsp f_KStkEip f_TaskPendingSig f_TaskBlockSig f_SigIgnoreSig f_SigCatchSig _ f_NSwap f_CNSwap f_ExitSignal f_Processor f_RtPriority f_Policy f_DelayacctBlkioTicks f_GuestTime f_CGuestTime f_StartData f_EndData f_StartBrk f_ArgStart f_ArgEnd f_EnvStart f_EnvEnd f_ExitCode := sf in
  mkStatField f_Pid f_Comm f_State f_PPid f_PGrp f_Session f_TTYNR f_TPGid f_TaskFlags f_MinFlt f_CMinFlt f_MajFlt f_CMajFlt f_UTime f_STime f_CUTime f_CSTime f_Priority f_Nice f_NumThreads f_ItRealValue f_StartTime f_VSize f_RSS f_RSSLim f_StartCode f_EndCode f_StartStack f_KStkEsp f_KStkEip f_TaskPendingSig f_TaskBlockSig f_SigIgnoreSig f_SigCatchSig v f_NSwap f_CNSwap f_ExitSignal f_Processor f_RtPriority f_Policy f_DelayacctBlkioTicks f_GuestTime f_CGuestTime f_StartData f_EndData f_StartBrk f_ArgStart f_ArgEnd f_EnvStart f_EnvEnd f_ExitCode.
Definition set_NSwap (v : Z) (sf : StatField) : StatField :=
  let 'mkStatField f_Pid f_Comm f_State f_PPid f_PGrp f_Session f_TTYNR f_TPGid f_TaskFlags f_MinFlt f_CMinFlt f_MajFlt f_CMajFlt f_UTime f_STime f_CUTime f_CSTime f_Priority f_Nice f_NumThreads f_ItRealValue f_StartTime f_VSize f_RSS f_RSSLim f_StartCode f_EndCode f_StartStack f_KStkEsp f_KStkEip f_TaskPendingSig f_TaskBlockSig f_SigIgnoreSig f_SigCatchSig f_WChan _ f_CNSwap f_ExitSignal f_Processor f_RtPriority f_Policy f_DelayacctBlkioTicks f_GuestTime f_CGuestTime f_StartData f_EndData f_StartBrk f_ArgStart f_ArgEnd f_EnvStart f_EnvEnd f_ExitCode := sf in
  mkStatField f_Pid f_Comm f_State f_PPid f_PGrp f_Session f_TTYNR f_TPGid f_TaskFlags f_MinFlt f_CMinFlt f_MajFlt f_CMajFlt f_UTime f_STime f_CUTime f_CSTime f_Priority f_Nice f_NumThreads f_ItRealValue f_StartTime f_VSize f_RSS f_RSSLim f_StartCode f_EndCode f_StartStack f_KStkEsp f_KStkEip f_TaskPendingSig f_TaskBlockSig f_SigIgnoreSig f_SigCatchSig f_WChan v f_CNSwap f_ExitSignal f_Processor f_RtPriority f_Policy f_DelayacctBlkioTicks f_GuestTime f_CGuestTime f_StartData f_EndData f_StartBrk f_ArgStart f_ArgEnd f_EnvStart f_EnvEnd f_ExitCode.
Definition set_CNSwap (v : Z) (sf : StatField) : StatField :=
  let 'mkStatField f_Pid f_Comm f_State f_PPid f_PGrp f_Session f_TTYNR f_TPGid f_TaskFlags f_MinFlt f_CMinFlt f_MajFlt f_CMajFlt f_UTime f_STime f_CUTime f_CSTime f_Priority f_Nice f_NumThreads f_ItRealValue f_StartTime f_VSize f_RSS f_RSSLim f_StartCode f_EndCode f_StartStack f_KStkEsp f_KStkEip f_TaskPendingSig f_TaskBlockSig f_SigIgnoreSig f_SigCatchSig f_WChan f_NSwap _ f_ExitSignal f_Processor f_RtPriority f_Policy f_DelayacctBlkioTicks f_GuestTime f_CGuestTime f_StartData f_EndData f_StartBrk f_ArgStart f_ArgEnd f_EnvStart f_EnvEnd f_ExitCode := sf in
  mkStatField f_Pid f_Comm f_State f_PPid f_PGrp f_Session f_TTYNR f_TPGid f_TaskFlags f_MinFlt f_CMinFlt f_MajFlt f_CMajFlt f_UTime f_STime f_CUTime f_CSTime f_Priority f_Nice f_NumThreads f_ItRealValue f_StartTime f_VSize f_RSS f_RSSLim f_StartCode f_EndCode f_StartStack f_KStkEsp f_KStkEip f_TaskPendingSig f_TaskBlockSig f_SigIgnoreSig f_SigCatchSig f_WChan f_NSwap v f_ExitSignal f_Processor f_RtPriority f_Policy f_DelayacctBlkioTicks f_GuestTime f_CGuestTime f_StartData f_EndData f_StartBrk f_ArgStart f_ArgEnd f_EnvStart f_EnvEnd f_ExitCode.
Definition set_ExitSignal (v : Z) (sf : StatField) : StatField :=
  let 'mkStatField f_Pid f_Comm f_State f_PPid f_PGrp f_Session f_TTYNR f_TPGid f_TaskFlags f_MinFlt f_CMinFlt f_MajFlt f_CMajFlt f_UTime f_STime f_CUTime f_CSTime f_Priority f_Nice f_NumThreads f_ItRealValue f_StartTime f_VSize f_RSS f_RSSLim f_StartCode f_EndCode f_StartStack f_KStkEsp f_KStkEip f_TaskPendingSig f_TaskBlockSig f_SigIgnoreSig f_SigCatchSig f_WChan f_NSwap f_CNSwap _ f_Processor f_RtPriority f_Policy f_DelayacctBlkioTicks f_GuestTime f_CGuestTime f_StartData f_EndData f_StartBrk f_ArgStart f_ArgEnd f_EnvStart f_EnvEnd f_ExitCode := sf in
  mkStatField f_Pid f_Comm f_State f_PPid f_PGrp f_Session f_TTYNR f_TPGid f_TaskFlags f_MinFlt f_CMinFlt f_MajFlt f_CMajFlt f_UTime f_STime f_CUTime f_CSTime f_Priority f_Nice f_NumThreads f_ItRealValue f_StartTime f_VSize f_RSS f_RSSLim f_StartCode f_EndCode f_StartStack f_KStkEsp f_KStkEip f_TaskPendingSig f_TaskBlockSig f_SigIgnoreSig f_SigCatchSig f_WChan f_NSwap f_CNSwap v f_Processor f_RtPriority f_Policy f_DelayacctBlkioTicks f_GuestTime f_CGuestTime f_StartData f_EndData f_StartBrk f_ArgStart f_ArgEnd f_EnvStart f_EnvEnd f_ExitCode.
Definition set_Processor (v : Z) (sf : StatField) : StatField :=
  let 'mkStatField f_Pid f_Comm f_State f_PPid f_PGrp f_Session f_TTYNR f_TPGid f_TaskFlags f_MinFlt f_CMinFlt f_MajFlt f_CMajFlt f_UTime f_STime f_CUTime f_CSTime f_Priority f_Nice f_NumThreads f_ItRealValue f_StartTime f_VSize f_RSS f_RSSLim f_StartCode f_EndCode f_StartStack f_KStkEsp f_KStkEip f_TaskPendingSig f_TaskBlockSig f_SigIgnoreSig f_SigCatchSig f_WChan f_NSwap f_CNSwap f_ExitSignal _ f_RtPriority f_Policy f_DelayacctBlkioTicks f_GuestTime f_CGuestTime f_StartData f_EndData f_StartBrk f_ArgStart f_ArgEnd f_EnvStart f_EnvEnd f_ExitCode := sf in
  mkStatField f_Pid f_Comm f_State f_PPid f_PGrp f_Session f_TTYNR f_TPGid f_TaskFlags f_MinFlt f_CMinFlt f_MajFlt f_CMajFlt f_UTime f_STime f_CUTime f_CSTime f_Priority f_Nice f_NumThreads f_ItRealValue f_StartTime f_VSize f_RSS f_RSSLim f_StartCode f_EndCode f_StartStack f_KStkEsp f_KStkEip f_TaskPendingSig f_TaskBlockSig f_SigIgnoreSig f_SigCatchSig f_WChan f_NSwap f_CNSwap f_ExitSignal v f_RtPriority f_Policy f_DelayacctBlkioTicks f_GuestTime f_CGuestTime f_StartData f_EndData f_StartBrk f_ArgStart f_ArgEnd f_EnvStart f_EnvEnd f_ExitCode.
Definition set_RtPriority (v : Z) (sf : StatField) : StatField :=
  let 'mkStatField f_Pid f_Comm f_State f_PPid f_PGrp f_Session f_TTYNR f_TPGid f_TaskFlags f_MinFlt f_CMinFlt f_MajFlt f_CMajFlt f_UTime f_STime f_CUTime f_CSTime f_Priority f_Nice f_NumThreads f_ItRealValue f_StartTime f_VSize f_RSS f_RSSLim f_StartCode f_EndCode f_StartStack f_KStkEsp f_KStkEip f_TaskPendingSig f_TaskBlockSig f_SigIgnoreSig f_SigCatchSig f_WChan f_NSwap f_CNSwap f_ExitSignal f_Processor _ f_Policy f_DelayacctBlkioTicks f_GuestTime f_CGuestTime f_StartData f_EndData f_StartBrk f_ArgStart f_ArgEnd f_EnvStart f_EnvEnd f_ExitCode := sf in
  mkStatField f_Pid f_Comm f_State f_PPid f_PGrp f_Session f_TTYNR f_TPGid f_TaskFlags f_MinFlt f_CMinFlt f_MajFlt f_CMajFlt f_UTime f_STime f_CUTime f_CSTime f_Priority f_Nice f_NumThreads f_ItRealValue f_StartTime f_VSize f_RSS f_RSSLim f_StartCode f_EndCode f_StartStack f_KStkEsp f_KStkEip f_TaskPendingSig f_TaskBlockSig f_SigIgnoreSig f_SigCatchSig f_WChan f_NSwap f_CNSwap f_ExitSignal f_Processor v f_Policy f_DelayacctBlkioTicks f_GuestTime f_CGuestTime f_StartData f_EndData f_StartBrk f_ArgStart f_ArgEnd f_EnvStart f_EnvEnd f_ExitCode.
Definition set_Policy (v : Z) (sf : StatField) : StatField :=
  let 'mkStatField f_Pid f_Comm f_State f_PPid f_PGrp f_Session f_TTYNR f_TPGid f_TaskFlags f_MinFlt f_CMinFlt f_MajFlt f_CMajFlt f_UTime f_STime f_CUTime f_CSTime f_Priority f_Nice f_NumThreads f_ItRealValue f_StartTime f_VSize f_RSS f_RSSLim f_StartCode f_EndCode f_StartStack f_KStkEsp f_KStkEip f_TaskPendingSig f_TaskBlockSig f_SigIgnoreSig f_SigCatchSig f_WChan f_NSwap f_CNSwap f_ExitSignal f_Processor f_RtPriority _ f_DelayacctBlkioTicks f_GuestTime f_CGuestTime f_StartData f_EndData f_StartBrk f_ArgStart f_ArgEnd f_EnvStart f_EnvEnd f_ExitCode := sf in
  mkStatField f_Pid f_Comm f_State f_PPid f_PGrp f_Session f_TTYNR f_TPGid f_TaskFlags f_MinFlt f_CMinFlt f_MajFlt f_CMajFlt f_UTime f_STime f_CUTime f_CSTime f_Priority f_Nice f_NumThreads f_ItRealValue f_StartTime f_VSize f_RSS f_RSSLim f_StartCode f_EndCode f_StartStack f_KStkEsp f_KStkEip f_TaskPendingSig f_TaskBlockSig f_SigIgnoreSig f_SigCatchSig f_WChan f_NSwap f_CNSwap f_ExitSignal f_Processor f_RtPriority v f_DelayacctBlkioTicks f_GuestTime f_CGuestTime f_StartData f_EndData f_StartBrk f_ArgStart f_ArgEnd f_EnvStart f_EnvEnd f_ExitCode.
Definition set_DelayacctBlkioTicks (v : Z) (sf : StatField) : StatField :=
  let 'mkStatField f_Pid f_Comm f_State f_PPid f_PGrp f_Session f_TTYNR f_TPGid f_TaskFlags f_MinFlt f_CMinFlt f_MajFlt f_CMajFlt f_UTime f_STime f_CUTime f_CSTime f_Priority f_Nice f_NumThreads f_ItRealValue f_StartTime f_VSize f_RSS f_RSSLim f_StartCode f_EndCode f_StartStack f_KStkEsp f_KStkEip f_TaskPendingSig f_TaskBlockSig f_SigIgnoreSig f_SigCatchSig f_WChan f_NSwap f_CNSwap f_ExitSignal f_Processor f_RtPriority f_Policy _ f_GuestTime f_CGuestTime f_StartData f_EndData f_StartBrk f_ArgStart f_ArgEnd f_EnvStart f_EnvEnd f_ExitCode := sf in
  mkStatField f_Pid f_Comm f_State f_PPid f_PGrp f_Session f_TTYNR f_TPGid f_TaskFlags f_MinFlt f_CMinFlt f_MajFlt f_CMajFlt f_UTime f_STime f_CUTime f_CSTime f_Priority f_Nice f_NumThreads f_ItRealValue f_StartTime f_VSize f_RSS f_RSSLim f_StartCode f_EndCode f_StartStack f_KStkEsp f_KStkEip f_TaskPendingSig f_TaskBlockSig f_SigIgnoreSig f_SigCatchSig f_WChan f_NSwap f_CNSwap f_ExitSignal f_Processor f_RtPriority f_Policy v f_GuestTime f_CGuestTime f_StartData f_EndData f_StartBrk f_ArgStart f_ArgEnd f_EnvStart f_EnvEnd f_ExitCode.
Definition set_GuestTime (v : Z) (sf : StatField) : StatField :=
  let 'mkStatField f_Pid f_Comm f_State f_PPid f_PGrp f_Session f_TTYNR f_TPGid f_TaskFlags f_MinFlt f_CMinFlt f_MajFlt f_CMajFlt f_UTime f_STime f_CUTime f_CSTime f_Priority f_Nice f_NumThreads f_ItRealValue f_StartTime f_VSize f_RSS f_RSSLim f_StartCode f_EndCode f_StartStack f_KStkEsp f_KStkEip f_TaskPendingSig f_TaskBlockSig f_SigIgnoreSig f_SigCatchSig f_WChan f_NSwap f_CNSwap f_ExitSignal f_Processor f_RtPriority f_Policy f_DelayacctBlkioTicks _ f_CGuestTime f_StartData f_EndData f_StartBrk f_ArgStart f_ArgEnd f_EnvStart f_EnvEnd f_ExitCode := sf in
  mkStatField f_Pid f_Comm f_State f_PPid f_PGrp f_Session f_TTYNR f_TPGid f_TaskFlags f_MinFlt f_CMinFlt f_MajFlt f_CMajFlt f_UTime f_STime f_CUTime f_CSTime f_Priority f_Nice f_NumThreads f_ItRealValue f_StartTime f_VSize f_RSS f_RSSLim f_StartCode f_EndCode f_StartStack f_KStkEsp f_KStkEip f_TaskPendingSig f_TaskBlockSig f_SigIgnoreSig f_SigCatchSig f_WChan f_NSwap f_CNSwap f_ExitSignal f_Processor f_RtPriority f_Policy f_DelayacctBlkioTicks v f_CGuestTime f_StartData f_EndData f_StartBrk f_ArgStart f_ArgEnd f_EnvStart f_EnvEnd f_ExitCode.
Definition set_CGuestTime (v : Z) (sf : StatField) : StatField :=
  let 'mkStatField f_Pid f_Comm f_State f_PPid f_PGrp f_Session f_TTYNR f_TPGid f_TaskFlags f_MinFlt f_CMinFlt f_MajFlt f_CMajFlt f_UTime f_STime f_CUTime f_CSTime f_Priority f_Nice f_NumThreads f_ItRealValue f_StartTime f_VSize f_RSS f_RSSLim f_StartCode f_EndCode f_StartStack f_KStkEsp f_KStkEip f_TaskPendingSig f_TaskBlockSig f_SigIgnoreSig f_SigCatchSig f_WChan f_NSwap f_CNSwap f_ExitSignal f_Processor f_RtPriority f_Policy f_DelayacctBlkioTicks f_GuestTime _ f_StartData f_EndData f_StartBrk f_ArgStart f_ArgEnd f_EnvStart f_EnvEnd f_ExitCode := sf in
  mkStatField f_Pid f_Comm f_State f_PPid f_PGrp f_Session f_TTYNR f_TPGid f_TaskFlags f_MinFlt f_CMinFlt f_MajFlt f_CMajFlt f_UTime f_STime f_CUTime f_CSTime f_Priority f_Nice f_NumThreads f_ItRealValue f_StartTime f_VSize f_RSS f_RSSLim f_StartCode f_EndCode f_StartStack f_KStkEsp f_KStkEip f_TaskPendingSig f_TaskBlockSig f_SigIgnoreSig f_SigCatchSig f_WChan f_NSwap f_CNSwap f_ExitSignal f_Processor f_RtPriority f_Policy f_DelayacctBlkioTicks f_GuestTime v f_StartData f_EndData f_StartBrk f_ArgStart f_ArgEnd f_EnvStart f_EnvEnd f_ExitCode.
Definition set_StartData (v : Z) (sf : StatField) : StatField :=
  let 'mkStatField f_Pid f_Comm f_State f_PPid f_PGrp f_Session f_TTYNR f_TPGid f_TaskFlags f_MinFlt f_CMinFlt f_MajFlt f_CMajFlt f_UTime f_STime f_CUTime f_CSTime f_Priority f_Nice f_NumThreads f_ItRealValue f_StartTime f_VSize f_RSS f_RSSLim f_StartCode f_EndCode f_StartStack f_KStkEsp f_KStkEip f_TaskPendingSig f_TaskBlockSig f_SigIgnoreSig f_SigCatchSig f_WChan f_NSwap f_CNSwap f_ExitSignal f_Processor f_RtPriority f_Policy f_DelayacctBlkioTicks f_GuestTime f_CGuestTime _ f_EndData f_StartBrk f_ArgStart f_ArgEnd f_EnvStart f_EnvEnd f_ExitCode := sf in
  mkStatField f_Pid f_Comm f_State f_PPid f_PGrp f_Session f_TTYNR f_TPGid f_TaskFlags f_MinFlt f_CMinFlt f_MajFlt f_CMajFlt f_UTime f_STime f_CUTime f_CSTime f_Priority f_Nice f_NumThreads f_ItRealValue f_StartTime f_VSize f_RSS f_RSSLim f_StartCode f_EndCode f_StartStack f_KStkEsp f_KStkEip f_TaskPendingSig f_TaskBlockSig f_SigIgnoreSig f_SigCatchSig f_WChan f_NSwap f_CNSwap f_ExitSignal f_Processor f_RtPriority f_Policy f_DelayacctBlkioTicks f_GuestTime f_CGuestTime v f_EndData f_StartBrk f_ArgStart f_ArgEnd f_EnvStart f_EnvEnd f_ExitCode.
Definition set_EndData (v : Z) (sf : StatField) : StatField :=
  let 'mkStatField f_Pid f_Comm f_State f_PPid f_PGrp f_Session f_TTYNR f_TPGid f_TaskFlags f_MinFlt f_CMinFlt f_MajFlt f_CMajFlt f_UTime f_STime f_CUTime f_CSTime f_Priority f_Nice f_NumThreads f_ItRealValue f_StartTime f_VSize f_RSS f_RSSLim f_StartCode f_EndCode f_StartStack f_KStkEsp f_KStkEip f_TaskPendingSig f_TaskBlockSig f_SigIgnoreSig f_SigCatchSig f_WChan f_NSwap f_CNSwap f_ExitSignal f_Processor f_RtPriority f_Policy f_DelayacctBlkioTicks f_GuestTime f_CGuestTime f_StartData _ f_StartBrk f_ArgStart f_ArgEnd f_EnvStart f_EnvEnd f_ExitCode := sf in
  mkStatField f_Pid f_Comm f_State f_PPid f_PGrp f_Session f_TTYNR f_TPGid f_TaskFlags f_MinFlt f_CMinFlt f_MajFlt f_CMajFlt f_UTime f_STime f_CUTime f_CSTime f_Priority f_Nice f_NumThreads f_ItRealValue f_StartTime f_VSize f_RSS f_RSSLim f_StartCode f_EndCode f_StartStack f_KStkEsp f_KStkEip f_TaskPendingSig f_TaskBlockSig f_SigIgnoreSig f_SigCatchSig f_WChan f_NSwap f_CNSwap f_ExitSignal f_Processor f_RtPriority f_Policy f_DelayacctBlkioTicks f_GuestTime f_CGuestTime f_StartData v f_StartBrk f_ArgStart f_ArgEnd f_EnvStart f_EnvEnd f_ExitCode.
Definition set_StartBrk (v : Z) (sf : StatField) : StatField :=
  let 'mkStatField f_Pid f_Comm f_State f_PPid f_PGrp f_Session f_TTYNR f_TPGid f_TaskFlags f_MinFlt f_CMinFlt f_MajFlt f_CMajFlt f_UTime f_STime f_CUTime f_CSTime f_Priority f_Nice f_NumThreads f_ItRealValue f_StartTime f_VSize f_RSS f_RSSLim f_StartCode f_EndCode f_StartStack f_KStkEsp f_KStkEip f_TaskPendingSig f_TaskBlockSig f_SigIgnoreSig f_SigCatchSig f_WChan f_NSwap f_CNSwap f_ExitSignal f_Processor f_RtPriority f_Policy f_DelayacctBlkioTicks f_GuestTime f_CGuestTime f_StartData f_EndData _ f_ArgStart f_ArgEnd f_EnvStart f_EnvEnd f_ExitCode := sf in
  mkStatField f_Pid f_Comm f_State f_PPid f_PGrp f_Session f_TTYNR f_TPGid f_TaskFlags f_MinFlt f_CMinFlt f_MajFlt f_CMajFlt f_UTime f_STime f_CUTime f_CSTime f_Priority f_Nice f_NumThreads f_ItRealValue f_StartTime f_VSize f_RSS f_RSSLim f_StartCode f_EndCode f_StartStack f_KStkEsp f_KStkEip f_TaskPendingSig f_TaskBlockSig f_SigIgnoreSig f_SigCatchSig f_WChan f_NSwap f_CNSwap f_ExitSignal f_Processor f_RtPriority f_Policy f_DelayacctBlkioTicks f_GuestTime f_CGuestTime f_StartData f_EndData v f_ArgStart f_ArgEnd f_EnvStart f_EnvEnd f_ExitCode.
Definition set_ArgStart (v : Z) (sf : StatField) : StatField :=
  let 'mkStatField f_Pid f_Comm f_State f_PPid f_PGrp f_Session f_TTYNR f_TPGid f_TaskFlags f_MinFlt f_CMinFlt f_MajFlt f_CMajFlt f_UTime f_STime f_CUTime f_CSTime f_Priority f_Nice f_NumThreads f_ItRealValue f_StartTime f_VSize f_RSS f_RSSLim f_StartCode f_EndCode f_StartStack f_KStkEsp f_KStkEip f_TaskPendingSig f_TaskBlockSig f_SigIgnoreSig f_SigCatchSig f_WChan f_NSwap f_CNSwap f_ExitSignal f_Processor f_RtPriority f_Policy f_DelayacctBlkioTicks f_GuestTime f_CGuestTime f_StartData f_EndData f_StartBrk _ f_ArgEnd f_EnvStart f_EnvEnd f_ExitCode := sf in
  mkStatField f_Pid f_Comm f_State f_PPid f_PGrp f_Session f_TTYNR f_TPGid f_TaskFlags f_MinFlt f_CMinFlt f_MajFlt f_CMajFlt f_UTime f_STime f_CUTime f_CSTime f_Priority f_Nice f_NumThreads f_ItRealValue f_StartTime f_VSize f_RSS f_RSSLim f_StartCode f_EndCode f_StartStack f_KStkEsp f_KStkEip f_TaskPendingSig f_TaskBlockSig f_SigIgnoreSig f_SigCatchSig f_WChan f_NSwap f_CNSwap f_ExitSignal f_Processor f_RtPriority f_Policy f_DelayacctBlkioTicks f_GuestTime f_CGuestTime f_StartData f_EndData f_StartBrk v f_ArgEnd f_EnvStart f_EnvEnd f_ExitCode.
Definition set_ArgEnd (v : Z) (sf : StatField) : StatField :=
  let 'mkStatField f_Pid f_Comm f_State f_PPid f_PGrp f_Session f_TTYNR f_TPGid f_TaskFlags f_MinFlt f_CMinFlt f_MajFlt f_CMajFlt f_UTime f_STime f_CUTime f_CSTime f_Priority f_Nice f_NumThreads f_ItRealValue f_StartTime f_VSize f_RSS f_RSSLim f_StartCode f_EndCode f_StartStack f_KStkEsp f_KStkEip f_TaskPendingSig f_TaskBlockSig f_SigIgnoreSig f_SigCatchSig f_WChan f_NSwap f_CNSwap f_ExitSignal f_Processor f_RtPriority f_Policy f_DelayacctBlkioTicks f_GuestTime f_CGuestTime f_StartData f_EndData f_StartBrk f_ArgStart _ f_EnvStart f_EnvEnd f_ExitCode := sf in
  mkStatField f_Pid f_Comm f_State f_PPid f_PGrp f_Session f_TTYNR f_TPGid f_TaskFlags f_MinFlt f_CMinFlt f_MajFlt f_CMajFlt f_UTime f_STime f_CUTime f_CSTime f_Priority f_Nice f_NumThreads f_ItRealValue f_StartTime f_VSize f_RSS f_RSSLim f_StartCode f_EndCode f_StartStack f_KStkEsp f_KStkEip f_TaskPendingSig f_TaskBlockSig f_SigIgnoreSig f_SigCatchSig f_WChan f_NSwap f_CNSwap f_ExitSignal f_Processor f_RtPriority f_Policy f_DelayacctBlkioTicks f_GuestTime f_CGuestTime f_StartData f_EndData f_StartBrk f_ArgStart v f_EnvStart f_EnvEnd f_ExitCode.
Definition set_EnvStart (v : Z) (sf : StatField) : StatField :=
  let 'mkStatField f_Pid f_Comm f_State f_PPid f_PGrp f_Session f_TTYNR f_TPGid f_TaskFlags f_MinFlt f_CMinFlt f_MajFlt f_CMajFlt f_UTime f_STime f_CUTime f_CSTime f_Priority f_Nice f_NumThreads f_ItRealValue f_StartTime f_VSize f_RSS f_RSSLim f_StartCode f_EndCode f_StartStack f_KStkEsp f_KStkEip f_TaskPendingSig f_TaskBlockSig f_SigIgnoreSig f_SigCatchSig f_WChan f_NSwap f_CNSwap f_ExitSignal f_Processor f_RtPriority f_Policy f_DelayacctBlkioTicks f_GuestTime f_CGuestTime f_StartData f_EndData f_StartBrk f_ArgStart f_ArgEnd _ f_EnvEnd f_ExitCode := sf in
  mkStatField f_Pid f_Comm f_State f_PPid f_PGrp f_Session f_TTYNR f_TPGid f_TaskFlags f_MinFlt f_CMinFlt f_MajFlt f_CMajFlt f_UTime f_STime f_CUTime f_CSTime f_Priority f_Nice f_NumThreads f_ItRealValue f_StartTime f_VSize f_RSS f_RSSLim f_StartCode f_EndCode f_StartStack f_KStkEsp f_KStkEip f_TaskPendingSig f_TaskBlockSig f_SigIgnoreSig f_SigCatchSig f_WChan f_NSwap f_CNSwap f_ExitSignal f_Processor f_RtPriority f_Policy f_DelayacctBlkioTicks f_GuestTime f_CGuestTime f_StartData f_EndData f_StartBrk f_ArgStart f_ArgEnd v f_EnvEnd f_ExitCode.
Definition set_EnvEnd (v : Z) (sf : StatField) : StatField :=
  let 'mkStatField f_Pid f_Comm f_State f_PPid f_PGrp f_Session f_TTYNR f_TPGid f_TaskFlags f_MinFlt f_CMinFlt f_MajFlt f_CMajFlt f_UTime f_STime f_CUTime f_CSTime f_Priority f_Nice f_NumThreads f_ItRealValue f_StartTime f_VSize f_RSS f_RSSLim f_StartCode f_EndCode f_StartStack f_KStkEsp f_KStkEip f_TaskPendingSig f_TaskBlockSig f_SigIgnoreSig f_SigCatchSig f_WChan f_NSwap f_CNSwap f_ExitSignal f_Processor f_RtPriority f_Policy f_DelayacctBlkioTicks f_GuestTime f_CGuestTime f_StartData f_EndData f_StartBrk f_ArgStart f_ArgEnd f_EnvStart _ f_ExitCode := sf in
  mkStatField f_Pid f_Comm f_State f_PPid f_PGrp f_Session f_TTYNR f_TPGid f_TaskFlags f_MinFlt f_CMinFlt f_MajFlt f_CMajFlt f_UTime f_STime f_CUTime f_CSTime f_Priority f_Nice f_NumThreads f_ItRealValue f_StartTime f_VSize f_RSS f_RSSLim f_StartCode f_EndCode f_StartStack f_KStkEsp f_KStkEip f_TaskPendingSig f_TaskBlockSig f_SigIgnoreSig f_SigCatchSig f_WChan f_NSwap f_CNSwap f_ExitSignal f_Processor f_RtPriority f_Policy f_DelayacctBlkioTicks f_GuestTime f_CGuestTime f_StartData f_EndData f_StartBrk f_ArgStart f_ArgEnd f_EnvStart v f_ExitCode.
Definition set_ExitCode (v : Z) (sf : StatField) : StatField :=
  let 'mkStatField f_Pid f_Comm f_State f_PPid f_PGrp f_Session f_TTYNR f_TPGid f_TaskFlags f_MinFlt f_CMinFlt f_MajFlt f_CMajFlt f_UTime f_STime f_CUTime f_CSTime f_Priority f_Nice f_NumThreads f_ItRealValue f_StartTime f_VSize f_RSS f_RSSLim f_StartCode f_EndCode f_StartStack f_KStkEsp f_KStkEip f_TaskPendingSig f_TaskBlockSig f_SigIgnoreSig f_SigCatchSig f_WChan f_NSwap f_CNSwap f_ExitSignal f_Processor f_RtPriority f_Policy f_DelayacctBlkioTicks f_GuestTime f_CGuestTime f_StartData f_EndData f_StartBrk f_ArgStart f_ArgEnd f_EnvStart f_EnvEnd _ := sf in
  mkStatField f_Pid f_Comm f_State f_PPid f_PGrp f_Session f_TTYNR f_TPGid f_TaskFlags f_MinFlt f_CMinFlt f_MajFlt f_CMajFlt f_UTime f_STime f_CUTime f_CSTime f_Priority f_Nice f_NumThreads f_ItRealValue f_StartTime f_VSize f_RSS f_RSSLim f_StartCode f_EndCode f_StartStack f_KStkEsp f_KStkEip f_TaskPendingSig f_TaskBlockSig f_SigIgnoreSig f_SigCatchSig f_WChan f_NSwap f_CNSwap f_ExitSignal f_Processor f_RtPriority f_Policy f_DelayacctBlkioTicks f_GuestTime f_CGuestTime f_StartData f_EndData f_StartBrk f_ArgStart f_ArgEnd f_EnvStart f_EnvEnd v.

(** ** Conversions *)

Definition int16Cover (s : string) : Z * option error :=
  let '(i64, err) := strconv.ParseInt s 10 16 in
  match err with
  | Some e => (0, Some (NumErr e))
  | None => (int16 i64, None)
  end.

Definition uint16Cover (s : string) : Z * option error :=
  let '(ui64, err) := strconv.ParseUint s 10 16 in
  match err with
  | Some e => (0, Some (NumErr e))
  | None => (uint16 ui64, None)
  end.

Definition int32Cover (s : string) : Z * option error :=
  let '(i64, err) := strconv.ParseInt s 10 32 in
  match err with
  | Some e => (0, Some (NumErr e))
  | None => (int32 i64, None)
  end.

Definition uint32Cover (s : string) : Z * option error :=
  let '(ui64, err) := strconv.ParseUint s 10 32 in
  match err with
  | Some e => (0, Some (NumErr e))
  | None => (uint32 ui64, None)
  end.

Definition int64Cover (s : string) : Z * option error :=
  let '(i64, err) := strconv.ParseInt s 10 64 in (i64, wrapErr err).

Definition uint64Cover (s : string) : Z * option error :=
  let '(ui64, err) := strconv.ParseUint s 10 64 in (ui64, wrapErr err).

(** ** The schema table *)

(** [sf.X, err = cover(field); return]: the field receives whatever the
    conversion returned, also next to an error. *)
Definition assign (set : Z -> StatField -> StatField) (r : Z * option error)
           (sf : StatField) : outcome (StatField * option error) :=
  Return (set (fst r) sf, snd r).

(** The [switch] of entry 3. *)
Definition stateOf (c : StatTaskState) : StatTaskState :=
  if c =? Running then Running
  else if c =? Sleeping then Sleeping
  else if c =? DiskSleep then DiskSleep
  else if c =? Zombie then Zombie
  else if c =? Stopped then Stopped
  else if c =? TracingStop then TracingStop
  else if c =? PagingWaking then PagingWaking
  else if c =? Dead then Dead
  else if c =? Dead2633To313 then Dead2633To313
  else if c =? Wakekill then Wakekill
  else if c =? Parked then Parked
  else c.

(** The map literal is never updated, so a lookup [fieldParseMap[progress]]
    is a function of the key: [Some f] when the key is present. *)
Definition fieldParseMap (key : Z)
  : option (string -> StatField -> outcome (StatField * option error)) :=
  match key with
  | 1 => Some (fun field sf => assign set_Pid (int32Cover field) sf)
  | 2 => Some (fun field sf => Return (set_Comm field sf, None))
  | 3 => Some (fun field sf =>
      match list_ascii_of_string field with
      | [] => Panic                               (* data[0] of an empty slice *)
      | d0 :: _ => Return (set_State (stateOf (int8 (byteZ d0))) sf, None)
      end)
  | 4 => Some (fun field sf => assign set_PPid (int32Cover field) sf)
  | 5 => Some (fun field sf => assign set_PGrp (int32Cover field) sf)
  | 6 => Some (fun field sf => assign set_Session (int32Cover field) sf)
  | 7 => Some (fun field sf => assign set_TTYNR (int32Cover field) sf)
  | 8 => Some (fun field sf => assign set_TPGid (int32Cover field) sf)
  | 9 => Some (fun field sf => assign set_TaskFlags (uint32Cover field) sf)
  | 10 => Some (fun field sf => assign set_MinFlt (uint64Cover field) sf)
  | 11 => Some (fun field sf => assign set_CMinFlt (uint64Cover field) sf)
  | 12 => Some (fun field sf => assign set_MajFlt (uint64Cover field) sf)
  | 13 => Some (fun field sf => assign set_MajFlt (uint64Cover field) sf)
  | 14 => Some (fun field sf => assign set_UTime (uint64Cover field) sf)
  | 15 => Some (fun field sf => assign set_STime (uint64Cover field) sf)
  | 16 => Some (fun field sf => assign set_CUTime (int64Cover field) sf)
  | 17 => Some (fun field sf => assign set_CSTime (int64Cover field) sf)
  | 18 => Some (fun field sf => assign set_Priority (int64Cover field) sf)
  | 19 => Some (fun field sf => assign set_Nice (int64Cover field) sf)
  | 20 => Some (fun field sf => assign set_NumThreads (int64Cover field) sf)
  | 21 => Some (fun field sf => assign set_ItRealValue (int64Cover field) sf)
  | 22 => Some (fun field sf => assign set_StartTime (uint64Cover field) sf)
  | 23 => Some (fun field sf => assign set_VSize (uint64Cover field) sf)
  | 24 => Some (fun field sf => assign set_RSS (uint64Cover field) sf)
  | 25 => Some (fun field sf => assign set_RSSLim (uint64Cover field) sf)
  | 26 => Some (fun field sf => assign set_StartCode (uint64Cover field) sf)
  | 27 => Some (fun field sf => assign set_EndCode (uint64Cover field) sf)
  | 28 => Some (fun field sf => assign set_StartStack (uint64Cover field) sf)
  | 29 => Some (fun field sf => assign set_KStkEsp (uint64Cover field) sf)
  | 30 => Some (fun field sf => assign set_KStkEip (uint64Cover field) sf)
  | 31 => Some (fun field sf => assign set_TaskPendingSig (uint64Cover field) sf)
  | 32 => Some (fun field sf => assign set_TaskBlockSig (uint64Cover field) sf)
  | 33 => Some (fun field sf => assign set_SigIgnoreSig (uint64Cover field) sf)
  | 34 => Some (fun field sf => assign set_SigCatchSig (uint64Cover field) sf)
  | 35 => Some (fun field sf => assign set_WChan (uint64Cover field) sf)
  | 36 => Some (fun field sf => assign set_NSwap (uint64Cover field) sf)
  | 37 => Some (fun field sf => assign set_CNSwap (uint64Cover field) sf)
  | 38 => Some (fun field sf => assign set_ExitSignal (int32Cover field) sf)
  | 39 => Some (fun field sf => assign set_Processor (int32Cover field) sf)
  | 40 => Some (fun field sf => assign set_RtPriority (uint32Cover field) sf)
  | 41 => Some (fun field sf => assign set_Policy (uint32Cover field) sf)
  | 42 => Some (fun field sf => assign set_DelayacctBlkioTicks (uint64Cover field) sf)
  | 43 => Some (fun field sf => assign set_GuestTime (uint64Cover field) sf)
  | 44 => Some (fun field sf => assign set_CGuestTime (int64Cover field) sf)
  | 45 => Some (fun field sf => assign set_StartData (uint64Cover field) sf)
  | 46 => Some (fun field sf => assign set_EndData (uint64Cover field) sf)
  | 47 => Some (fun field sf => assign set_StartBrk (uint64Cover field) sf)
  | 48 => Some (fun field sf => assign set_ArgStart (uint64Cover field) sf)
  | 49 => Some (fun field sf => assign set_ArgEnd (uint64Cover field) sf)
  | 50 => Some (fun field sf => assign set_EnvStart (uint64Cover field) sf)
  | 51 => Some (fun field sf => assign set_EnvEnd (uint64Cover field) sf)
  | 52 => Some (fun field sf => assign set_ExitCode (int32Cover field) sf)
  | _ => None
  end.

Definition fill (field : string) (progress : Z) (sf : StatField)
  : outcome (StatField * option error) :=
  match fieldParseMap progress with
  | Some parseFunc =>
    '(sf', err) <- parseFunc field sf ;;
    match err with
    | Some e => Return (sf', Some e)
    | None => Return (sf', None)
    end
  | None => Return (sf, None)
  end.

(** ** The tokenizer *)

Record StatStream : Type := mkStatStream {
  data : option (list ascii);   (* *[]byte, nil until Parse sets it *)
  cur : Z;
  end_ : Z
}.

(** The read of the byte under the cursor, [data[cur]] through the pointer:
    it panics on a nil pointer and outside the slice. *)
Definition at_cur (ss : StatStream) : outcome ascii :=
  match data ss with
  | None => Panic
  | Some d =>
    if cur ss <? 0 then Panic
    else match nth_error d (Z.to_nat (cur ss)) with
         | Some c => Return c
         | None => Panic
         end
  end.

Definition isEOF (ss : StatStream) : outcome bool :=
  c <- at_cur ss ;;
  if (c =? LF)%char then Return true else Return false.

Definition isSpace (ss : StatStream) : outcome bool :=
  c <- at_cur ss ;;
  if (c =? SP)%char then Return true else Return false.

Definition advance (ss : StatStream) : StatStream :=
  mkStatStream (data ss) (cur ss + 1) (end_ ss).

(** The [for] loop of [next]; [buf] is the slice accumulated so far. *)
Fixpoint next_loop (fuel : nat) (ss : StatStream) (buf : list ascii)
  : outcome (string * option error * StatStream) :=
  match fuel with
  | O => OutOfFuel
  | S fuel' =>
    eof <- isEOF ss ;;
    if eof then
      if (Z.of_nat (List.length buf) =? 0)
      then Return ("", Some erreof, ss)
      else Return (string_of_list_ascii buf, Some erreof, ss)
    else
      sp <- isSpace ss ;;
      if sp then Return (string_of_list_ascii buf, None, advance ss)
      else
        c <- at_cur ss ;;
        next_loop fuel' (advance ss) (buf ++ [c])%list
  end.

Definition remaining (ss : StatStream) : nat :=
  match data ss with
  | None => 0
  | Some d => List.length d - Z.to_nat (cur ss)
  end.

(** Every iteration that does not return moves the cursor one byte to the
    right and the read at the cursor panics behind the last byte, so
    [remaining ss + 1] iterations are enough. *)
Definition next (ss : StatStream) : outcome (string * option error * StatStream) :=
  next_loop (S (remaining ss)) ss [].

(** ** The driver *)

Record Stat : Type := mkStat {
  pf : string;
  stream : StatStream;
  fields : StatField
}.

Definition NewStat (proc : string) : Stat :=
  mkStat proc (mkStatStream None 0 0) zeroStatField.

(** The [for] loop of [Parse].  The result carries the final state of
    [s.stream] and [s.fields] and the pair [Parse] returns; a returned
    [*StatField] is [s.fields], given by its value at the return. *)
Fixpoint Parse_loop (fuel : nat) (ss : StatStream) (sf : StatField)
         (parseProgressIndex : Z)
  : outcome (StatStream * StatField * (option StatField * option error)) :=
  match fuel with
  | O => OutOfFuel
  | S fuel' =>
    '(field, _, ss1) <- next ss ;;
    if (field =? "")%string then Return (ss1, sf, (Some sf, None))
    else
      '(sf1, err) <- fill field parseProgressIndex sf ;;
      match err with
      | Some e => Return (ss1, sf1, (None, Some e))
      | None => Parse_loop fuel' ss1 sf1 (parseProgressIndex + 1)
      end
  end.

(** [ioutil.ReadFile] is the external byte source: [ReadFile] gives, for a
    path, the bytes and the error it returns. *)
Definition Parse (ReadFile : string -> list ascii * option error) (s : Stat)
  : outcome (Stat * (option StatField * option error)) :=
  let '(bytes, err) := ReadFile (pf s) in
  match err with
  | Some e => Return (s, (None, Some e))
  | None =>
    let ss := mkStatStream (Some bytes) 0 (Z.of_nat (List.length bytes)) in
    '(ss', sf', res) <- Parse_loop (S (List.length bytes)) ss (fields s) 1 ;;
    Return (mkStat (pf s) ss' sf', res)
  end.

(** ** The earlier revision

    [stat.go] keeps an earlier revision of the tokenizer and of the
    conversions.  Its [isEOF] compares the cursor with [end]; its [next]
    returns the empty string there, also when bytes were accumulated; its
    conversions all parse with bit size 16. *)

Module draft.

Definition isEOF (ss : StatStream) : bool := cur ss =? end_ ss.

Fixpoint next_loop (fuel : nat) (ss : StatStream) (buf : list ascii)
  : outcome (string * StatStream) :=
  match fuel with
  | O => OutOfFuel
  | S fuel' =>
    if isEOF ss then Return ("", ss)
    else
      sp <- isSpace ss ;;
      if sp then Return (string_of_list_ascii buf, advance ss)
      else
        c <- at_cur ss ;;
        next_loop fuel' (advance ss) (buf ++ [c])%list
  end.

Definition next (ss : StatStream) : outcome (string * StatStream) :=
  next_loop (S (remaining ss)) ss [].

Definition int32Cover (s : string) : Z * option error :=
  let '(i64, err) := strconv.ParseInt s 10 16 in
  match err with
  | Some e => (0, Some (NumErr e))
  | None => (int32 i64, None)
  end.

(** The other conversions of that revision: each parses as a signed
    16-bit integer and converts the result. *)
Definition int16Cover (s : string) : Z * option error :=
  let '(i64, err) := strconv.ParseInt s 10 16 in
  match err with
  | Some e => (0, Some (NumErr e))
  | None => (int16 i64, None)
  end.

Definition uint16Cover (s : string) : Z * option error :=
  let '(i64, err) := strconv.ParseInt s 10 16 in
  match err with
  | Some e => (0, Some (NumErr e))
  | None => (uint16 i64, None)
  end.

Definition uint32Cover (s : string) : Z * option error :=
  let '(i64, err) := strconv.ParseInt s 10 16 in
  match err with
  | Some e => (0, Some (NumErr e))
  | None => (uint32 i64, None)
  end.

Definition uint64Cover (s : string) : Z * option error :=
  let '(i64, err) := strconv.ParseInt s 10 16 in
  match err with
  | Some e => (0, Some (NumErr e))
  | None => (uint64 i64, None)
  end.

(** The table of that revision has the entries 1 to 9.  Its struct has the
    52 fields of the final one with narrower integer types; every integer
    being a [Z] here, [StatField] stands for it. *)
Definition fieldParseMap (key : Z)
  : option (string -> StatField -> outcome (StatField * option error)) :=
  match key with
  | 1 => Some (fun field sf =>
      let '(i16, err) := int16Cover field in
      match err with
      | Some e => Return (sf, Some e)
      | None => Return (set_Pid i16 sf, None)
      end)
  | 2 => Some (fun field sf => Return (set_Comm field sf, None))
  | 3 => Some (fun field sf =>
      match list_ascii_of_string field with
      | [] => Panic
      | d0 :: _ => Return (set_State (stateOf (int8 (byteZ d0))) sf, None)
      end)
  | 4 => Some (fun field sf => assign set_PPid (int16Cover field) sf)
  | 5 => Some (fun field sf => assign set_PGrp (int16Cover field) sf)
  | 6 => Some (fun field sf => assign set_Session (int16Cover field) sf)
  | 7 => Some (fun field sf => assign set_TTYNR (int16Cover field) sf)
  | 8 => Some (fun field sf => assign set_TPGid (int16Cover field) sf)
  | 9 => Some (fun field sf => assign set_TaskFlags (int32Cover field) sf)
  | _ => None
  end.

(** What [fill] returns there: the error of the conversion, or the value
    of [errors.New("")]; never nil. *)
Inductive failure : Type :=
| Conversion (e : error)
| Blank.

Definition fill (field : string) (progress : Z) (sf : StatField)
  : outcome (StatField * failure) :=
  match fieldParseMap progress with
  | Some parseFunc =>
    '(sf', err) <- parseFunc field sf ;;
    match err with
    | Some e => Return (sf', Conversion e)
    | None => Return (sf', Blank)
    end
  | None => Return (sf, Blank)
  end.

(** The loop of [Parse] there: every token is printed with a space before
    it ([out] is what was printed so far) and the result of [fill] is
    dropped. *)
Fixpoint Parse_loop (fuel : nat) (ss : StatStream) (sf : StatField) (pos : Z)
         (out : list string)
  : outcome (StatStream * StatField * list string) :=
  match fuel with
  | O => OutOfFuel
  | S fuel' =>
    '(field, ss1) <- next ss ;;
    let out1 := (out ++ [String.append " " field])%list in
    if (field =? "")%string then Return (ss1, sf, out1)
    else
      '(sf1, _) <- fill field pos sf ;;
      Parse_loop fuel' ss1 sf1 (pos + 1) out1
  end.

Definition Parse (ReadFile : string -> list ascii * option error) (s : Stat)
  : outcome (Stat * list string * (option StatField * option error)) :=
  let '(bytes, err) := ReadFile (pf s) in
  match err with
  | Some e => Return (s, [], (None, Some e))
  | None =>
    let ss := mkStatStream (Some bytes) 0 (Z.of_nat (List.length bytes)) in
    '(ss', sf', out) <- Parse_loop (S (List.length bytes)) ss (fields s) 1 [] ;;
    Return (mkStat (pf s) ss' sf', out, (Some sf', None))
  end.

End draft.

(** ** Reference definitions used by the statements *)

(** The tokens [next] yields when it is called again and again, up to the
    first empty token: the tokenizer on its own.  The call of [fill] and
    its error exit are not part of it, so on a line with a rejected field
    it goes on where the loop of [Parse] stops; what [Parse] itself draws
    is recorded by [Parse_trace_loop]. *)
Fixpoint tokens_loop (fuel : nat) (ss : StatStream) : outcome (list string) :=
  match fuel with
  | O => OutOfFuel
  | S fuel' =>
    '(field, _, ss1) <- next ss ;;
    if (field =? "")%string then Return []
    else
      rest <- tokens_loop fuel' ss1 ;;
      Return (field :: rest)
  end.

Definition tokens (bytes : list ascii) : outcome (list string) :=
  tokens_loop (S (List.length bytes))
              (mkStatStream (Some bytes) 0 (Z.of_nat (List.length bytes))).

(** What the loop of [Parse] does with a list of tokens: [fill] at
    increasing positions, stopping at the first error. *)
Fixpoint fill_all (toks : list string) (pos : Z) (sf : StatField)
  : outcome (StatField * option error) :=
  match toks with
  | [] => Return (sf, None)
  | t :: ts =>
    '(sf1, err) <- fill t pos sf ;;
    match err with
    | Some e => Return (sf1, Some e)
    | None => fill_all ts (pos + 1) sf1
    end
  end.

(** The loop of [Parse] with a record of its calls of [next]: beside what
    [Parse_loop] returns, the non-empty tokens [next] has handed to the
    loop, in order, the one [fill] rejects included.  The control flow is
    that of [Parse_loop], the call of [fill] and its error exit included
    (lemma [Parse_trace_loop_forget]). *)
Fixpoint Parse_trace_loop (fuel : nat) (ss : StatStream) (sf : StatField)
         (parseProgressIndex : Z)
  : outcome (StatStream * StatField * (option StatField * option error) *
             list string) :=
  match fuel with
  | O => OutOfFuel
  | S fuel' =>
    '(field, _, ss1) <- next ss ;;
    if (field =? "")%string then Return (ss1, sf, (Some sf, None), [])
    else
      '(sf1, err) <- fill field parseProgressIndex sf ;;
      match err with
      | Some e => Return (ss1, sf1, (None, Some e), [field])
      | None =>
        '(ss', sf', res, drawn) <-
          Parse_trace_loop fuel' ss1 sf1 (parseProgressIndex + 1) ;;
        Return (ss', sf', res, field :: drawn)
      end
  end.

Definition Parse_trace (ReadFile : string -> list ascii * option error) (s : Stat)
  : outcome (Stat * (option StatField * option error) * list string) :=
  let '(bytes, err) := ReadFile (pf s) in
  match err with
  | Some e => Return (s, (None, Some e), [])
  | None =>
    let ss := mkStatStream (Some bytes) 0 (Z.of_nat (List.length bytes)) in
    '(ss', sf', res, drawn) <-
      Parse_trace_loop (S (List.length bytes)) ss (fields s) 1 ;;
    Return (mkStat (pf s) ss' sf', res, drawn)
  end.

(** One token read from the unread suffix [rest] of the buffer: the token,
    the error value and the number of bytes the cursor moves. *)
Fixpoint scan (rest buf : list ascii) : outcome (string * option error * nat) :=
  match rest with
  | [] => Panic
  | b :: rest' =>
    if (b =? LF)%char then Return (string_of_list_ascii buf, Some erreof, O)
    else if (b =? SP)%char then Return (string_of_list_ascii buf, None, 1%nat)
    else
      '(t, e, n) <- scan rest' (buf ++ [b])%list ;;
      Return (t, e, S n)
  end.

Definition st (d : list ascii) (k : nat) (e : Z) : StatStream :=
  mkStatStream (Some d) (Z.of_nat k) e.

(** A byte that belongs to a token. *)
Definition tokbyte (c : ascii) : bool := negb (c =? LF)%char && negb (c =? SP)%char.

(** The reference split: the bytes before the first newline, cut at every
    space, and the whitespace-delimited segments, which are the non-empty
    pieces. *)
Fixpoint line (bytes : list ascii) : list ascii :=
  match bytes with
  | [] => []
  | c :: rest => if (c =? LF)%char then [] else c :: line rest
  end.

Fixpoint split_sp (l acc : list ascii) : list (list ascii) :=
  match l with
  | [] => [acc]
  | c :: rest =>
    if (c =? SP)%char then acc :: split_sp rest []
    else split_sp rest (acc ++ [c])%list
  end.

Definition nonempty (w : list ascii) : bool :=
  match w with
  | [] => false
  | _ :: _ => true
  end.

Definition segments (bytes : list ascii) : list string :=
  map string_of_list_ascii (filter nonempty (split_sp (line bytes) [])).

(** The pieces up to the first empty one. *)
Fixpoint leading (ws : list (list ascii)) : list (list ascii) :=
  match ws with
  | [] => []
  | w :: rest => if nonempty w then w :: leading rest else []
  end.

(** No token after the first empty piece: the line is a run of tokens with
    one space between neighbours, followed by spaces only. *)
Definition single_spaced (bytes : list ascii) : bool :=
  let ws := split_sp (line bytes) [] in
  forallb (fun w => negb (nonempty w)) (skipn (List.length (leading ws)) ws).

Definition has_newline (bytes : list ascii) : bool :=
  existsb (fun c => (c =? LF)%char) bytes.

Definition no_newline (l : list ascii) : bool :=
  forallb (fun c => negb (c =? LF)%char) l.

(** ** Reference reading of a numeric token *)

Definition is_digit (c : ascii) : bool := (48 <=? byteZ c) && (byteZ c <=? 57).

(** The number a run of decimal digits denotes, continuing from [n]. *)
Fixpoint decimal_value (ds : list ascii) (n : Z) : Z :=
  match ds with
  | [] => n
  | c :: rest => decimal_value rest (10 * n + (byteZ c - 48))
  end.

(** One leading sign taken off, as [ParseInt] reads it. *)
Definition strip_sign (tok : string) : bool * string :=
  match tok with
  | EmptyString => (false, tok)
  | String c rest =>
    if (c =? "+")%char then (false, rest)
    else if (c =? "-")%char then (true, rest)
    else (false, tok)
  end.

(** The digits of a token at a position of the given signedness and
    whether a minus sign precedes them. *)
Definition numeral (signed : bool) (tok : string) : bool * list ascii :=
  if signed
  then (fst (strip_sign tok), list_ascii_of_string (snd (strip_sign tok)))
  else (false, list_ascii_of_string tok).

Definition fits (signed : bool) (w : Z) (v : Z) : bool :=
  if signed then (- 2 ^ (w - 1) <=? v) && (v <=? 2 ^ (w - 1) - 1)
  else (0 <=? v) && (v <=? 2 ^ w - 1).

(** The integer type the struct declares for the field of each position:
    signedness and width.  Positions 2 and 3 hold the name and the state. *)
Definition declared (pos : Z) : option (bool * Z) :=
  match pos with
  | 1 => Some (true, 32)   (* Pid int32 *)
  | 4 => Some (true, 32)   (* PPid int32 *)
  | 5 => Some (true, 32)   (* PGrp int32 *)
  | 6 => Some (true, 32)   (* Session int32 *)
  | 7 => Some (true, 32)   (* TTYNR int32 *)
  | 8 => Some (true, 32)   (* TPGid int32 *)
  | 9 => Some (false, 32)  (* TaskFlags uint32 *)
  | 10 => Some (false, 64) (* MinFlt uint64 *)
  | 11 => Some (false, 64) (* CMinFlt uint64 *)
  | 12 => Some (false, 64) (* MajFlt uint64 *)
  | 13 => Some (false, 64) (* CMajFlt uint64 *)
  | 14 => Some (false, 64) (* UTime uint64 *)
  | 15 => Some (false, 64) (* STime uint64 *)
  | 16 => Some (true, 64)  (* CUTime int64 *)
  | 17 => Some (true, 64)  (* CSTime int64 *)
  | 18 => Some (true, 64)  (* Priority int64 *)
  | 19 => Some (true, 64)  (* Nice int64 *)
  | 20 => Some (true, 64)  (* NumThreads int64 *)
  | 21 => Some (true, 64)  (* ItRealValue int64 *)
  | 22 => Some (false, 64) (* StartTime uint64 *)
  | 23 => Some (false, 64) (* VSize uint64 *)
  | 24 => Some (false, 64) (* RSS uint64 *)
  | 25 => Some (false, 64) (* RSSLim uint64 *)
  | 26 => Some (false, 64) (* StartCode uint64 *)
  | 27 => Some (false, 64) (* EndCode uint64 *)
  | 28 => Some (false, 64) (* StartStack uint64 *)
  | 29 => Some (false, 64) (* KStkEsp uint64 *)
  | 30 => Some (false, 64) (* KStkEip uint64 *)
  | 31 => Some (false, 64) (* TaskPendingSig uint64 *)
  | 32 => Some (false, 64) (* TaskBlockSig uint64 *)
  | 33 => Some (false, 64) (* SigIgnoreSig uint64 *)
  | 34 => Some (false, 64) (* SigCatchSig uint64 *)
  | 35 => Some (false, 64) (* WChan uint64 *)
  | 36 => Some (false, 64) (* NSwap uint64 *)
  | 37 => Some (false, 64) (* CNSwap uint64 *)
  | 38 => Some (true, 32)  (* ExitSignal int32 *)
  | 39 => Some (true, 32)  (* Processor int32 *)
  | 40 => Some (false, 32) (* RtPriority uint32 *)
  | 41 => Some (false, 32) (* Policy uint32 *)
  | 42 => Some (false, 64) (* DelayacctBlkioTicks uint64 *)
  | 43 => Some (false, 64) (* GuestTime uint64 *)
  | 44 => Some (true, 64)  (* CGuestTime int64 *)
  | 45 => Some (false, 64) (* StartData uint64 *)
  | 46 => Some (false, 64) (* EndData uint64 *)
  | 47 => Some (false, 64) (* StartBrk uint64 *)
  | 48 => Some (false, 64) (* ArgStart uint64 *)
  | 49 => Some (false, 64) (* ArgEnd uint64 *)
  | 50 => Some (false, 64) (* EnvStart uint64 *)
  | 51 => Some (false, 64) (* EnvEnd uint64 *)
  | 52 => Some (true, 32)  (* ExitCode int32 *)
  | _ => None
  end.

(** The conversion the table uses for a declared type. *)
Definition coverOf (signed : bool) (w : Z) : string -> Z * option error :=
  if signed then (if w =? 32 then int32Cover else int64Cover)
  else (if w =? 32 then uint32Cover else uint64Cover).

Definition fnOf (signed : bool) : string :=
  if signed then strconv.fnParseInt else strconv.fnParseUint.

Definition numeral_value (signed : bool) (tok : string) : Z :=
  let v := decimal_value (snd (numeral signed tok)) 0 in
  if fst (numeral signed tok) then - v else v.

Definition has_nondigit (l : list ascii) : bool :=
  existsb (fun c => negb (is_digit c)) l.

(** The cutoff of [ParseUint] for base 10 and the bit sizes of the
    conversions. *)
Definition cutoff10 : Z := strconv.maxUint64 / 10 + 1.

Definition widths : list Z := [16; 32; 64].

(** The fields the first nine positions write. *)
Definition head9 (sf : StatField) : Z * string * StatTaskState * Z * Z * Z * Z * Z * Z :=
  (Pid sf, Comm sf, State sf, PPid sf, PGrp sf, Session sf, TTYNR sf, TPGid sf,
   TaskFlags sf).

(** The record [fill] leaves behind and the error it returns, taken apart:
    [fill field pos sf] returns [(wr pos field sf, er pos field)] whenever
    it returns (lemma [fill_wr]). *)
Definition wr (pos : Z) (field : string) (sf : StatField) : StatField :=
  match fieldParseMap pos with
  | Some parseFunc =>
    match parseFunc field sf with
    | Return (sf', _) => sf'
    | _ => sf
    end
  | None => sf
  end.

Definition er (pos : Z) (field : string) : option error :=
  match fieldParseMap pos with
  | Some parseFunc =>
    match parseFunc field zeroStatField with
    | Return (_, e) => e
    | _ => None
    end
  | None => None
  end.

(** The struct field a position writes: entry 13 assigns [sf.MajFlt], the
    field of entry 12; every other entry assigns the field of its number. *)
Definition slotOf (pos : Z) : Z := if pos =? 13 then 12 else pos.

Definition positions : list Z :=
  [1; 2; 3; 4; 5; 6; 7; 8; 9; 10; 11; 12; 13; 14; 15; 16; 17; 18; 19; 20;
   21; 22; 23; 24; 25; 26; 27; 28; 29; 30; 31; 32; 33; 34; 35; 36; 37; 38;
   39; 40; 41; 42; 43; 44; 45; 46; 47; 48; 49; 50; 51; 52].

(** The writes of a run of the loop, applied in order. *)
Definition apply_writes (ws : list (Z * string)) (sf : StatField) : StatField :=
  fold_left (fun s w => wr (fst w) (snd w) s) ws sf.

(** The states the loop of [Parse] passes through on the buffer [d], from
    the record [sf0]: the stream, the record and the position at the head
    of an iteration. *)
Inductive reach (d : list ascii) (sf0 : StatField)
  : StatStream -> StatField -> Z -> Prop :=
| reach_start :
    reach d sf0 (mkStatStream (Some d) 0 (Z.of_nat (List.length d))) sf0 1
| reach_next ss sf pos field e ss1 sf1 :
    reach d sf0 ss sf pos ->
    next ss = Return (field, e, ss1) ->
    field <> "" ->
    fill field pos sf = Return (sf1, None) ->
    reach d sf0 ss1 sf1 (pos + 1).

(** ** Views of the record *)

(** The value of a struct field: a number or, for the name, a text. *)
Inductive fieldval : Type :=
| IntVal (z : Z)
| TextVal (s : string).

(** The struct field with the number [k] of the declaration. *)
Definition fieldAt (k : Z) (sf : StatField) : option fieldval :=
  match k with
  | 1 => Some (IntVal (Pid sf))
  | 2 => Some (TextVal (Comm sf))
  | 3 => Some (IntVal (State sf))
  | 4 => Some (IntVal (PPid sf))
  | 5 => Some (IntVal (PGrp sf))
  | 6 => Some (IntVal (Session sf))
  | 7 => Some (IntVal (TTYNR sf))
  | 8 => Some (IntVal (TPGid sf))
  | 9 => Some (IntVal (TaskFlags sf))
  | 10 => Some (IntVal (MinFlt sf))
  | 11 => Some (IntVal (CMinFlt sf))
  | 12 => Some (IntVal (MajFlt sf))
  | 13 => Some (IntVal (CMajFlt sf))
  | 14 => Some (IntVal (UTime sf))
  | 15 => Some (IntVal (STime sf))
  | 16 => Some (IntVal (CUTime sf))
  | 17 => Some (IntVal (CSTime sf))
  | 18 => Some (IntVal (Priority sf))
  | 19 => Some (IntVal (Nice sf))
  | 20 => Some (IntVal (NumThreads sf))
  | 21 => Some (IntVal (ItRealValue sf))
  | 22 => Some (IntVal (StartTime sf))
  | 23 => Some (IntVal (VSize sf))
  | 24 => Some (IntVal (RSS sf))
  | 25 => Some (IntVal (RSSLim sf))
  | 26 => Some (IntVal (StartCode sf))
  | 27 => Some (IntVal (EndCode sf))
  | 28 => Some (IntVal (StartStack sf))
  | 29 => Some (IntVal (KStkEsp sf))
  | 30 => Some (IntVal (KStkEip sf))
  | 31 => Some (IntVal (TaskPendingSig sf))
  | 32 => Some (IntVal (TaskBlockSig sf))
  | 33 => Some (IntVal (SigIgnoreSig sf))
  | 34 => Some (IntVal (SigCatchSig sf))
  | 35 => Some (IntVal (WChan sf))
  | 36 => Some (IntVal (NSwap sf))
  | 37 => Some (IntVal (CNSwap sf))
  | 38 => Some (IntVal (ExitSignal sf))
  | 39 => Some (IntVal (Processor sf))
  | 40 => Some (IntVal (RtPriority sf))
  | 41 => Some (IntVal (Policy sf))
  | 42 => Some (IntVal (DelayacctBlkioTicks sf))
  | 43 => Some (IntVal (GuestTime sf))
  | 44 => Some (IntVal (CGuestTime sf))
  | 45 => Some (IntVal (StartData sf))
  | 46 => Some (IntVal (EndData sf))
  | 47 => Some (IntVal (StartBrk sf))
  | 48 => Some (IntVal (ArgStart sf))
  | 49 => Some (IntVal (ArgEnd sf))
  | 50 => Some (IntVal (EnvStart sf))
  | 51 => Some (IntVal (EnvEnd sf))
  | 52 => Some (IntVal (ExitCode sf))
  | _ => None
  end.

(** The tokens of the first line up to the first empty piece. *)
Definition line_tokens (bytes : list ascii) : list string :=
  map string_of_list_ascii (leading (split_sp (line bytes) [])).

(** Whether a value is one of the declared type of struct field [k]: the
    integer type of [declared], [int8] for the state, a text for the name. *)
Definition in_type (k : Z) (v : fieldval) : bool :=
  match v with
  | IntVal z =>
    match declared k with
    | Some (signed, w) => fits signed w z
    | None => (k =? 3) && fits true 8 z
    end
  | TextVal _ => k =? 2
  end.

Definition well_typed (sf : StatField) : bool :=
  forallb (fun k => match fieldAt k sf with
                    | Some v => in_type k v
                    | None => false
                    end) positions.

(** The bound of the type nearest to an out-of-range value. *)
Definition clamp (signed : bool) (w : Z) (neg : bool) : Z :=
  if signed then (if neg then - 2 ^ (w - 1) else 2 ^ (w - 1) - 1)
  else 2 ^ w - 1.

(** ** Views of the earlier revision *)

(** One token read by the earlier revision from the unread suffix: the
    token and the number of bytes the cursor moves. *)
Fixpoint draft_scan (rest buf : list ascii) : string * nat :=
  match rest with
  | [] => ("", O)
  | b :: rest' =>
    if (b =? SP)%char then (string_of_list_ascii buf, 1%nat)
    else
      let '(t, n) := draft_scan rest' (buf ++ [b])%list in
      (t, S n)
  end.

Definition no_space (l : list ascii) : bool :=
  forallb (fun c => negb (c =? SP)%char) l.

(** The tokens the earlier revision decodes: the pieces between spaces up
    to the first empty one, the piece after the last space left out. *)
Definition draft_tokens (bytes : list ascii) : list string :=
  map string_of_list_ascii (leading (removelast (split_sp bytes []))).

(** The record the earlier revision builds from tokens decoded from
    position [pos] on. *)
Definition draft_wr (pos : Z) (field : string) (sf : StatField) : StatField :=
  match draft.fill field pos sf with
  | Return (sf', _) => sf'
  | _ => sf
  end.

Fixpoint draft_fill_all (toks : list string) (pos : Z) (sf : StatField) : StatField :=
  match toks with
  | [] => sf
  | t :: ts => draft_fill_all ts (pos + 1) (draft_wr pos t sf)
  end.

(** ** Sample records *)

(** A byte source that holds the same bytes under every path. *)
Definition file (bytes : list ascii) : string -> list ascii * option error :=
  fun _ => (bytes, None).

Definition init_line : list ascii :=
  (list_ascii_of_string
     "1 (init) S 0 1 1 0 -1 4210944 10 0 0 0 4 9 27 31 20 0 1 0 3 4620288 212 18446744073709551615 1 1 0 0 0 0 0 4096 536962595 0 0 0 17 0 0 0 0 0 0 0 0 0 0 0 0 0 0"
     ++ [LF])%list.

Definition bash_line : list ascii :=
  (list_ascii_of_string
     "2051 (bash) S 2040 2051 2051 34816 2077 4194304 1523 9420 5 7 3 1 12 8 20 0 1 0 7315 23470080 1322 18446744073709551615 4194304 5192876 140726174586496 0 0 0 65536 3670020 1266777851 1 0 0 17 2 0 0 0 0 0 7290352 7326856 30253056 140726174589045 140726174589050 140726174589050 140726174592494 0"
     ++ [LF])%list.

(** The first thirteen fields of [init_line], each with its space. *)
Definition init_prefix : list ascii :=
  list_ascii_of_string "1 (init) S 0 1 1 0 -1 4210944 10 0 0 0 ".


(** What follows [init_prefix] in [init_line]. *)
Definition init_rest : list ascii :=
  (list_ascii_of_string
     "4 9 27 31 20 0 1 0 3 4620288 212 18446744073709551615 1 1 0 0 0 0 0 4096 536962595 0 0 0 17 0 0 0 0 0 0 0 0 0 0 0 0 0 0"
     ++ [LF])%list.

(** A record whose fourth field is not a number. *)
Definition bad_ppid_line : list ascii :=
  (list_ascii_of_string "7 (sh) R x 7 7 0 -1 4194304" ++ [LF])%list.

(** The record of [init_line] with a second space after the state. *)
Definition doubled_space_line : list ascii :=
  (list_ascii_of_string
     "1 (init) S  0 1 1 0 -1 4210944 10 0 0 0 4 9 27 31 20 0 1 0 3 4620288 212 18446744073709551615 1 1 0 0 0 0 0 4096 536962595 0 0 0 17 0 0 0 0 0 0 0 0 0 0 0 0 0 0"
     ++ [LF])%list.

(** Two fields, two spaces, two more fields; no newline. *)
Definition gap_line : list ascii := list_ascii_of_string "5 (x)  R 77".

(** Four fields and the newline. *)
Definition short_line : list ascii :=
  (list_ascii_of_string "5 (x) R 77" ++ [LF])%list.

(** A record that ends with its last digit: no newline, no space. *)
Definition unterminated_line : list ascii :=
  list_ascii_of_string "1 (init) S 0 1 1 0 -1 4210944".

Definition init_stat : Stat :=
  Eval vm_compute in
    match Parse (file init_line) (NewStat "/proc/1/stat") with
    | Return (s1, _) => s1
    | _ => NewStat ""
    end.

Definition bash_stat : Stat :=
  Eval vm_compute in
    match Parse (file bash_line) (NewStat "/proc/2051/stat") with
    | Return (s1, _) => s1
    | _ => NewStat ""
    end.

(** [init_line] with two more tokens and bytes behind the newline. *)
Definition init_line_extra : list ascii :=
  (list_ascii_of_string
     "1 (init) S 0 1 1 0 -1 4210944 10 0 0 0 4 9 27 31 20 0 1 0 3 4620288 212 18446744073709551615 1 1 0 0 0 0 0 4096 536962595 0 0 0 17 0 0 0 0 0 0 0 0 0 0 0 0 0 0 x 99"
     ++ LF :: list_ascii_of_string "2 (kthreadd) S 0")%list.

(** A record without a trailing space, as the kernel writes it. *)
Definition nine_fields : list ascii :=
  (list_ascii_of_string "2051 (bash) S 2040 2051 2051 34816 2077 4194304" ++ [LF])%list.

(** ** Tactics *)

(** Case analysis over the members of [positions] and of [widths]. *)
Ltac each_position H :=
  unfold positions in H; simpl in H;
  repeat (destruct H as [H|H]; [subst|]); [..|contradiction].

Ltac each_width H :=
  unfold widths in H; simpl in H;
  repeat (destruct H as [H|H]; [subst|]); [..|contradiction].

(** * Properties *)

(** ** The tokenizer *)

Lemma skipn_nth_error_Some {A} (d : list A) k c :
  nth_error d k = Some c -> skipn k d = c :: skipn (S k) d.
Proof.
  revert k; induction d as [|x d IH]; intros [|k] H; simpl in *; try discriminate.
  - now inversion H.
  - now apply IH.
Qed.

Lemma skipn_nth_error_None {A} (d : list A) k :
  nth_error d k = None -> skipn k d = [].
Proof.
  intros H. apply skipn_all2. now apply nth_error_None.
Qed.

Lemma at_cur_st d k e :
  at_cur (st d k e) =
  match skipn k d with
  | [] => Panic
  | c :: _ => Return c
  end.
Proof.
  unfold at_cur, st; simpl.
  destruct (Z.ltb_spec (Z.of_nat k) 0); [lia|].
  rewrite Nat2Z.id.
  destruct (nth_error d k) eqn:E.
  - now rewrite (skipn_nth_error_Some _ _ _ E).
  - now rewrite (skipn_nth_error_None _ _ E).
Qed.

Lemma advance_st d k e : advance (st d k e) = st d (S k) e.
Proof. unfold advance, st; simpl. f_equal. lia. Qed.

Lemma next_loop_scan fuel : forall d k e buf,
  (List.length d - k < fuel)%nat ->
  next_loop fuel (st d k e) buf =
  '(t, er, n) <- scan (skipn k d) buf ;; Return (t, er, st d (k + n) e).
Proof.
  induction fuel as [|fuel IH]; intros d k e buf Hf; [lia|].
  simpl next_loop. unfold isEOF, isSpace. rewrite at_cur_st.
  destruct (skipn k d) as [|c rest] eqn:E; [reflexivity|].
  assert (Hk : (k < List.length d)%nat).
  { destruct (Nat.lt_ge_cases k (List.length d)) as [?|Hge]; [assumption|].
    rewrite (skipn_all2 _ Hge) in E. discriminate. }
  assert (E' : skipn (S k) d = rest).
  { change (S k) with (1 + k)%nat. rewrite <- skipn_skipn, E. reflexivity. }
  simpl.
  destruct (c =? LF)%char eqn:Elf.
  - simpl. rewrite Nat.add_0_r.
    destruct buf; reflexivity.
  - simpl. destruct (c =? SP)%char eqn:Esp.
    + simpl. rewrite advance_st. now rewrite Nat.add_1_r.
    + simpl. rewrite advance_st, IH by lia. rewrite E'.
      destruct (scan rest (buf ++ [c])) as [[[t er] n]| |]; simpl; try reflexivity.
      now rewrite Nat.add_succ_r.
Qed.

Lemma remaining_st d k e : remaining (st d k e) = (List.length d - k)%nat.
Proof. unfold remaining, st; simpl. now rewrite Nat2Z.id. Qed.

Lemma next_scan d k e :
  next (st d k e) =
  '(t, er, n) <- scan (skipn k d) [] ;; Return (t, er, st d (k + n) e).
Proof.
  unfold next. rewrite remaining_st. apply next_loop_scan. lia.
Qed.

Lemma scan_space w : forall buf r,
  forallb tokbyte w = true ->
  scan (w ++ SP :: r) buf =
  Return (string_of_list_ascii (buf ++ w), None, S (List.length w)).
Proof.
  induction w as [|c w IH]; intros buf r Hw; simpl.
  - now rewrite app_nil_r.
  - simpl in Hw. apply andb_true_iff in Hw as [Hc Hw].
    unfold tokbyte in Hc. apply andb_true_iff in Hc as [H1 H2].
    apply negb_true_iff in H1, H2. rewrite H1, H2.
    rewrite IH by assumption. simpl. now rewrite <- app_assoc.
Qed.

Lemma scan_newline w : forall buf r,
  forallb tokbyte w = true ->
  scan (w ++ LF :: r) buf =
  Return (string_of_list_ascii (buf ++ w), Some erreof, List.length w).
Proof.
  induction w as [|c w IH]; intros buf r Hw; simpl.
  - now rewrite app_nil_r.
  - simpl in Hw. apply andb_true_iff in Hw as [Hc Hw].
    unfold tokbyte in Hc. apply andb_true_iff in Hc as [H1 H2].
    apply negb_true_iff in H1, H2. rewrite H1, H2.
    rewrite IH by assumption. simpl. now rewrite <- app_assoc.
Qed.

Lemma scan_unterminated w : forall buf,
  forallb tokbyte w = true -> scan w buf = Panic.
Proof.
  induction w as [|c w IH]; intros buf Hw; simpl; [reflexivity|].
  simpl in Hw. apply andb_true_iff in Hw as [Hc Hw].
  unfold tokbyte in Hc. apply andb_true_iff in Hc as [H1 H2].
  apply negb_true_iff in H1, H2. rewrite H1, H2.
  now rewrite IH.
Qed.

(** The shape of every successful read: a run [w] of token bytes followed
    by the newline (not consumed) or by the space (consumed). *)
Lemma scan_inv rest : forall buf t er n,
  scan rest buf = Return (t, er, n) ->
  exists w r,
    forallb tokbyte w = true /\
    t = string_of_list_ascii (buf ++ w) /\
    ((er = Some erreof /\ n = List.length w /\ rest = (w ++ LF :: r)%list) \/
     (er = None /\ n = S (List.length w) /\ rest = (w ++ SP :: r)%list)).
Proof.
  induction rest as [|c rest IH]; intros buf t er n H; simpl in H; [discriminate|].
  destruct (c =? LF)%char eqn:Elf.
  - inversion H; subst. apply Ascii.eqb_eq in Elf; subst c.
    exists [], rest. rewrite app_nil_r. auto 10.
  - destruct (c =? SP)%char eqn:Esp.
    + inversion H; subst. apply Ascii.eqb_eq in Esp; subst c.
      exists [], rest. rewrite app_nil_r. auto 10.
    + destruct (scan rest (buf ++ [c])) as [[[t' er'] n']| |] eqn:E; simpl in H;
        try discriminate.
      inversion H; subst. destruct (IH _ _ _ _ E) as (w & r & Hw & Ht & Hc).
      exists (c :: w), r. simpl. unfold tokbyte at 1. rewrite Elf, Esp. simpl.
      rewrite <- app_assoc in Ht. simpl in Ht.
      repeat split; try assumption.
      destruct Hc as [(? & ? & ?)|(? & ? & ?)]; subst; [left|right]; auto.
Qed.

Lemma scan_fuel rest : forall buf, scan rest buf <> OutOfFuel.
Proof.
  induction rest as [|c rest IH]; intros buf; simpl; [discriminate|].
  destruct (c =? LF)%char; [discriminate|].
  destruct (c =? SP)%char; [discriminate|].
  specialize (IH (buf ++ [c])%list).
  destruct (scan rest (buf ++ [c])) as [[[t er] n]| |]; simpl; congruence.
Qed.

Lemma string_of_list_ascii_empty l : string_of_list_ascii l = "" -> l = [].
Proof. destruct l; simpl; [reflexivity|discriminate]. Qed.

Lemma scan_bound rest t er n :
  scan rest [] = Return (t, er, n) ->
  (n <= List.length rest)%nat /\ (t <> "" -> (1 <= n)%nat).
Proof.
  intros H. destruct (scan_inv _ _ _ _ _ H) as (w & r & _ & Ht & Hc).
  simpl in Ht.
  assert (Hn : t <> "" -> (1 <= List.length w)%nat).
  { intros Hne. destruct w; [now subst t|simpl; lia]. }
  destruct Hc as [(_ & -> & ->)|(_ & -> & ->)]; rewrite length_app; simpl;
    (split; [lia | intros Hne; specialize (Hn Hne); lia]).
Qed.

(** [next] returns or panics: the loop bound of the model is never reached. *)
Lemma next_total d k e : next (st d k e) <> OutOfFuel.
Proof.
  rewrite next_scan. pose proof (scan_fuel (skipn k d) []) as H.
  destruct (scan (skipn k d) []) as [[[t er] n]| |]; simpl; congruence.
Qed.

Lemma stream_st ss :
  (exists d k, ss = st d k (end_ ss)) \/ at_cur ss = Panic.
Proof.
  destruct ss as [[d|] c e]; [|right; reflexivity].
  destruct (Z.ltb_spec c 0) as [Hc|Hc].
  - right. unfold at_cur; simpl. destruct (Z.ltb_spec c 0); [reflexivity|lia].
  - left. exists d, (Z.to_nat c). unfold st; simpl. f_equal. lia.
Qed.

Theorem next_never_out_of_fuel ss : next ss <> OutOfFuel.
Proof.
  destruct (stream_st ss) as [(d & k & ->)|H]; [apply next_total|].
  unfold next. simpl. unfold isEOF. rewrite H. discriminate.
Qed.

(** The earlier revision stops at the buffer length without a read. *)
Lemma draft_next_at_end d :
  draft.next (st d (List.length d) (Z.of_nat (List.length d))) =
  Return ("", st d (List.length d) (Z.of_nat (List.length d))).
Proof.
  unfold draft.next. simpl. unfold draft.isEOF, st. simpl.
  now rewrite Z.eqb_refl.
Qed.

(** ** The driver loop *)

(** One iteration of the loop of [Parse], over the unread suffix. *)
Lemma Parse_loop_step fuel d k e sf pos :
  Parse_loop (S fuel) (st d k e) sf pos =
  '(t, er, n) <- scan (skipn k d) [] ;;
  if (t =? "")%string then Return (st d (k + n) e, sf, (Some sf, None))
  else
    '(sf1, err) <- fill t pos sf ;;
    match err with
    | Some x => Return (st d (k + n) e, sf1, (None, Some x))
    | None => Parse_loop fuel (st d (k + n) e) sf1 (pos + 1)
    end.
Proof.
  simpl Parse_loop. rewrite next_scan.
  destruct (scan (skipn k d) []) as [[[t er] n]| |]; reflexivity.
Qed.

Lemma fill_fuel field pos sf : fill field pos sf <> OutOfFuel.
Proof.
  unfold fill. destruct (fieldParseMap pos) as [f|] eqn:E; [|discriminate].
  assert (Hf : f field sf <> OutOfFuel).
  { unfold fieldParseMap in E.
    repeat match type of E with
           | match ?p with _ => _ end = _ => destruct p; try discriminate
           end;
    inversion E; subst; unfold assign; try discriminate;
    destruct (list_ascii_of_string field); discriminate. }
  destruct (f field sf) as [[sf' [x|]]| |]; simpl; congruence.
Qed.

(** ** The schema table *)

Lemma fieldParseMap_outside pos :
  ~ (1 <= pos <= 52) -> fieldParseMap pos = None.
Proof.
  intros H. unfold fieldParseMap.
  repeat match goal with
         | |- match ?p with _ => _ end = _ => destruct p; try reflexivity; try lia
         end.
Qed.

Lemma positions_spec pos : 1 <= pos <= 52 -> In pos positions.
Proof.
  intros H.
  assert (E : pos = Z.of_nat (Z.to_nat pos)) by lia.
  assert (B : (Z.to_nat pos <= 52)%nat) by lia.
  assert (L : (1 <= Z.to_nat pos)%nat) by lia.
  rewrite E. clear E H. revert L B. generalize (Z.to_nat pos) as n.
  intros n L B.
  do 53 (destruct n as [|n]; [try lia; simpl; tauto|]). lia.
Qed.

Lemma fill_wr field pos sf :
  field <> "" -> fill field pos sf = Return (wr pos field sf, er pos field).
Proof.
  intros Hne.
  destruct (Z_le_dec 1 pos) as [H1|H1]; [destruct (Z_le_dec pos 52) as [H2|H2]|];
    try (unfold fill, wr, er; rewrite fieldParseMap_outside by lia; reflexivity).
  pose proof (positions_spec pos (conj H1 H2)) as Hin.
  destruct field as [|c field]; [congruence|].
  each_position Hin;
    cbv [fill wr er fieldParseMap assign bind list_ascii_of_string];
    match goal with
    | |- context [snd ?r] => destruct (snd r); reflexivity
    | _ => reflexivity
    end.
Qed.

Lemma wr_outside pos field sf : ~ (1 <= pos <= 52) -> wr pos field sf = sf.
Proof. intros H. unfold wr. now rewrite fieldParseMap_outside. Qed.

Lemma position_dec pos : {1 <= pos <= 52} + {~ (1 <= pos <= 52)}.
Proof.
  destruct (Z_le_dec 1 pos); [destruct (Z_le_dec pos 52)|]; (left; lia) || (right; lia).
Qed.

(** Two writes to different struct fields commute. *)
Lemma wr_comm p q t u sf :
  slotOf p <> slotOf q -> wr p t (wr q u sf) = wr q u (wr p t sf).
Proof.
  intros Hs.
  destruct (position_dec p) as [Hp|Hp]; [|now rewrite !(wr_outside p) by assumption].
  destruct (position_dec q) as [Hq|Hq]; [|now rewrite !(wr_outside q) by assumption].
  apply positions_spec in Hp, Hq.
  destruct sf; each_position Hp; each_position Hq;
    first [ reflexivity
          | exfalso; apply Hs; reflexivity
          | destruct t, u; reflexivity ].
Qed.

(** A write overwrites an earlier write to the same struct field. *)
Lemma wr_absorb p q t u sf :
  t <> "" -> slotOf p = slotOf q -> wr p t (wr q u sf) = wr p t sf.
Proof.
  intros Ht Hs.
  destruct (position_dec p) as [Hp|Hp].
  - destruct (position_dec q) as [Hq|Hq].
    + apply positions_spec in Hp, Hq.
      destruct sf; each_position Hp; each_position Hq;
        first [ discriminate Hs
              | reflexivity
              | destruct t, u; solve [reflexivity | congruence] ].
    + now rewrite (wr_outside q) by assumption.
  - assert (Hq : ~ (1 <= q <= 52)) by (unfold slotOf in Hs;
      destruct (p =? 13) eqn:?, (q =? 13) eqn:?; lia).
    now rewrite !wr_outside by assumption.
Qed.

Lemma apply_writes_cons w ws sf :
  apply_writes (w :: ws) sf = apply_writes ws (wr (fst w) (snd w) sf).
Proof. reflexivity. Qed.

Lemma apply_writes_app ws1 ws2 sf :
  apply_writes (ws1 ++ ws2) sf = apply_writes ws2 (apply_writes ws1 sf).
Proof. unfold apply_writes. apply fold_left_app. Qed.

(** A write that is repeated later in the run changes nothing. *)
Lemma apply_writes_absorb ws : forall p t sf,
  Forall (fun w => snd w <> "") ws ->
  In (p, t) ws ->
  apply_writes ws (wr p t sf) = apply_writes ws sf.
Proof.
  induction ws as [|[q u] ws IH]; intros p t sf Hne Hin; [contradiction|].
  rewrite !apply_writes_cons. simpl fst; simpl snd.
  inversion Hne as [|? ? Hu Hne']; subst. simpl in Hu.
  destruct (Z.eq_dec (slotOf q) (slotOf p)) as [E|E].
  - now rewrite wr_absorb.
  - rewrite wr_comm by assumption. apply IH; [assumption|].
    destruct Hin as [Hin|Hin]; [|assumption].
    inversion Hin; subst. congruence.
Qed.

(** Running the same writes over their own result changes nothing. *)
Lemma apply_writes_idem ws sf :
  Forall (fun w => snd w <> "") ws ->
  apply_writes ws (apply_writes ws sf) = apply_writes ws sf.
Proof.
  intros Hne.
  enough (G : forall pre, incl pre ws ->
                          apply_writes ws (apply_writes pre sf) = apply_writes ws sf)
    by (apply G, incl_refl).
  induction pre as [|[p t] pre IH] using rev_ind; intros Hin; [reflexivity|].
  rewrite apply_writes_app. simpl.
  rewrite apply_writes_absorb; [|assumption|apply Hin, in_or_app; right; now left].
  apply IH. intros x Hx. apply Hin, in_or_app. now left.
Qed.

(** The result [Parse] builds from the writes of a run and the error that
    ended it. *)
Lemma Parse_loop_shape fuel : forall d k e pos,
  (forall sf, Parse_loop fuel (st d k e) sf pos = Panic) \/
  (forall sf, Parse_loop fuel (st d k e) sf pos = OutOfFuel) \/
  (exists ws k' oe,
      Forall (fun w => snd w <> "") ws /\
      forall sf,
        Parse_loop fuel (st d k e) sf pos =
        Return (st d k' e, apply_writes ws sf,
                match oe with
                | Some x => (None, Some x)
                | None => (Some (apply_writes ws sf), None)
                end)).
Proof.
  induction fuel as [|fuel IH]; intros d k e pos; [right; left; reflexivity|].
  destruct (scan (skipn k d) []) as [[[t er'] n]| |] eqn:E.
  - destruct (t =? "")%string eqn:Et.
    + right; right. exists [], (k + n)%nat, None. split; [constructor|].
      intros sf. rewrite Parse_loop_step, E. simpl. now rewrite Et.
    + assert (Hne : t <> "") by now apply String.eqb_neq.
      destruct (er pos t) as [x|] eqn:Ex.
      * right; right. exists [(pos, t)], (k + n)%nat, (Some x).
        split; [repeat constructor; assumption|].
        intros sf. rewrite Parse_loop_step, E. simpl. rewrite Et.
        rewrite fill_wr by assumption. simpl. now rewrite Ex.
      * destruct (IH d (k + n)%nat e (pos + 1)) as [H|[H|(ws & k' & oe & Hws & H)]].
        -- left. intros sf. rewrite Parse_loop_step, E. simpl. rewrite Et.
           rewrite fill_wr by assumption. simpl. rewrite Ex. apply H.
        -- right; left. intros sf. rewrite Parse_loop_step, E. simpl. rewrite Et.
           rewrite fill_wr by assumption. simpl. rewrite Ex. apply H.
        -- right; right. exists ((pos, t) :: ws), k', oe.
           split; [constructor; assumption|].
           intros sf. rewrite Parse_loop_step, E. simpl. rewrite Et.
           rewrite fill_wr by assumption. simpl. rewrite Ex. apply H.
  - left. intros sf. now rewrite Parse_loop_step, E.
  - exfalso. exact (scan_fuel _ _ E).
Qed.

(** With [S (length d - k)] iterations allowed from cursor [k], the loop of
    [Parse] returns or panics. *)
Lemma Parse_loop_total fuel : forall d k e sf pos,
  (k <= List.length d)%nat ->
  (List.length d - k < fuel)%nat ->
  Parse_loop fuel (st d k e) sf pos <> OutOfFuel.
Proof.
  induction fuel as [|fuel IH]; intros d k e sf pos Hk Hf; [lia|].
  rewrite Parse_loop_step.
  destruct (scan (skipn k d) []) as [[[t er'] n]| |] eqn:E; simpl;
    [|discriminate|exact (fun _ => scan_fuel _ _ E)].
  destruct (scan_bound _ _ _ _ E) as [Hn Hpos]. rewrite length_skipn in Hn.
  destruct (t =? "")%string eqn:Et; [discriminate|].
  apply String.eqb_neq in Et. specialize (Hpos Et).
  rewrite fill_wr by assumption. simpl.
  destruct (er pos t); [discriminate|].
  apply IH; lia.
Qed.

Theorem Parse_total ReadFile s : Parse ReadFile s <> OutOfFuel.
Proof.
  unfold Parse. destruct (ReadFile (pf s)) as [bytes [x|]]; [discriminate|].
  pose proof (Parse_loop_total (S (List.length bytes)) bytes 0
                (Z.of_nat (List.length bytes)) (fields s) 1) as H.
  unfold st in H. simpl Z.of_nat in H.
  destruct (Parse_loop _ _ _ _) as [[[ss' sf'] res]| |]; simpl;
    [discriminate|discriminate|].
  exfalso. apply H; [lia|lia|reflexivity].
Qed.

(** ** Field errors abort the decode *)

Lemma reach_inv d sf0 ss sf pos :
  reach d sf0 ss sf pos ->
  exists k j,
    ss = st d k (Z.of_nat (List.length d)) /\
    (j <= k <= List.length d)%nat /\
    Parse_loop (S (List.length d)) (st d 0 (Z.of_nat (List.length d))) sf0 1 =
    Parse_loop (S (List.length d) - j) ss sf pos.
Proof.
  induction 1 as [|ss sf pos field e ss1 sf1 _ IH Hnext Hne Hfill].
  - exists 0%nat, 0%nat. repeat split; lia || reflexivity.
  - destruct IH as (k & j & -> & Hjk & Heq).
    rewrite next_scan in Hnext.
    destruct (scan (skipn k d) []) as [[[t er'] n]| |] eqn:E; try discriminate.
    simpl in Hnext. inversion Hnext; subst; clear Hnext.
    destruct (scan_bound _ _ _ _ E) as [Hn Hpos]. rewrite length_skipn in Hn.
    specialize (Hpos Hne).
    exists (k + n)%nat, (S j). repeat split; try lia.
    rewrite Heq.
    replace (S (List.length d) - j)%nat with (S (List.length d - j)) by lia.
    rewrite Parse_loop_step, E. simpl.
    apply String.eqb_neq in Hne. rewrite Hne, Hfill. reflexivity.
Qed.

(** C6.  Whenever the loop of [Parse] has reached a position whose token
    [fill] rejects with an error, [Parse] returns exactly that error and no
    record; the stream stays where the rejected token ended and the record
    under construction is what that [fill] left: nothing after the rejected
    token is read or decoded. *)
Theorem Parse_aborts_at_field_error ReadFile s d ss sf pos field e ss1 sf1 x :
  ReadFile (pf s) = (d, None) ->
  reach d (fields s) ss sf pos ->
  next ss = Return (field, e, ss1) ->
  field <> "" ->
  fill field pos sf = Return (sf1, Some x) ->
  Parse ReadFile s = Return (mkStat (pf s) ss1 sf1, (None, Some x)).
Proof.
  intros Hrd Hreach Hnext Hne Hfill.
  destruct (reach_inv _ _ _ _ _ Hreach) as (k & j & -> & Hjk & Heq).
  unfold Parse. rewrite Hrd.
  change (mkStatStream (Some d) 0 (Z.of_nat (List.length d)))
    with (st d 0 (Z.of_nat (List.length d))).
  rewrite Heq.
  replace (S (List.length d) - j)%nat with (S (List.length d - j)) by lia.
  simpl Parse_loop. rewrite Hnext. simpl.
  apply String.eqb_neq in Hne. rewrite Hne, Hfill. reflexivity.
Qed.

Lemma Parse_aborts_at_field_error_witness :
  Parse (file bad_ppid_line) (NewStat "/proc/7/stat") =
  Return (mkStat "/proc/7/stat"
                 (st bad_ppid_line 11 (Z.of_nat (List.length bad_ppid_line)))
                 (set_PPid 0 (set_State Running (set_Comm "(sh)" (set_Pid 7 zeroStatField)))),
          (None, Some (NumErr (strconv.mkNumError "ParseInt" "x" strconv.ErrSyntax)))).
Proof.
  apply (Parse_aborts_at_field_error (file bad_ppid_line) (NewStat "/proc/7/stat")
           bad_ppid_line
           (st bad_ppid_line 9 (Z.of_nat (List.length bad_ppid_line)))
           (set_State Running (set_Comm "(sh)" (set_Pid 7 zeroStatField)))
           4 "x" None).
  - reflexivity.
  - apply (reach_next _ _ (st bad_ppid_line 7 (Z.of_nat (List.length bad_ppid_line)))
             (set_Comm "(sh)" (set_Pid 7 zeroStatField)) 3 "R" None);
      [|reflexivity|discriminate|reflexivity].
    apply (reach_next _ _ (st bad_ppid_line 2 (Z.of_nat (List.length bad_ppid_line)))
             (set_Pid 7 zeroStatField) 2 "(sh)" None);
      [|reflexivity|discriminate|reflexivity].
    apply (reach_next _ _ (st bad_ppid_line 0 (Z.of_nat (List.length bad_ppid_line)))
             zeroStatField 1 "7" None);
      [|reflexivity|discriminate|reflexivity].
    apply reach_start.
  - reflexivity.
  - discriminate.
  - reflexivity.
Defined.

Lemma Parse_error_without_record ReadFile s s1 r x :
  Parse ReadFile s = Return (s1, (r, Some x)) -> r = None.
Proof.
  unfold Parse. destruct (ReadFile (pf s)) as [bytes [y|]].
  - intros H. now inversion H.
  - change (mkStatStream (Some bytes) 0 (Z.of_nat (List.length bytes)))
      with (st bytes 0 (Z.of_nat (List.length bytes))).
    destruct (Parse_loop_shape (S (List.length bytes)) bytes 0
                (Z.of_nat (List.length bytes)) 1)
      as [H|[H|(ws & k' & [y|] & _ & H)]]; rewrite H; cbn [bind];
      intros E; now inversion E.
Qed.

(** ** Decoding twice *)

(** The path matters through the bytes under it only. *)
Lemma Parse_bytes_only ReadFile1 ReadFile2 s1 s2 :
  ReadFile1 (pf s1) = ReadFile2 (pf s2) ->
  fields s1 = fields s2 ->
  match Parse ReadFile1 s1, Parse ReadFile2 s2 with
  | Return (_, r1), Return (_, r2) => r1 = r2
  | Panic, Panic => True
  | OutOfFuel, OutOfFuel => True
  | _, _ => False
  end.
Proof.
  intros Hrd Hf. unfold Parse. rewrite Hrd, Hf.
  destruct (ReadFile2 (pf s2)) as [bytes [x|]]; [reflexivity|].
  destruct (Parse_loop _ _ _ _) as [[[ss' sf'] res]| |]; simpl; auto.
Qed.


(** C9.  Decoding is a function of the bytes also through the state a
    [Stat] keeps between calls: when [Parse] has returned, a second [Parse]
    of the same bytes on the same [Stat] returns the same pair (the same
    record, or the same error) and leaves the [Stat] as it is. *)
Theorem Parse_again ReadFile s s1 res :
  Parse ReadFile s = Return (s1, res) ->
  Parse ReadFile s1 = Return (s1, res).
Proof.
  unfold Parse. destruct (ReadFile (pf s)) as [bytes [x|]] eqn:Hrd.
  - intros H. inversion H; subst. now rewrite Hrd.
  - change (mkStatStream (Some bytes) 0 (Z.of_nat (List.length bytes)))
      with (st bytes 0 (Z.of_nat (List.length bytes))).
    destruct (Parse_loop_shape (S (List.length bytes)) bytes 0
                (Z.of_nat (List.length bytes)) 1)
      as [H|[H|(ws & k' & oe & Hws & H)]].
    + rewrite H. discriminate.
    + rewrite H. discriminate.
    + rewrite H. cbn [bind]. intros E. inversion E; subst; clear E.
      cbn [pf fields]. rewrite Hrd.
      change (mkStatStream (Some bytes) 0 (Z.of_nat (List.length bytes)))
        with (st bytes 0 (Z.of_nat (List.length bytes))).
      rewrite H. cbn [bind]. now rewrite apply_writes_idem.
Qed.

Lemma Parse_again_witness :
  Parse (file init_line) (NewStat "/proc/1/stat") =
    Return (init_stat, (Some (fields init_stat), None)) /\
  Parse (file init_line) init_stat =
    Return (init_stat, (Some (fields init_stat), None)).
Proof.
  split; [vm_compute; reflexivity|].
  apply (Parse_again (file init_line) (NewStat "/proc/1/stat")).
  vm_compute; reflexivity.
Defined.

(** ** Single positions of the schema *)

(** No entry of the table assigns [sf.CMajFlt]. *)
Lemma wr_CMajFlt pos field sf : CMajFlt (wr pos field sf) = CMajFlt sf.
Proof.
  destruct (position_dec pos) as [Hp|Hp]; [|now rewrite wr_outside].
  apply positions_spec in Hp.
  destruct sf; each_position Hp;
    first [ reflexivity | destruct field; reflexivity ].
Qed.

Lemma apply_writes_CMajFlt ws : forall sf,
  CMajFlt (apply_writes ws sf) = CMajFlt sf.
Proof.
  induction ws as [|[p t] ws IH]; intros sf; [reflexivity|].
  rewrite apply_writes_cons, IH. apply wr_CMajFlt.
Qed.

(** On every input the record [Parse] returns has the [CMajFlt] the [Stat]
    started with: zero after [NewStat]. *)
Lemma Parse_keeps_CMajFlt ReadFile s s1 r :
  Parse ReadFile s = Return (s1, (Some r, None)) ->
  CMajFlt r = CMajFlt (fields s).
Proof.
  unfold Parse. destruct (ReadFile (pf s)) as [bytes [x|]]; [discriminate|].
  change (mkStatStream (Some bytes) 0 (Z.of_nat (List.length bytes)))
    with (st bytes 0 (Z.of_nat (List.length bytes))).
  destruct (Parse_loop_shape (S (List.length bytes)) bytes 0
              (Z.of_nat (List.length bytes)) 1)
    as [H|[H|(ws & k' & [y|] & _ & H)]]; rewrite H; cbn [bind];
    intros E; inversion E; subst.
  apply apply_writes_CMajFlt.
Qed.

(** C1.  Entry 13 of the table assigns [sf.MajFlt]: whatever the token, it
    leaves [CMajFlt] as it was and puts its value where entry 12 put the
    major-fault count.  On [bash_line], whose 12th and 13th tokens are 5
    and 7, the decoded record has [MajFlt = 7] and [CMajFlt = 0]. *)
Theorem cmajflt_goes_to_MajFlt :
  (forall field sf,
      fill field 13 sf =
      Return (set_MajFlt (fst (uint64Cover field)) sf, snd (uint64Cover field))) /\
  (forall v sf, CMajFlt (set_MajFlt v sf) = CMajFlt sf) /\
  (exists toks,
      tokens bash_line = Return toks /\
      List.length toks = 52%nat /\
      nth_error toks 11 = Some "5" /\
      nth_error toks 12 = Some "7") /\
  Parse (file bash_line) (NewStat "/proc/2051/stat") =
    Return (bash_stat, (Some (fields bash_stat), None)) /\
  MajFlt (fields bash_stat) = 7 /\
  CMajFlt (fields bash_stat) = 0.
Proof.
  split; [|split; [|split; [|split; [|split]]]].
  - intros field sf. unfold fill, fieldParseMap, assign, bind.
    destruct (snd (uint64Cover field)); reflexivity.
  - intros v []; reflexivity.
  - eexists. split; [vm_compute; reflexivity|]. repeat split.
  - vm_compute; reflexivity.
  - reflexivity.
  - reflexivity.
Qed.

(** An unread rest without space and newline makes [next] panic. *)
Lemma next_unterminated pre w e :
  forallb tokbyte w = true ->
  next (st (pre ++ w) (List.length pre) e) = Panic.
Proof.
  intros Hw. rewrite next_scan, skipn_app, skipn_all, Nat.sub_diag.
  simpl. now rewrite scan_unterminated.
Qed.

(** C2.  [next] reads the byte under the cursor before anything else, so
    with the cursor at the buffer length it panics instead of signalling
    the end of the record, and a record that ends with its last digit
    makes [Parse] panic when the loop comes to the last field. *)
Theorem next_reads_past_the_end :
  (forall d e, next (st d (List.length d) e) = Panic) /\
  next (st unterminated_line 22 (Z.of_nat (List.length unterminated_line))) = Panic /\
  Parse (file unterminated_line) (NewStat "/proc/1/stat") = Panic.
Proof.
  split; [|split].
  - intros d e. rewrite next_scan, skipn_all. reflexivity.
  - vm_compute; reflexivity.
  - vm_compute; reflexivity.
Qed.

(** C8.  At a position outside 1..52 the decoder returns no error and the
    record it was given, whatever the token. *)
Theorem fill_outside_schema field pos sf :
  ~ (1 <= pos <= 52) -> fill field pos sf = Return (sf, None).
Proof.
  intros H. unfold fill. now rewrite fieldParseMap_outside.
Qed.

Lemma fill_outside_schema_witness :
  ~ (1 <= 53 <= 52) /\
  fill "4096" 53 (fields init_stat) = Return (fields init_stat, None).
Proof.
  split; [lia|]. apply (fill_outside_schema "4096" 53 (fields init_stat)). lia.
Defined.

(** The loop looks at the token only: the error [next] returns with it
    plays no part. *)
Lemma Parse_loop_empty_token fuel ss sf pos e ss1 :
  next ss = Return ("", e, ss1) ->
  Parse_loop (S fuel) ss sf pos = Return (ss1, sf, (Some sf, None)).
Proof. intros H. simpl. now rewrite H. Qed.

Lemma Parse_loop_token fuel ss sf pos field e ss1 :
  next ss = Return (field, e, ss1) ->
  field <> "" ->
  Parse_loop (S fuel) ss sf pos =
  '(sf1, err) <- fill field pos sf ;;
  match err with
  | Some x => Return (ss1, sf1, (None, Some x))
  | None => Parse_loop fuel ss1 sf1 (pos + 1)
  end.
Proof.
  intros H Hne. simpl. rewrite H. simpl.
  apply String.eqb_neq in Hne. now rewrite Hne.
Qed.

(** C10.  On [doubled_space_line] the second of the two spaces after the
    state yields the empty token with a nil error; [Parse] stops there and
    returns a nil error and a record holding only the pid, the name and the
    state, every later field zero.  The error [next] returns is not looked
    at: on [short_line] the last token comes with [erreof] and is decoded
    all the same, and the loop ends at the empty token of the next call. *)
Theorem Parse_stops_at_empty_token :
  nth_error doubled_space_line 10 = Some SP /\
  nth_error doubled_space_line 11 = Some SP /\
  next (st doubled_space_line 11 (Z.of_nat (List.length doubled_space_line))) =
    Return ("", None, st doubled_space_line 12 (Z.of_nat (List.length doubled_space_line))) /\
  Parse (file doubled_space_line) (NewStat "/proc/1/stat") =
    Return (mkStat "/proc/1/stat"
                   (st doubled_space_line 12 (Z.of_nat (List.length doubled_space_line)))
                   (set_State Sleeping (set_Comm "(init)" (set_Pid 1 zeroStatField))),
            (Some (set_State Sleeping (set_Comm "(init)" (set_Pid 1 zeroStatField))), None)) /\
  next (st short_line 8 (Z.of_nat (List.length short_line))) =
    Return ("77", Some erreof, st short_line 10 (Z.of_nat (List.length short_line))) /\
  next (st short_line 10 (Z.of_nat (List.length short_line))) =
    Return ("", Some erreof, st short_line 10 (Z.of_nat (List.length short_line))) /\
  Parse (file short_line) (NewStat "/proc/5/stat") =
    Return (mkStat "/proc/5/stat"
                   (st short_line 10 (Z.of_nat (List.length short_line)))
                   (set_PPid 77 (set_State Running (set_Comm "(x)" (set_Pid 5 zeroStatField)))),
            (Some (set_PPid 77 (set_State Running (set_Comm "(x)" (set_Pid 5 zeroStatField)))),
             None)).
Proof.
  repeat split; vm_compute; reflexivity.
Qed.

(** ** Tokens and segments *)

Lemma tokens_loop_step fuel d k e :
  tokens_loop (S fuel) (st d k e) =
  '(t, er, n) <- scan (skipn k d) [] ;;
  if (t =? "")%string then Return []
  else
    rest <- tokens_loop fuel (st d (k + n) e) ;;
    Return (t :: rest).
Proof.
  simpl tokens_loop. rewrite next_scan.
  destruct (scan (skipn k d) []) as [[[t er'] n]| |]; reflexivity.
Qed.

(** The first piece of a line without newline, as [split_sp] cuts it. *)
Lemma first_piece l : forall acc,
  no_newline l = true ->
  exists w,
    forallb tokbyte w = true /\
    ((l = w /\ split_sp l acc = [(acc ++ w)%list]) \/
     (exists l',
         l = (w ++ SP :: l')%list /\
         split_sp l acc = (acc ++ w)%list :: split_sp l' [] /\
         no_newline l' = true)).
Proof.
  induction l as [|c l IH]; intros acc Hl.
  - exists []. split; [reflexivity|]. left. now rewrite app_nil_r.
  - simpl in Hl. apply andb_true_iff in Hl as [Hc Hl]. simpl.
    destruct (c =? SP)%char eqn:Esp.
    + apply Ascii.eqb_eq in Esp; subst c.
      exists []. split; [reflexivity|]. right. exists l.
      now rewrite app_nil_r.
    + destruct (IH (acc ++ [c])%list Hl) as (w & Hw & Hcase).
      exists (c :: w). split.
      * simpl. unfold tokbyte at 1. now rewrite Hc, Esp.
      * rewrite <- app_assoc in Hcase. simpl in Hcase.
        destruct Hcase as [[-> Hs]|(l' & -> & Hs & Hl')]; [left|right]; auto.
        exists l'. auto.
Qed.

Lemma string_of_list_ascii_nonempty w :
  nonempty w = true -> (string_of_list_ascii w =? "")%string = false.
Proof. destruct w; [discriminate|reflexivity]. Qed.

Lemma tokens_loop_spec fuel : forall l pre rest e,
  no_newline l = true ->
  (List.length l < fuel)%nat ->
  tokens_loop fuel (st (pre ++ l ++ LF :: rest) (List.length pre) e) =
  Return (map string_of_list_ascii (leading (split_sp l []))).
Proof.
  induction fuel as [|fuel IH]; intros l pre rest e Hl Hf; [lia|].
  rewrite tokens_loop_step, skipn_app, skipn_all, Nat.sub_diag. simpl skipn.
  rewrite app_nil_l.
  destruct (first_piece l [] Hl) as (w & Hw & [[-> Hs]|(l' & -> & Hs & Hl')]);
    simpl in Hs; rewrite Hs.
  - rewrite scan_newline by assumption. simpl.
    destruct w as [|c w]; [reflexivity|]. simpl in Hf.
    cbn [nonempty leading map string_of_list_ascii String.eqb].
    replace (pre ++ (c :: w) ++ LF :: rest)%list
      with ((pre ++ c :: w) ++ [] ++ LF :: rest)%list
      by (now rewrite <- app_assoc).
    replace (List.length pre + List.length (c :: w))%nat
      with (List.length (pre ++ c :: w)) by (now rewrite length_app).
    rewrite IH by (reflexivity || (simpl; lia)). reflexivity.
  - rewrite <- app_assoc. simpl app at 2.
    rewrite scan_space by assumption. simpl app at 3.
    destruct w as [|c w]; [reflexivity|].
    rewrite length_app in Hf. simpl in Hf.
    cbn [bind nonempty leading map string_of_list_ascii String.eqb].
    replace (pre ++ (c :: w) ++ SP :: l' ++ LF :: rest)%list
      with ((pre ++ (c :: w) ++ [SP]) ++ l' ++ LF :: rest)%list
      by (now rewrite <- !app_assoc).
    replace (List.length pre + S (List.length (c :: w)))%nat
      with (List.length (pre ++ (c :: w) ++ [SP]))
      by (rewrite !length_app; simpl; lia).
    rewrite IH by (assumption || lia). reflexivity.
Qed.

Lemma line_newline bytes :
  has_newline bytes = true ->
  no_newline (line bytes) = true /\
  exists rest, bytes = (line bytes ++ LF :: rest)%list.
Proof.
  induction bytes as [|c bytes IH]; simpl; [discriminate|].
  destruct (c =? LF)%char eqn:E; simpl.
  - intros _. split; [reflexivity|]. apply Ascii.eqb_eq in E; subst.
    now exists bytes.
  - intros H. destruct (IH H) as [Hn [rest Hr]]. rewrite E. simpl.
    split; [assumption|]. exists rest. now rewrite <- Hr.
Qed.

(** On a buffer with a newline the tokenizer yields the pieces of the
    first line up to the first empty piece. *)
Lemma tokens_spec bytes :
  has_newline bytes = true ->
  tokens bytes =
  Return (map string_of_list_ascii (leading (split_sp (line bytes) []))).
Proof.
  intros H. destruct (line_newline bytes H) as [Hn [rest Hr]].
  unfold tokens.
  change (mkStatStream (Some bytes) 0 (Z.of_nat (List.length bytes)))
    with (st bytes (List.length (@nil ascii)) (Z.of_nat (List.length bytes))).
  rewrite Hr at 2.
  change (line bytes ++ LF :: rest)%list with ([] ++ line bytes ++ LF :: rest)%list.
  apply tokens_loop_spec; [assumption|].
  rewrite Hr at 2. rewrite length_app. simpl. lia.
Qed.

Lemma leading_filter ws :
  forallb (fun w => negb (nonempty w)) (skipn (List.length (leading ws)) ws) = true ->
  leading ws = filter nonempty ws.
Proof.
  induction ws as [|w ws IH]; simpl; [reflexivity|].
  destruct (nonempty w) eqn:Hw; simpl.
  - intros H. now rewrite IH.
  - rewrite Hw. simpl. clear IH. intros H.
    induction ws as [|v ws IH]; simpl in *; [reflexivity|].
    apply andb_true_iff in H as [Hv H]. apply negb_true_iff in Hv.
    rewrite Hv. now apply IH.
Qed.

Lemma tokens_segments bytes :
  has_newline bytes = true ->
  single_spaced bytes = true ->
  tokens bytes = Return (segments bytes).
Proof.
  intros Hn Hs. rewrite tokens_spec by assumption. unfold segments.
  now rewrite leading_filter.
Qed.

(** ** Package strconv on decimal tokens *)


Lemma is_digit_digit c :
  is_digit c = true ->
  strconv.digit (byteZ c) = Some (byteZ c - 48) /\ 0 <= byteZ c - 48 <= 9.
Proof.
  unfold is_digit, strconv.digit. intros H. rewrite H.
  apply andb_true_iff in H as [H1 H2]. split; [reflexivity|lia].
Qed.

Lemma not_digit_digit c :
  is_digit c = false ->
  match strconv.digit (byteZ c) with
  | None => True
  | Some d => 10 <= d
  end.
Proof.
  unfold is_digit, strconv.digit. intros H. rewrite H.
  generalize (strconv.lower (byteZ c)) as x. intros x.
  destruct ((97 <=? x) && (x <=? 122)) eqn:E; [|exact I].
  apply andb_true_iff in E as [E1 E2]. lia.
Qed.

Lemma decimal_value_ge ds : forall n,
  forallb is_digit ds = true -> 0 <= n -> n <= decimal_value ds n.
Proof.
  induction ds as [|c ds IH]; intros n Hd Hn; cbn [decimal_value]; [lia|].
  simpl in Hd. apply andb_true_iff in Hd as [Hc Hd].
  destruct (is_digit_digit c Hc) as [_ Hr].
  specialize (IH (10 * n + (byteZ c - 48)) Hd). lia.
Qed.

Lemma uint64_small z : 0 <= z < 2 ^ 64 -> uint64 z = z.
Proof. intros H. unfold uint64, uintN. now apply Z.mod_small. Qed.

Lemma uint64_wrap z : 2 ^ 64 <= z < 2 * 2 ^ 64 -> uint64 z = z - 2 ^ 64.
Proof.
  intros H. unfold uint64, uintN.
  symmetry. apply (Z.mod_unique z (2 ^ 64) 1 (z - 2 ^ 64)); lia.
Qed.

Section ParseUintLoop.

Variables (s0 : string) (maxVal : Z) (tl : list ascii).
Hypothesis maxVal_range : 0 <= maxVal <= strconv.maxUint64.

(** The loop of [ParseUint] over a run of digits [ds] followed by [tl]:
    it carries the value of the digits on, unless that value is beyond
    [maxVal]. *)
Lemma ParseUint_loop_digits ds : forall n,
  forallb is_digit ds = true ->
  0 <= n <= maxVal ->
  strconv.ParseUint_loop s0 10 maxVal cutoff10 (ds ++ tl) n =
  if decimal_value ds n <=? maxVal
  then strconv.ParseUint_loop s0 10 maxVal cutoff10 tl (decimal_value ds n)
  else (maxVal, Some (strconv.rangeError strconv.fnParseUint s0)).
Proof.
  pose proof maxVal_range as Hmax.
  unfold strconv.maxUint64 in Hmax. change (2 ^ 64) with 18446744073709551616 in Hmax.
  induction ds as [|c ds IH]; intros n Hd Hn.
  - simpl. destruct (Z.leb_spec n maxVal); [reflexivity|lia].
  - simpl in Hd. apply andb_true_iff in Hd as [Hc Hd].
    destruct (is_digit_digit c Hc) as [Hdig Hr].
    simpl app. simpl strconv.ParseUint_loop. rewrite Hdig.
    pose proof (decimal_value_ge ds (10 * n + (byteZ c - 48)) Hd ltac:(lia)) as Hge.
    destruct (Z.geb_spec (byteZ c - 48) 10); [lia|].
    cbn [decimal_value].
    change cutoff10 with 1844674407370955162 in *.
    destruct (Z.geb_spec n 1844674407370955162) as [Hcut|Hcut].
    { destruct (Z.leb_spec (decimal_value ds (10 * n + (byteZ c - 48))) maxVal);
        [lia|reflexivity]. }
    rewrite (uint64_small (n * 10))
      by (change (2 ^ 64) with 18446744073709551616; lia).
    destruct (Z_lt_dec (n * 10 + (byteZ c - 48)) 18446744073709551616) as [Hs|Hs].
    + rewrite (uint64_small (n * 10 + (byteZ c - 48)))
        by (change (2 ^ 64) with 18446744073709551616; lia).
      destruct (Z.ltb_spec (n * 10 + (byteZ c - 48)) (n * 10)); [lia|].
      destruct (Z.gtb_spec (n * 10 + (byteZ c - 48)) maxVal) as [Hov|Hov]; cbn [orb].
      * destruct (Z.leb_spec (decimal_value ds (10 * n + (byteZ c - 48))) maxVal);
          [lia|reflexivity].
      * replace (n * 10 + (byteZ c - 48)) with (10 * n + (byteZ c - 48)) by lia.
        exact (IH (10 * n + (byteZ c - 48)) Hd ltac:(lia)).
    + rewrite (uint64_wrap (n * 10 + (byteZ c - 48)))
        by (change (2 ^ 64) with 18446744073709551616; lia).
      change (2 ^ 64) with 18446744073709551616.
      destruct (Z.ltb_spec (n * 10 + (byteZ c - 48) - 18446744073709551616) (n * 10));
        [|lia]. cbn [orb].
      destruct (Z.leb_spec (decimal_value ds (10 * n + (byteZ c - 48))) maxVal);
        [lia|reflexivity].
Qed.

End ParseUintLoop.

Lemma ParseUint_loop_bad s0 maxVal c rest n :
  is_digit c = false ->
  strconv.ParseUint_loop s0 10 maxVal cutoff10 (c :: rest) n =
  (0, Some (strconv.syntaxError strconv.fnParseUint s0)).
Proof.
  intros H. apply not_digit_digit in H. simpl.
  destruct (strconv.digit (byteZ c)) as [d|]; [|reflexivity].
  destruct (Z.geb_spec d 10); [reflexivity|lia].
Qed.


(** [ParseUint] on a token that starts with the digits [ds]. *)
Lemma ParseUint_digits s w ds tl :
  In w widths ->
  s <> "" ->
  list_ascii_of_string s = (ds ++ tl)%list ->
  forallb is_digit ds = true ->
  strconv.ParseUint s 10 w =
  if decimal_value ds 0 <=? 2 ^ w - 1
  then strconv.ParseUint_loop s 10 (2 ^ w - 1) cutoff10 tl (decimal_value ds 0)
  else (2 ^ w - 1, Some (strconv.rangeError strconv.fnParseUint s)).
Proof.
  intros Hw Hne Hs Hd. unfold strconv.ParseUint.
  apply String.eqb_neq in Hne. rewrite Hne, Hs.
  each_width Hw; apply ParseUint_loop_digits; try assumption;
    unfold strconv.maxUint64; simpl; lia.
Qed.

(** An unsigned token of digits only: its value, or the range error. *)
Lemma ParseUint_decimal s w :
  In w widths ->
  s <> "" ->
  forallb is_digit (list_ascii_of_string s) = true ->
  strconv.ParseUint s 10 w =
  if decimal_value (list_ascii_of_string s) 0 <=? 2 ^ w - 1
  then (decimal_value (list_ascii_of_string s) 0, None)
  else (2 ^ w - 1, Some (strconv.rangeError strconv.fnParseUint s)).
Proof.
  intros Hw Hne Hd.
  rewrite (ParseUint_digits s w (list_ascii_of_string s) []); try assumption;
    [reflexivity|now rewrite app_nil_r].
Qed.

(** An unsigned token with a byte that is no digit after the digits [ds]:
    the syntax error, unless the digits alone are out of range. *)
Lemma ParseUint_malformed s w ds c rest :
  In w widths ->
  list_ascii_of_string s = (ds ++ c :: rest)%list ->
  forallb is_digit ds = true ->
  is_digit c = false ->
  strconv.ParseUint s 10 w =
  if decimal_value ds 0 <=? 2 ^ w - 1
  then (0, Some (strconv.syntaxError strconv.fnParseUint s))
  else (2 ^ w - 1, Some (strconv.rangeError strconv.fnParseUint s)).
Proof.
  intros Hw Hs Hd Hc.
  assert (Hne : s <> "").
  { intros ->. simpl in Hs. now destruct ds. }
  rewrite (ParseUint_digits s w ds (c :: rest)) by assumption.
  now rewrite ParseUint_loop_bad.
Qed.

Lemma ParseInt_sign tok w :
  tok <> "" ->
  strconv.ParseInt tok 10 w =
  let '(un, err) := strconv.ParseUint (snd (strip_sign tok)) 10 w in
  match err with
  | Some (strconv.mkNumError _ _ strconv.ErrSyntax) =>
    (0, Some (strconv.mkNumError strconv.fnParseInt tok strconv.ErrSyntax))
  | Some (strconv.mkNumError _ _ strconv.ErrBase) =>
    (0, Some (strconv.mkNumError strconv.fnParseInt tok strconv.ErrBase))
  | Some (strconv.mkNumError _ _ strconv.ErrBitSize) =>
    (0, Some (strconv.mkNumError strconv.fnParseInt tok strconv.ErrBitSize))
  | _ =>
    let cutoff := uint64 (Z.shiftl 1 (w - 1)) in
    if negb (fst (strip_sign tok)) && (un >=? cutoff)
    then (int64 (cutoff - 1), Some (strconv.rangeError strconv.fnParseInt tok))
    else if fst (strip_sign tok) && (un >? cutoff)
    then (int64 (- int64 cutoff), Some (strconv.rangeError strconv.fnParseInt tok))
    else (if fst (strip_sign tok) then int64 (- int64 un) else int64 un, None)
  end.
Proof.
  intros Hne. destruct tok as [|c rest]; [congruence|].
  unfold strconv.ParseInt, strip_sign.
  destruct (c =? "+")%char; [reflexivity|].
  destruct (c =? "-")%char; reflexivity.
Qed.

Lemma int64_small z : - 2 ^ 63 <= z < 2 ^ 63 -> int64 z = z.
Proof.
  intros H. unfold int64, intN. change (64 - 1) with 63.
  rewrite Z.mod_small; lia.
Qed.

(** A signed token whose digits denote a value outside the width. *)
Lemma ParseInt_out_of_range tok w :
  In w widths ->
  snd (strip_sign tok) <> "" ->
  forallb is_digit (list_ascii_of_string (snd (strip_sign tok))) = true ->
  fits true w
       (if fst (strip_sign tok)
        then - decimal_value (list_ascii_of_string (snd (strip_sign tok))) 0
        else decimal_value (list_ascii_of_string (snd (strip_sign tok))) 0) = false ->
  snd (strconv.ParseInt tok 10 w) = Some (strconv.rangeError strconv.fnParseInt tok).
Proof.
  intros Hw Hne Hd Hfit.
  assert (Htok : tok <> "") by (intros ->; now apply Hne).
  rewrite ParseInt_sign by assumption.
  rewrite ParseUint_decimal by assumption.
  pose proof (decimal_value_ge _ 0 Hd ltac:(lia)) as Hpos.
  revert Hfit Hpos.
  generalize (decimal_value (list_ascii_of_string (snd (strip_sign tok))) 0) as v.
  generalize (fst (strip_sign tok)) as neg.
  intros neg v Hfit Hpos. unfold fits in Hfit.
  each_width Hw;
    match goal with
    | |- context [2 ^ ?w - 1] =>
      let c := eval vm_compute in (2 ^ w - 1) in change (2 ^ w - 1) with c
    end;
    match type of Hfit with
    | context [2 ^ ?w] =>
      let c := eval vm_compute in (2 ^ w) in change (2 ^ w) with c in Hfit
    end;
    match goal with
    | |- context [uint64 ?x] =>
      let c := eval vm_compute in (uint64 x) in change (uint64 x) with c
    end;
    cbv zeta;
    match goal with
    | |- context [(v <=? ?m)] => destruct (Z.leb_spec v m)
    end; cbv beta iota;
    destruct neg; cbn [negb andb fst snd];
    repeat match goal with
           | |- context [(?a >=? ?b)] => destruct (Z.geb_spec a b)
           | |- context [(?a >? ?b)] => destruct (Z.gtb_spec a b)
           end;
    cbn [negb andb fst snd]; try reflexivity; exfalso; lia.
Qed.

(** The conversion of the earlier revision parses with bit size 16, so it
    rejects what does not fit 32 bits as well. *)
Lemma draft_int32Cover_out_of_range tok :
  snd (strip_sign tok) <> "" ->
  forallb is_digit (list_ascii_of_string (snd (strip_sign tok))) = true ->
  fits true 32
       (if fst (strip_sign tok)
        then - decimal_value (list_ascii_of_string (snd (strip_sign tok))) 0
        else decimal_value (list_ascii_of_string (snd (strip_sign tok))) 0) = false ->
  snd (draft.int32Cover tok) =
  Some (NumErr (strconv.rangeError strconv.fnParseInt tok)).
Proof.
  intros Hne Hd Hfit.
  assert (Hfit16 :
            fits true 16
                 (if fst (strip_sign tok)
                  then - decimal_value (list_ascii_of_string (snd (strip_sign tok))) 0
                  else decimal_value (list_ascii_of_string (snd (strip_sign tok))) 0)
            = false).
  { revert Hfit. generalize (if fst (strip_sign tok)
                then - decimal_value (list_ascii_of_string (snd (strip_sign tok))) 0
                else decimal_value (list_ascii_of_string (snd (strip_sign tok))) 0) as v.
    intros v. unfold fits.
    change (2 ^ (32 - 1)) with 2147483648. change (2 ^ (16 - 1)) with 32768.
    intros H. apply andb_false_iff in H. apply andb_false_iff.
    destruct H as [H|H]; [left|right]; lia. }
  pose proof (ParseInt_out_of_range tok 16 ltac:(simpl; tauto) Hne Hd Hfit16) as E.
  unfold draft.int32Cover.
  destruct (strconv.ParseInt tok 10 16) as [v [e|]]; simpl in E |- *; congruence.
Qed.

(** A signed token whose digits denote a value inside the width. *)
Lemma ParseInt_decimal tok w :
  In w widths ->
  snd (strip_sign tok) <> "" ->
  forallb is_digit (list_ascii_of_string (snd (strip_sign tok))) = true ->
  fits true w
       (if fst (strip_sign tok)
        then - decimal_value (list_ascii_of_string (snd (strip_sign tok))) 0
        else decimal_value (list_ascii_of_string (snd (strip_sign tok))) 0) = true ->
  strconv.ParseInt tok 10 w =
  (if fst (strip_sign tok)
   then - decimal_value (list_ascii_of_string (snd (strip_sign tok))) 0
   else decimal_value (list_ascii_of_string (snd (strip_sign tok))) 0, None).
Proof.
  intros Hw Hne Hd Hfit.
  assert (Htok : tok <> "") by (intros ->; now apply Hne).
  rewrite ParseInt_sign by assumption.
  rewrite ParseUint_decimal by assumption.
  pose proof (decimal_value_ge _ 0 Hd ltac:(lia)) as Hpos.
  revert Hfit Hpos.
  generalize (decimal_value (list_ascii_of_string (snd (strip_sign tok))) 0) as v.
  generalize (fst (strip_sign tok)) as neg.
  intros neg v Hfit Hpos. unfold fits in Hfit.
  apply andb_true_iff in Hfit as [Hlo Hhi].
  each_width Hw;
    match goal with
    | |- context [2 ^ ?w - 1] =>
      let c := eval vm_compute in (2 ^ w - 1) in change (2 ^ w - 1) with c
    end;
    match type of Hlo with
    | context [2 ^ ?w] =>
      let c := eval vm_compute in (2 ^ w) in
      change (2 ^ w) with c in Hlo; change (2 ^ w) with c in Hhi
    end;
    match goal with
    | |- context [uint64 ?x] =>
      let c := eval vm_compute in (uint64 x) in change (uint64 x) with c
    end;
    cbv zeta;
    match goal with
    | |- context [(v <=? ?m)] => destruct (Z.leb_spec v m)
    end; cbv beta iota;
    destruct neg; cbn [negb andb fst snd];
    repeat match goal with
           | |- context [(?a >=? ?b)] => destruct (Z.geb_spec a b)
           | |- context [(?a >? ?b)] => destruct (Z.gtb_spec a b)
           end;
    cbn [negb andb fst snd]; try (exfalso; lia);
    try (rewrite (int64_small v) by (change (2 ^ 63) with 9223372036854775808; lia);
         try rewrite (int64_small (- v))
           by (change (2 ^ 63) with 9223372036854775808; lia);
         reflexivity).
  (* the one value whose magnitude is not an int64: -2^63 *)
  destruct (Z.eq_dec v 9223372036854775808) as [->|Hv]; [reflexivity|].
  rewrite (int64_small v) by (change (2 ^ 63) with 9223372036854775808; lia).
  rewrite (int64_small (- v)) by (change (2 ^ 63) with 9223372036854775808; lia).
  reflexivity.
Qed.

(** A signed token with a byte that is no digit after the digits [ds]. *)
Lemma ParseInt_malformed tok w ds c rest :
  In w widths ->
  list_ascii_of_string (snd (strip_sign tok)) = (ds ++ c :: rest)%list ->
  forallb is_digit ds = true ->
  is_digit c = false ->
  snd (strconv.ParseInt tok 10 w) =
  Some (strconv.mkNumError strconv.fnParseInt tok
          (if decimal_value ds 0 <=? 2 ^ w - 1
           then strconv.ErrSyntax else strconv.ErrRange)).
Proof.
  intros Hw Hs Hd Hc.
  assert (Htok : tok <> "").
  { intros ->. simpl in Hs. now destruct ds. }
  rewrite ParseInt_sign by assumption.
  rewrite (ParseUint_malformed _ w ds c rest) by assumption.
  generalize (fst (strip_sign tok)) as neg. intros neg.
  destruct (decimal_value ds 0 <=? 2 ^ w - 1); [reflexivity|].
  each_width Hw; destruct neg; reflexivity.
Qed.

(** ** The conversions of the table *)

Lemma coverOf_signed w tok :
  In w [32; 64] ->
  snd (coverOf true w tok) = wrapErr (snd (strconv.ParseInt tok 10 w)).
Proof.
  intros Hw. simpl in Hw. destruct Hw as [<-|[<-|[]]]; simpl coverOf.
  - unfold int32Cover. destruct (strconv.ParseInt tok 10 32) as [v [e|]]; reflexivity.
  - unfold int64Cover. destruct (strconv.ParseInt tok 10 64) as [v [e|]]; reflexivity.
Qed.

Lemma coverOf_unsigned w tok :
  In w [32; 64] ->
  snd (coverOf false w tok) = wrapErr (snd (strconv.ParseUint tok 10 w)).
Proof.
  intros Hw. simpl in Hw. destruct Hw as [<-|[<-|[]]]; simpl coverOf.
  - unfold uint32Cover. destruct (strconv.ParseUint tok 10 32) as [v [e|]]; reflexivity.
  - unfold uint64Cover. destruct (strconv.ParseUint tok 10 64) as [v [e|]]; reflexivity.
Qed.

Lemma declared_width pos signed w :
  declared pos = Some (signed, w) -> In w [32; 64].
Proof.
  intros H.
  destruct (position_dec pos) as [Hp|Hp].
  - apply positions_spec in Hp.
    each_position Hp; inversion H; simpl; auto.
  - exfalso. unfold declared in H.
    repeat match type of H with
           | match ?p with _ => _ end = _ => destruct p; try discriminate; try lia
           end.
Qed.

(** At a position with a declared integer type [fill] returns the error
    of the conversion for that type. *)
Lemma fill_declared pos signed w tok sf :
  declared pos = Some (signed, w) ->
  exists sf', fill tok pos sf = Return (sf', snd (coverOf signed w tok)).
Proof.
  intros H.
  destruct (position_dec pos) as [Hp|Hp].
  - apply positions_spec in Hp.
    each_position Hp; inversion H; subst;
      unfold fill, fieldParseMap, assign, bind, coverOf; cbn [Z.eqb Pos.eqb];
      eexists;
      match goal with
      | |- context [snd ?r] => destruct (snd r); reflexivity
      end.
  - exfalso. unfold declared in H.
    repeat match type of H with
           | match ?p with _ => _ end = _ => destruct p; try discriminate; try lia
           end.
Qed.

Lemma list_ascii_of_string_nonempty s : list_ascii_of_string s <> [] -> s <> "".
Proof. intros H ->. now apply H. Qed.

(** Out of range.  A token of decimal digits (after one sign at a
    signed position) whose value does not fit the declared type is rejected
    with the range error. *)
Lemma fill_out_of_range pos signed w tok sf :
  declared pos = Some (signed, w) ->
  snd (numeral signed tok) <> [] ->
  forallb is_digit (snd (numeral signed tok)) = true ->
  fits signed w (numeral_value signed tok) = false ->
  exists sf',
    fill tok pos sf =
    Return (sf', Some (NumErr (strconv.mkNumError (fnOf signed) tok strconv.ErrRange))).
Proof.
  intros Hdecl Hne Hd Hfit.
  pose proof (declared_width _ _ _ Hdecl) as Hw.
  assert (Hw' : In w widths) by (simpl in *; tauto).
  destruct (fill_declared pos signed w tok sf Hdecl) as [sf' Hfill].
  exists sf'. rewrite Hfill. do 2 f_equal.
  unfold numeral_value, numeral in *.
  destruct signed; cbn [fst snd] in Hne, Hd, Hfit.
  - rewrite coverOf_signed by assumption.
    rewrite ParseInt_out_of_range; try assumption; [reflexivity|].
    now apply list_ascii_of_string_nonempty.
  - rewrite coverOf_unsigned by assumption.
    rewrite ParseUint_decimal; try assumption;
      [|now apply list_ascii_of_string_nonempty].
    unfold fits in Hfit.
    pose proof (decimal_value_ge _ 0 Hd ltac:(lia)) as Hpos.
    destruct (Z.leb_spec (decimal_value (list_ascii_of_string tok) 0) (2 ^ w - 1));
      [lia|reflexivity].
Qed.

(** Malformed.  A token with a byte that is no digit is rejected: with
    the syntax error when the digits before that byte stay below [2 ^ w],
    with the range error otherwise. *)
Lemma fill_malformed pos signed w tok sf ds c rest :
  declared pos = Some (signed, w) ->
  snd (numeral signed tok) = (ds ++ c :: rest)%list ->
  forallb is_digit ds = true ->
  is_digit c = false ->
  exists sf',
    fill tok pos sf =
    Return (sf', Some (NumErr (strconv.mkNumError (fnOf signed) tok
                                 (if decimal_value ds 0 <=? 2 ^ w - 1
                                  then strconv.ErrSyntax else strconv.ErrRange)))).
Proof.
  intros Hdecl Hs Hd Hc.
  pose proof (declared_width _ _ _ Hdecl) as Hw.
  assert (Hw' : In w widths) by (simpl in *; tauto).
  destruct (fill_declared pos signed w tok sf Hdecl) as [sf' Hfill].
  exists sf'. rewrite Hfill. do 2 f_equal.
  unfold numeral in Hs. destruct signed; cbn [fst snd] in Hs.
  - rewrite coverOf_signed by assumption.
    now rewrite (ParseInt_malformed tok w ds c rest).
  - rewrite coverOf_unsigned by assumption.
    rewrite (ParseUint_malformed tok w ds c rest) by assumption.
    destruct (decimal_value ds 0 <=? 2 ^ w - 1); reflexivity.
Qed.

(** A token of decimal digits whose value fits the declared type converts
    to that value. *)
Lemma coverOf_in_range signed w tok :
  In w [32; 64] ->
  snd (numeral signed tok) <> [] ->
  forallb is_digit (snd (numeral signed tok)) = true ->
  fits signed w (numeral_value signed tok) = true ->
  coverOf signed w tok = (numeral_value signed tok, None).
Proof.
  intros Hw Hne Hd Hfit.
  assert (Hw' : In w widths) by (simpl in *; tauto).
  unfold numeral_value, numeral in *.
  destruct signed; cbn [fst snd] in Hne, Hd, Hfit |- *.
  - apply list_ascii_of_string_nonempty in Hne.
    pose proof (ParseInt_decimal tok w Hw' Hne Hd Hfit) as E.
    revert Hfit E.
    generalize (if fst (strip_sign tok)
                then - decimal_value (list_ascii_of_string (snd (strip_sign tok))) 0
                else decimal_value (list_ascii_of_string (snd (strip_sign tok))) 0) as v.
    intros v Hfit E. unfold fits in Hfit. apply andb_true_iff in Hfit as [Hlo Hhi].
    simpl in Hw. destruct Hw as [<-|[<-|[]]]; unfold coverOf; cbn [Z.eqb Pos.eqb].
    + unfold int32Cover. rewrite E. f_equal.
      unfold int32, intN. change (2 ^ (32 - 1)) with 2147483648 in *.
      change (2 ^ 32) with 4294967296. rewrite Z.mod_small; lia.
    + unfold int64Cover. now rewrite E.
  - apply list_ascii_of_string_nonempty in Hne.
    pose proof (ParseUint_decimal tok w Hw' Hne Hd) as E.
    unfold fits in Hfit. apply andb_true_iff in Hfit as [Hlo Hhi].
    rewrite Hhi in E.
    simpl in Hw. destruct Hw as [<-|[<-|[]]]; unfold coverOf; cbn [Z.eqb Pos.eqb].
    + unfold uint32Cover. rewrite E. f_equal.
      unfold uint32, uintN. change (2 ^ 32) with 4294967296 in *.
      rewrite Z.mod_small; lia.
    + unfold uint64Cover. now rewrite E.
Qed.

(** C5, as the code has it.  At a position with a declared integer type, a
    token of decimal digits (after one sign at a signed position) whose
    value does not fit the type is rejected with the range error, never
    stored truncated; a token with a byte that is no digit is rejected
    with the syntax error when the digits before that byte stay below
    [2 ^ w], and with the range error otherwise. *)
Theorem integer_conversion_errors pos signed w tok sf :
  declared pos = Some (signed, w) ->
  (snd (numeral signed tok) <> [] ->
   forallb is_digit (snd (numeral signed tok)) = true ->
   fits signed w (numeral_value signed tok) = false ->
   exists sf',
     fill tok pos sf =
     Return (sf', Some (NumErr (strconv.mkNumError (fnOf signed) tok strconv.ErrRange)))) /\
  (forall ds c rest,
      snd (numeral signed tok) = (ds ++ c :: rest)%list ->
      forallb is_digit ds = true ->
      is_digit c = false ->
      exists sf',
        fill tok pos sf =
        Return (sf', Some (NumErr (strconv.mkNumError (fnOf signed) tok
                                     (if decimal_value ds 0 <=? 2 ^ w - 1
                                      then strconv.ErrSyntax else strconv.ErrRange))))).
Proof.
  intros Hdecl. split.
  - now apply fill_out_of_range.
  - intros ds c rest. now apply fill_malformed.
Qed.

Lemma integer_conversion_errors_witness :
  declared 1 = Some (true, 32) /\
  snd (numeral true "2147483648") <> [] /\
  forallb is_digit (snd (numeral true "2147483648")) = true /\
  fits true 32 (numeral_value true "2147483648") = false /\
  exists sf',
    fill "2147483648" 1 zeroStatField =
    Return (sf', Some (NumErr (strconv.mkNumError (fnOf true) "2147483648"
                                 strconv.ErrRange))).
Proof.
  split; [reflexivity|]. split; [discriminate|].
  split; [reflexivity|]. split; [reflexivity|].
  apply (proj1 (integer_conversion_errors 1 true 32 "2147483648" zeroStatField
                  eq_refl));
    [discriminate|reflexivity|reflexivity].
Defined.

(** C5, as stated, fails on a token whose digits overflow before the byte
    that is no digit: the error is the range error, not the syntax error. *)
Lemma malformed_counterexample :
  ~ (forall pos signed w tok sf,
        declared pos = Some (signed, w) ->
        has_nondigit (snd (numeral signed tok)) = true ->
        exists sf' e,
          fill tok pos sf = Return (sf', Some (NumErr e)) /\
          strconv.Err e = strconv.ErrSyntax).
Proof.
  intros H.
  destruct (H 1 true 32 "99999999999x" zeroStatField eq_refl eq_refl)
    as (sf' & e & Hfill & He).
  vm_compute in Hfill. inversion Hfill; subst. discriminate.
Qed.

(** ** The record of init *)

Lemma fill_returns_wr field pos sf sf1 e :
  fill field pos sf = Return (sf1, e) -> sf1 = wr pos field sf.
Proof.
  unfold fill, wr. destruct (fieldParseMap pos) as [f|].
  - destruct (f field sf) as [[sf' [x|]]| |]; simpl; intros H; now inversion H.
  - intros H. now inversion H.
Qed.

(** Positions from 10 on leave the first nine fields alone. *)
Lemma wr_head9 pos field sf : 10 <= pos -> head9 (wr pos field sf) = head9 sf.
Proof.
  intros H. destruct (position_dec pos) as [Hp|Hp];
    [|now rewrite wr_outside].
  apply positions_spec in Hp.
  destruct sf; each_position Hp; try lia; reflexivity.
Qed.

Lemma Parse_loop_head9 fuel : forall ss sf pos ss' sf' r,
  10 <= pos ->
  Parse_loop fuel ss sf pos = Return (ss', sf', (Some r, None)) ->
  r = sf' /\ head9 sf' = head9 sf.
Proof.
  induction fuel as [|fuel IH]; intros ss sf pos ss' sf' r Hpos H; [discriminate|].
  simpl in H. destruct (next ss) as [[[field e] ss1]| |]; try discriminate.
  simpl in H. destruct (field =? "")%string.
  - inversion H; subst. auto.
  - destruct (fill field pos sf) as [[sf1 [x|]]| |] eqn:Hfill; try discriminate.
    simpl in H. apply IH in H; [|lia]. destruct H as [-> H]. split; [reflexivity|].
    rewrite H. apply fill_returns_wr in Hfill. subst sf1. now apply wr_head9.
Qed.

(** The thirteen iterations over [init_prefix]. *)
Lemma Parse_loop_init_prefix fuel rest e sf :
  Parse_loop (13 + fuel) (st (init_prefix ++ rest) 0 e) sf 1 =
  Parse_loop fuel (st (init_prefix ++ rest) 39 e)
    (apply_writes
       [(1, "1"); (2, "(init)"); (3, "S"); (4, "0"); (5, "1"); (6, "1"); (7, "0");
        (8, "-1"); (9, "4210944"); (10, "10"); (11, "0"); (12, "0"); (13, "0")] sf)
    14.
Proof.
  change (13 + fuel)%nat with (S (S (S (S (S (S (S (S (S (S (S (S (S fuel))))))))))))).
  do 13 (
    rewrite Parse_loop_step;
    match goal with
    | |- context [scan ?l ?b] =>
      let r := eval vm_compute in (scan l b) in
      change (scan l b) with r
    end;
    cbn [bind String.eqb Ascii.eqb Bool.eqb];
    rewrite fill_wr by discriminate;
    match goal with
    | |- context [er ?p ?t] =>
      let r := eval vm_compute in (er p t) in change (er p t) with r
    end;
    cbn [bind]).
  reflexivity.
Qed.

(** C3, as the code has it.  Whatever follows the first thirteen fields of
    the example, a record that [Parse] returns for it has pid 1, the name
    with its parentheses, the state [Sleeping], ppid 0 and task flags
    4210944. *)
Theorem init_record_fields ReadFile s rest s1 r :
  ReadFile (pf s) = ((init_prefix ++ rest)%list, None) ->
  Parse ReadFile s = Return (s1, (Some r, None)) ->
  Pid r = 1 /\ Comm r = "(init)" /\ State r = Sleeping /\ PPid r = 0 /\
  TaskFlags r = 4210944.
Proof.
  intros Hrd. unfold Parse. rewrite Hrd.
  generalize (Z.of_nat (List.length (init_prefix ++ rest))) as e. intros e.
  change (mkStatStream (Some (init_prefix ++ rest)%list) 0 e)
    with (st (init_prefix ++ rest) 0 e).
  rewrite length_app.
  change (S (List.length init_prefix + List.length rest))
    with (13 + (27 + List.length rest))%nat.
  rewrite Parse_loop_init_prefix.
  destruct (Parse_loop _ _ _ 14) as [[[ss' sf'] res]| |] eqn:E; try discriminate.
  cbn [bind]. intros H. inversion H; subst; clear H.
  apply Parse_loop_head9 in E; [|lia]. destruct E as [-> E].
  destruct (fields s).
  match type of E with
  | _ = ?rhs => let v := eval vm_compute in rhs in change rhs with v in E
  end.
  unfold head9 in E. inversion E. unfold Sleeping. repeat split; assumption.
Qed.

Lemma init_record_fields_witness :
  file init_line (pf (NewStat "/proc/1/stat")) = ((init_prefix ++ init_rest)%list, None) /\
  Parse (file init_line) (NewStat "/proc/1/stat") =
    Return (init_stat, (Some (fields init_stat), None)) /\
  Pid (fields init_stat) = 1 /\ Comm (fields init_stat) = "(init)" /\
  State (fields init_stat) = Sleeping /\ PPid (fields init_stat) = 0 /\
  TaskFlags (fields init_stat) = 4210944.
Proof.
  split; [reflexivity|]. split; [vm_compute; reflexivity|].
  apply (init_record_fields (file init_line) (NewStat "/proc/1/stat") init_rest
           init_stat (fields init_stat)).
  - reflexivity.
  - vm_compute; reflexivity.
Defined.

(** C3, as stated, fails on the name: the token is stored with its
    parentheses. *)
Lemma comm_counterexample :
  ~ (exists s1 r,
        Parse (file init_line) (NewStat "/proc/1/stat") = Return (s1, (Some r, None)) /\
        Pid r = 1 /\ Comm r = "init" /\ State r = Sleeping /\ PPid r = 0 /\
        TaskFlags r = 4210944).
Proof.
  intros (s1 & r & H & _ & Hc & _).
  vm_compute in H. inversion H; subst. discriminate Hc.
Qed.

(** ** The loop of Parse over the tokens *)

Lemma Parse_loop_tokens fuel : forall ss sf pos toks,
  tokens_loop fuel ss = Return toks ->
  exists ss',
    Parse_loop fuel ss sf pos =
    '(sf', err) <- fill_all toks pos sf ;;
    Return (ss', sf',
            match err with
            | Some x => (None, Some x)
            | None => (Some sf', None)
            end).
Proof.
  induction fuel as [|fuel IH]; intros ss sf pos toks H; [discriminate|].
  simpl in H |- *. destruct (next ss) as [[[field e] ss1]| |]; try discriminate.
  simpl in H |- *. destruct (field =? "")%string.
  - inversion H; subst. now exists ss1.
  - destruct (tokens_loop fuel ss1) as [rest| |] eqn:E; try discriminate.
    simpl in H. inversion H; subst; clear H. simpl fill_all.
    destruct (fill field pos sf) as [[sf1 [x|]]| |]; simpl.
    + now exists ss1.
    + apply (IH ss1 sf1 (pos + 1) rest E).
    + now exists ss1.
    + now exists ss1.
Qed.

(** On a single-spaced record with a newline [Parse] is the reference split
    followed by [fill] over the segments in order. *)
Theorem Parse_decodes_segments ReadFile s bytes :
  ReadFile (pf s) = (bytes, None) ->
  has_newline bytes = true ->
  single_spaced bytes = true ->
  exists ss',
    Parse ReadFile s =
    '(sf', err) <- fill_all (segments bytes) 1 (fields s) ;;
    Return (mkStat (pf s) ss' sf',
            match err with
            | Some x => (None, Some x)
            | None => (Some sf', None)
            end).
Proof.
  intros Hrd Hn Hs. unfold Parse. rewrite Hrd.
  pose proof (tokens_segments bytes Hn Hs) as Ht. unfold tokens in Ht.
  destruct (Parse_loop_tokens _ _ (fields s) 1 _ Ht) as [ss' E].
  exists ss'. rewrite E.
  destruct (fill_all (segments bytes) 1 (fields s)) as [[sf' err]| |]; reflexivity.
Qed.

(** * Further properties *)

(** ** What a single [fill] does to the record *)

Lemma fieldAt_outside k sf : ~ (1 <= k <= 52) -> fieldAt k sf = None.
Proof.
  intros H. unfold fieldAt.
  repeat match goal with
         | |- match ?p with _ => _ end = _ => destruct p; try reflexivity; try lia
         end.
Qed.

Lemma wr_frame pos tok k sf :
  k <> slotOf pos -> fieldAt k (wr pos tok sf) = fieldAt k sf.
Proof.
  intros Hk.
  destruct (position_dec pos) as [Hp|Hp]; [|now rewrite wr_outside].
  destruct (position_dec k) as [Hk'|Hk']; [|now rewrite !fieldAt_outside].
  apply positions_spec in Hp, Hk'.
  destruct sf; each_position Hp; each_position Hk';
    first [ reflexivity
          | exfalso; apply Hk; reflexivity
          | destruct tok; reflexivity ].
Qed.

(** [fill] leaves every struct field alone but the one its position is
    responsible for. *)
Theorem fill_frame tok pos sf sf' e k :
  fill tok pos sf = Return (sf', e) ->
  k <> slotOf pos ->
  fieldAt k sf' = fieldAt k sf.
Proof.
  intros H Hk. apply fill_returns_wr in H. subst sf'. now apply wr_frame.
Qed.

Lemma fill_frame_witness :
  fill "2040" 4 (fields init_stat) =
    Return (set_PPid 2040 (fields init_stat), None) /\
  9 <> slotOf 4 /\
  fieldAt 9 (set_PPid 2040 (fields init_stat)) = fieldAt 9 (fields init_stat).
Proof.
  split; [reflexivity|]. split; [discriminate|].
  apply (fill_frame "2040" 4 (fields init_stat) _ None 9); [reflexivity|discriminate].
Defined.

(** At a position with a declared integer type [fill] puts the first
    component of the conversion into the field of the position and returns
    the second. *)
Lemma fill_declared_value pos signed w tok sf :
  declared pos = Some (signed, w) ->
  exists sf',
    fill tok pos sf = Return (sf', snd (coverOf signed w tok)) /\
    fieldAt (slotOf pos) sf' = Some (IntVal (fst (coverOf signed w tok))).
Proof.
  intros H.
  destruct (position_dec pos) as [Hp|Hp].
  - apply positions_spec in Hp.
    destruct sf; each_position Hp; inversion H; subst;
      unfold fill, fieldParseMap, assign, bind, coverOf; cbn [Z.eqb Pos.eqb];
      eexists;
      match goal with
      | |- context [snd ?r] => destruct (snd r); split; reflexivity
      end.
  - exfalso. unfold declared in H.
    repeat match type of H with
           | match ?p with _ => _ end = _ => destruct p; try discriminate; try lia
           end.
Qed.

(** A numeral that fits the declared type of its position is accepted and
    its value is what the field of the position holds afterwards. *)
Theorem fill_stores_numeral pos signed w tok sf :
  declared pos = Some (signed, w) ->
  snd (numeral signed tok) <> [] ->
  forallb is_digit (snd (numeral signed tok)) = true ->
  fits signed w (numeral_value signed tok) = true ->
  exists sf',
    fill tok pos sf = Return (sf', None) /\
    fieldAt (slotOf pos) sf' = Some (IntVal (numeral_value signed tok)).
Proof.
  intros Hdecl Hne Hd Hfit.
  destruct (fill_declared_value pos signed w tok sf Hdecl) as (sf' & Hfill & Hval).
  rewrite (coverOf_in_range signed w tok (declared_width _ _ _ Hdecl) Hne Hd Hfit)
    in Hfill, Hval.
  now exists sf'.
Qed.

Lemma fill_stores_numeral_witness :
  declared 8 = Some (true, 32) /\
  snd (numeral true "-1") <> [] /\
  forallb is_digit (snd (numeral true "-1")) = true /\
  fits true 32 (numeral_value true "-1") = true /\
  exists sf',
    fill "-1" 8 zeroStatField = Return (sf', None) /\
    fieldAt (slotOf 8) sf' = Some (IntVal (numeral_value true "-1")).
Proof.
  split; [reflexivity|]. split; [discriminate|].
  split; [reflexivity|]. split; [reflexivity|].
  apply (fill_stores_numeral 8 true 32 "-1" zeroStatField);
    [reflexivity|discriminate|reflexivity|reflexivity].
Defined.

(** ** Rejected tokens *)

(** The value [ParseInt] returns next to the range error: the bound of the
    type on the side of the sign. *)
Lemma ParseInt_out_of_range_value tok w :
  In w widths ->
  snd (strip_sign tok) <> "" ->
  forallb is_digit (list_ascii_of_string (snd (strip_sign tok))) = true ->
  fits true w
       (if fst (strip_sign tok)
        then - decimal_value (list_ascii_of_string (snd (strip_sign tok))) 0
        else decimal_value (list_ascii_of_string (snd (strip_sign tok))) 0) = false ->
  fst (strconv.ParseInt tok 10 w) = clamp true w (fst (strip_sign tok)).
Proof.
  intros Hw Hne Hd Hfit.
  assert (Htok : tok <> "") by (intros ->; now apply Hne).
  rewrite ParseInt_sign by assumption.
  rewrite ParseUint_decimal by assumption.
  pose proof (decimal_value_ge _ 0 Hd ltac:(lia)) as Hpos.
  revert Hfit Hpos.
  generalize (decimal_value (list_ascii_of_string (snd (strip_sign tok))) 0) as v.
  generalize (fst (strip_sign tok)) as neg.
  intros neg v Hfit Hpos. unfold fits in Hfit. unfold clamp.
  each_width Hw;
    match goal with
    | |- context [2 ^ ?w - 1] =>
      let c := eval vm_compute in (2 ^ w - 1) in change (2 ^ w - 1) with c
    end;
    match type of Hfit with
    | context [2 ^ ?w] =>
      let c := eval vm_compute in (2 ^ w) in change (2 ^ w) with c in Hfit
    end;
    match goal with
    | |- context [uint64 ?x] =>
      let c := eval vm_compute in (uint64 x) in change (uint64 x) with c
    end;
    cbv zeta;
    match goal with
    | |- context [(v <=? ?m)] => destruct (Z.leb_spec v m)
    end; cbv beta iota;
    destruct neg; cbn [negb andb fst snd];
    repeat match goal with
           | |- context [(?a >=? ?b)] => destruct (Z.geb_spec a b)
           | |- context [(?a >? ?b)] => destruct (Z.gtb_spec a b)
           end;
    cbn [negb andb fst snd]; try reflexivity; exfalso; lia.
Qed.

Lemma coverOf_out_of_range_value signed w tok :
  In w [32; 64] ->
  snd (numeral signed tok) <> [] ->
  forallb is_digit (snd (numeral signed tok)) = true ->
  fits signed w (numeral_value signed tok) = false ->
  fst (coverOf signed w tok) =
  if w =? 32 then 0 else clamp signed w (fst (numeral signed tok)).
Proof.
  intros Hw Hne Hd Hfit.
  assert (Hw' : In w widths) by (simpl in *; tauto).
  unfold numeral_value, numeral in *.
  destruct signed; cbn [fst snd] in Hne, Hd, Hfit |- *.
  - apply list_ascii_of_string_nonempty in Hne.
    pose proof (ParseInt_out_of_range tok w Hw' Hne Hd Hfit) as Es.
    pose proof (ParseInt_out_of_range_value tok w Hw' Hne Hd Hfit) as Ev.
    simpl in Hw. destruct Hw as [<-|[<-|[]]]; unfold coverOf; cbn [Z.eqb Pos.eqb].
    + unfold int32Cover.
      destruct (strconv.ParseInt tok 10 32) as [v [e|]]; [reflexivity|discriminate].
    + unfold int64Cover.
      destruct (strconv.ParseInt tok 10 64) as [v e]. exact Ev.
  - apply list_ascii_of_string_nonempty in Hne.
    pose proof (ParseUint_decimal tok w Hw' Hne Hd) as E.
    unfold fits in Hfit.
    pose proof (decimal_value_ge _ 0 Hd ltac:(lia)) as Hpos.
    destruct (Z.leb_spec (decimal_value (list_ascii_of_string tok) 0) (2 ^ w - 1));
      [lia|].
    simpl in Hw. destruct Hw as [<-|[<-|[]]]; unfold coverOf; cbn [Z.eqb Pos.eqb].
    + unfold uint32Cover. now rewrite E.
    + unfold uint64Cover. now rewrite E.
Qed.

(** A numeral outside the declared type is rejected with the range error,
    and the field of the position is overwritten all the same: with 0 at a
    32-bit position, with the bound of the type at a 64-bit position. *)
Theorem fill_rejected_overwrites pos signed w tok sf :
  declared pos = Some (signed, w) ->
  snd (numeral signed tok) <> [] ->
  forallb is_digit (snd (numeral signed tok)) = true ->
  fits signed w (numeral_value signed tok) = false ->
  exists sf',
    fill tok pos sf =
      Return (sf', Some (NumErr (strconv.mkNumError (fnOf signed) tok strconv.ErrRange))) /\
    fieldAt (slotOf pos) sf' =
      Some (IntVal (if w =? 32 then 0 else clamp signed w (fst (numeral signed tok)))).
Proof.
  intros Hdecl Hne Hd Hfit.
  destruct (fill_declared_value pos signed w tok sf Hdecl) as (sf' & Hfill & Hval).
  destruct (fill_out_of_range pos signed w tok sf Hdecl Hne Hd Hfit) as (sf2 & Hfill2).
  rewrite Hfill in Hfill2. inversion Hfill2 as [[Hsf He]].
  exists sf'. rewrite Hfill, He. split; [reflexivity|].
  rewrite Hval.
  now rewrite (coverOf_out_of_range_value signed w tok (declared_width _ _ _ Hdecl)).
Qed.

Lemma fill_rejected_overwrites_witness :
  declared 22 = Some (false, 64) /\
  snd (numeral false "18446744073709551616") <> [] /\
  forallb is_digit (snd (numeral false "18446744073709551616")) = true /\
  fits false 64 (numeral_value false "18446744073709551616") = false /\
  exists sf',
    fill "18446744073709551616" 22 zeroStatField =
      Return (sf', Some (NumErr (strconv.mkNumError (fnOf false) "18446744073709551616"
                                   strconv.ErrRange))) /\
    fieldAt (slotOf 22) sf' =
      Some (IntVal (if 64 =? 32 then 0
                    else clamp false 64 (fst (numeral false "18446744073709551616")))).
Proof.
  split; [reflexivity|]. split; [discriminate|].
  split; [reflexivity|]. split; [reflexivity|].
  apply (fill_rejected_overwrites 22 false 64 "18446744073709551616" zeroStatField);
    [reflexivity|discriminate|reflexivity|reflexivity].
Defined.

(** On a non-empty token [fill] never panics, and whether it accepts the
    token, and with which error it rejects it, does not depend on the
    record it is given. *)
Theorem fill_error_independent tok pos sf1 sf2 :
  tok <> "" ->
  exists e sf1' sf2',
    fill tok pos sf1 = Return (sf1', e) /\
    fill tok pos sf2 = Return (sf2', e).
Proof.
  intros Hne. exists (er pos tok), (wr pos tok sf1), (wr pos tok sf2).
  split; now apply fill_wr.
Qed.

Lemma fill_error_independent_witness :
  "x" <> "" /\
  exists e sf1' sf2',
    fill "x" 4 zeroStatField = Return (sf1', e) /\
    fill "x" 4 (fields init_stat) = Return (sf2', e).
Proof.
  split; [discriminate|].
  apply (fill_error_independent "x" 4 zeroStatField (fields init_stat)). discriminate.
Defined.

Lemma er_undeclared pos tok :
  declared pos = None -> tok <> "" -> er pos tok = None.
Proof.
  intros Hd Hne.
  destruct (position_dec pos) as [Hp|Hp].
  - apply positions_spec in Hp. destruct tok as [|c tok]; [congruence|].
    each_position Hp; try discriminate Hd; reflexivity.
  - unfold er. now rewrite fieldParseMap_outside.
Qed.

(** The positions that accept every non-empty token are those without a
    declared integer type: the name, the state and the positions outside
    the table. *)
Theorem fill_accepts_all_iff_undeclared pos :
  declared pos = None <->
  (forall tok sf, tok <> "" -> exists sf', fill tok pos sf = Return (sf', None)).
Proof.
  split.
  - intros Hd tok sf Hne. exists (wr pos tok sf).
    rewrite fill_wr by assumption. now rewrite er_undeclared.
  - intros H. destruct (declared pos) as [[signed w]|] eqn:Hd; [|reflexivity].
    exfalso.
    destruct (H "x" zeroStatField ltac:(discriminate)) as (sf' & Hfill).
    destruct (fill_declared pos signed w "x" zeroStatField Hd) as (sf2 & Hfill2).
    rewrite Hfill in Hfill2. inversion Hfill2 as [[Hsf He]].
    pose proof (declared_width _ _ _ Hd) as Hw. simpl in Hw.
    destruct Hw as [<-|[<-|[]]]; destruct signed; vm_compute in He; discriminate.
Qed.

(** The empty token: entry 3 panics on it, every integer position rejects
    it with the syntax error. *)
Theorem fill_empty_token pos sf :
  (pos = 3 -> fill "" pos sf = Panic) /\
  (forall signed w,
      declared pos = Some (signed, w) ->
      exists sf',
        fill "" pos sf =
        Return (sf', Some (NumErr (strconv.mkNumError (fnOf signed) "" strconv.ErrSyntax)))).
Proof.
  split.
  - intros ->. reflexivity.
  - intros signed w Hd.
    destruct (fill_declared pos signed w "" sf Hd) as (sf' & Hfill).
    exists sf'. rewrite Hfill. do 2 f_equal.
    pose proof (declared_width _ _ _ Hd) as Hw. simpl in Hw.
    destruct Hw as [<-|[<-|[]]]; destruct signed; reflexivity.
Qed.

Lemma fill_accepts_all_iff_undeclared_witness :
  declared 2 = None /\
  exists sf', fill "(a b)" 2 zeroStatField = Return (sf', None).
Proof.
  split; [reflexivity|].
  apply (proj1 (fill_accepts_all_iff_undeclared 2) eq_refl "(a b)" zeroStatField).
  discriminate.
Defined.

Lemma fill_empty_token_witness :
  fill "" 3 zeroStatField = Panic /\
  declared 1 = Some (true, 32) /\
  exists sf',
    fill "" 1 zeroStatField =
    Return (sf', Some (NumErr (strconv.mkNumError (fnOf true) "" strconv.ErrSyntax))).
Proof.
  split; [apply (proj1 (fill_empty_token 3 zeroStatField) eq_refl)|].
  split; [reflexivity|].
  apply (proj2 (fill_empty_token 1 zeroStatField) true 32 eq_refl).
Defined.

(** ** How two [fill]s compose *)

(** Decoding two tokens whose positions write different struct fields gives
    the same record and the same errors in either order. *)
Theorem fill_commute p q t u sf :
  t <> "" -> u <> "" ->
  slotOf p <> slotOf q ->
  exists a b r e1 e2,
    fill t p sf = Return (a, e1) /\ fill u q a = Return (r, e2) /\
    fill u q sf = Return (b, e2) /\ fill t p b = Return (r, e1).
Proof.
  intros Ht Hu Hs.
  exists (wr p t sf), (wr q u sf), (wr q u (wr p t sf)), (er p t), (er q u).
  repeat split; try now apply fill_wr.
  rewrite fill_wr by assumption. now rewrite wr_comm.
Qed.

Lemma fill_commute_witness :
  "7" <> "" /\ "(sh)" <> "" /\ slotOf 1 <> slotOf 2 /\
  exists a b r e1 e2,
    fill "7" 1 zeroStatField = Return (a, e1) /\ fill "(sh)" 2 a = Return (r, e2) /\
    fill "(sh)" 2 zeroStatField = Return (b, e2) /\ fill "7" 1 b = Return (r, e1).
Proof.
  split; [discriminate|]. split; [discriminate|]. split; [discriminate|].
  apply (fill_commute 1 2 "7" "(sh)" zeroStatField); discriminate.
Defined.

(** A later [fill] on the same struct field makes the earlier one
    invisible: the record is the one the later [fill] alone gives.  This is
    the case of positions 12 and 13, and of a position decoded twice. *)
Theorem fill_overwrites p q t u sf :
  t <> "" -> u <> "" ->
  slotOf p = slotOf q ->
  exists a r e1 e2,
    fill u q sf = Return (a, e2) /\ fill t p a = Return (r, e1) /\
    fill t p sf = Return (r, e1).
Proof.
  intros Ht Hu Hs.
  exists (wr q u sf), (wr p t sf), (er p t), (er q u).
  repeat split; try now apply fill_wr.
  rewrite fill_wr by assumption. now rewrite wr_absorb.
Qed.

Lemma fill_overwrites_witness :
  "7" <> "" /\ "5" <> "" /\ slotOf 13 = slotOf 12 /\
  exists a r e1 e2,
    fill "5" 12 zeroStatField = Return (a, e2) /\ fill "7" 13 a = Return (r, e1) /\
    fill "7" 13 zeroStatField = Return (r, e1).
Proof.
  split; [discriminate|]. split; [discriminate|]. split; [reflexivity|].
  apply (fill_overwrites 13 12 "7" "5" zeroStatField);
    [discriminate|discriminate|reflexivity].
Defined.

(** ** The tokenizer, call by call *)

(** A stream that [Parse] has set up: the buffer, a cursor inside it or
    at its end, and the length. *)
Lemma next_inv d k e t er' ss' :
  next (st d k e) = Return (t, er', ss') ->
  exists w r,
    forallb tokbyte w = true /\
    t = string_of_list_ascii w /\
    skipn k d = (w ++ match er' with Some _ => LF | None => SP end :: r)%list /\
    ss' = st d (k + List.length w + match er' with Some _ => 0 | None => 1 end) e /\
    (er' = Some erreof \/ er' = None).
Proof.
  rewrite next_scan.
  destruct (scan (skipn k d) []) as [[[t0 e0] n]| |] eqn:E; try discriminate.
  simpl. intros H. inversion H; subst; clear H.
  destruct (scan_inv _ _ _ _ _ E) as (w & r & Hw & Ht & Hc).
  exists w, r. simpl in Ht.
  destruct Hc as [(-> & -> & Hr)|(-> & -> & Hr)];
    (repeat split; [assumption|assumption|assumption| |auto]);
    f_equal; lia.
Qed.

(** What a returning [next] has done: the token is the run of bytes from
    the cursor to the next space or newline and holds neither; a space is
    consumed and comes with a nil error, a newline is left under the cursor
    and comes with [erreof]; the buffer and [end] are never changed. *)
Theorem next_returns_token d k e t er' ss' :
  next (st d k e) = Return (t, er', ss') ->
  forallb tokbyte (list_ascii_of_string t) = true /\
  data ss' = Some d /\ end_ ss' = e /\
  firstn (String.length t) (skipn k d) = list_ascii_of_string t /\
  match er' with
  | None =>
    nth_error d (k + String.length t) = Some SP /\
    cur ss' = Z.of_nat (k + String.length t + 1)
  | Some x =>
    x = erreof /\
    nth_error d (k + String.length t) = Some LF /\
    cur ss' = Z.of_nat (k + String.length t)
  end.
Proof.
  intros H. destruct (next_inv _ _ _ _ _ _ H) as (w & r & Hw & -> & Hs & -> & He).
  rewrite list_ascii_of_string_of_list_ascii.
  assert (Hl : String.length (string_of_list_ascii w) = List.length w).
  { clear. induction w; simpl; congruence. }
  rewrite Hl.
  assert (Hn : forall c, skipn k d = (w ++ c :: r)%list ->
                         nth_error d (k + List.length w) = Some c).
  { intros c Hc. rewrite <- (firstn_skipn k d) at 1.
    assert (Hk : (k <= List.length d)%nat).
    { destruct (Nat.le_gt_cases k (List.length d)) as [?|Hgt]; [assumption|].
      rewrite skipn_all2 in Hc by lia. now destruct w. }
    rewrite nth_error_app2; rewrite length_firstn, Nat.min_l by lia; [|lia].
    replace (k + List.length w - k)%nat with (List.length w) by lia.
    rewrite Hc, nth_error_app2 by lia. now rewrite Nat.sub_diag. }
  split; [assumption|]. split; [reflexivity|]. split; [reflexivity|].
  split.
  - rewrite Hs, firstn_app, firstn_all, Nat.sub_diag. simpl. apply app_nil_r.
  - destruct He as [->| ->]; simpl.
    + split; [reflexivity|]. split; [now apply Hn|]. f_equal. lia.
    + split; [now apply Hn|]. reflexivity.
Qed.

Lemma next_returns_token_witness :
  next (st short_line 2 11) = Return ("(x)", None, st short_line 6 11) /\
  forallb tokbyte (list_ascii_of_string "(x)") = true /\
  data (st short_line 6 11) = Some short_line /\ end_ (st short_line 6 11) = 11 /\
  firstn (String.length "(x)") (skipn 2 short_line) = list_ascii_of_string "(x)" /\
  nth_error short_line (2 + String.length "(x)") = Some SP /\
  cur (st short_line 6 11) = Z.of_nat (2 + String.length "(x)" + 1).
Proof.
  split; [reflexivity|].
  apply (next_returns_token short_line 2 11 "(x)" None (st short_line 6 11)).
  reflexivity.
Defined.

(** On a delimiter [next] returns the empty token: a space is stepped
    over with a nil error; on the newline the stream stays as it is, so
    every later call gives the same answer. *)
Theorem next_on_delimiter d k e :
  (nth_error d k = Some SP ->
   next (st d k e) = Return ("", None, st d (k + 1) e)) /\
  (nth_error d k = Some LF ->
   next (st d k e) = Return ("", Some erreof, st d k e)).
Proof.
  split; intros H; rewrite next_scan, (skipn_nth_error_Some _ _ _ H); simpl;
    [reflexivity|now rewrite Nat.add_0_r].
Qed.

Lemma next_on_delimiter_witness :
  nth_error short_line 10 = Some LF /\
  next (st short_line 10 11) = Return ("", Some erreof, st short_line 10 11).
Proof.
  split; [reflexivity|].
  apply (proj2 (next_on_delimiter short_line 10 11)). reflexivity.
Defined.

(** ** What Parse decodes *)

Lemma tokens_line_tokens bytes :
  has_newline bytes = true -> tokens bytes = Return (line_tokens bytes).
Proof. apply tokens_spec. Qed.

Lemma leading_nonempty ws : Forall (fun w => nonempty w = true) (leading ws).
Proof.
  induction ws as [|w ws IH]; simpl; [constructor|].
  destruct (nonempty w) eqn:E; constructor; assumption.
Qed.

Lemma line_tokens_nonempty bytes : Forall (fun t => t <> "") (line_tokens bytes).
Proof.
  unfold line_tokens. apply Forall_map.
  eapply Forall_impl; [|apply leading_nonempty].
  intros [|c w] H; [discriminate|]. simpl. discriminate.
Qed.

(** The writes of a list of tokens decoded from position [pos] on. *)
Lemma fill_all_returns toks : forall pos sf,
  Forall (fun t => t <> "") toks ->
  exists sf' e, fill_all toks pos sf = Return (sf', e).
Proof.
  induction toks as [|t toks IH]; intros pos sf Hne; simpl.
  - now exists sf, None.
  - inversion Hne as [|? ? Ht Hts]; subst.
    rewrite fill_wr by assumption. simpl.
    destruct (er pos t) as [x|]; [now exists (wr pos t sf), (Some x)|].
    now apply IH.
Qed.

Lemma Parse_line ReadFile s bytes :
  ReadFile (pf s) = (bytes, None) ->
  has_newline bytes = true ->
  exists ss' sf' e,
    fill_all (line_tokens bytes) 1 (fields s) = Return (sf', e) /\
    Parse ReadFile s =
    Return (mkStat (pf s) ss' sf',
            match e with
            | Some x => (None, Some x)
            | None => (Some sf', None)
            end).
Proof.
  intros Hrd Hn. unfold Parse. rewrite Hrd.
  pose proof (tokens_line_tokens bytes Hn) as Ht. unfold tokens in Ht.
  destruct (Parse_loop_tokens _ _ (fields s) 1 _ Ht) as [ss' E].
  destruct (fill_all_returns (line_tokens bytes) 1 (fields s)
              (line_tokens_nonempty bytes)) as (sf' & e & Hf).
  exists ss', sf', e. split; [assumption|].
  rewrite E, Hf. reflexivity.
Qed.

(** On every buffer with a newline [Parse] returns, without a panic: it
    decodes the tokens of the first line up to the first empty piece, in
    order from position 1, and gives the record after the last of them or
    the error of the first one rejected. *)
Theorem Parse_decodes_line ReadFile s bytes :
  ReadFile (pf s) = (bytes, None) ->
  has_newline bytes = true ->
  exists ss' sf' e,
    fill_all (line_tokens bytes) 1 (fields s) = Return (sf', e) /\
    Parse ReadFile s =
    Return (mkStat (pf s) ss' sf',
            match e with
            | Some x => (None, Some x)
            | None => (Some sf', None)
            end).
Proof.
  intros Hrd Hn. unfold Parse. rewrite Hrd.
  pose proof (tokens_spec bytes Hn) as Ht. fold (line_tokens bytes) in Ht.
  unfold tokens in Ht.
  destruct (Parse_loop_tokens _ _ (fields s) 1 _ Ht) as [ss' E].
  destruct (fill_all_returns (line_tokens bytes) 1 (fields s)
              (line_tokens_nonempty bytes)) as (sf' & e & Hf).
  exists ss', sf', e. split; [exact Hf|].
  rewrite E, Hf. destruct e; reflexivity.
Qed.

Lemma Parse_decodes_line_witness :
  file bad_ppid_line (pf (NewStat "/proc/7/stat")) = (bad_ppid_line, None) /\
  has_newline bad_ppid_line = true /\
  exists ss' sf' e,
    fill_all (line_tokens bad_ppid_line) 1 (fields (NewStat "/proc/7/stat")) =
      Return (sf', e) /\
    Parse (file bad_ppid_line) (NewStat "/proc/7/stat") =
    Return (mkStat (pf (NewStat "/proc/7/stat")) ss' sf',
            match e with
            | Some x => (None, Some x)
            | None => (Some sf', None)
            end).
Proof.
  split; [reflexivity|]. split; [reflexivity|].
  apply (Parse_decodes_line (file bad_ppid_line) (NewStat "/proc/7/stat") bad_ppid_line);
    reflexivity.
Defined.

(** ** The tokens Parse draws *)

(** Leaving the record of the tokens out gives the loop of [Parse]. *)
Lemma Parse_trace_loop_forget fuel : forall ss sf pos,
  Parse_loop fuel ss sf pos =
  r <- Parse_trace_loop fuel ss sf pos ;; Return (fst r).
Proof.
  induction fuel as [|fuel IH]; intros ss sf pos; [reflexivity|].
  simpl. destruct (next ss) as [[[field e] ss1]| |]; try reflexivity.
  simpl. destruct (field =? "")%string; [reflexivity|].
  destruct (fill field pos sf) as [[sf1 [x|]]| |]; try reflexivity.
  simpl. rewrite IH.
  destruct (Parse_trace_loop fuel ss1 sf1 (pos + 1)) as [[[[ss' sf'] res] drawn]| |];
    reflexivity.
Qed.

Lemma Parse_trace_forget ReadFile s :
  Parse ReadFile s = r <- Parse_trace ReadFile s ;; Return (fst r).
Proof.
  unfold Parse, Parse_trace. destruct (ReadFile (pf s)) as [bytes [e|]];
    [reflexivity|].
  cbv zeta. rewrite Parse_trace_loop_forget.
  destruct (Parse_trace_loop _ _ _ _) as [[[[ss' sf'] res] drawn]| |]; reflexivity.
Qed.

Lemma Parse_trace_loop_step fuel d k e sf pos :
  Parse_trace_loop (S fuel) (st d k e) sf pos =
  '(t, er, n) <- scan (skipn k d) [] ;;
  if (t =? "")%string then Return (st d (k + n) e, sf, (Some sf, None), [])
  else
    '(sf1, err) <- fill t pos sf ;;
    match err with
    | Some x => Return (st d (k + n) e, sf1, (None, Some x), [t])
    | None =>
      '(ss', sf', res, drawn) <-
        Parse_trace_loop fuel (st d (k + n) e) sf1 (pos + 1) ;;
      Return (ss', sf', res, t :: drawn)
    end.
Proof.
  simpl Parse_trace_loop. rewrite next_scan.
  destruct (scan (skipn k d) []) as [[[t er] n]| |]; reflexivity.
Qed.

Lemma line_app_token w l :
  forallb tokbyte w = true -> line (w ++ l) = (w ++ line l)%list.
Proof.
  induction w as [|c w IH]; intros Hw; [reflexivity|].
  simpl in Hw. apply andb_true_iff in Hw as [Hc Hw].
  unfold tokbyte in Hc. apply andb_true_iff in Hc as [H1 _].
  apply negb_true_iff in H1. simpl. rewrite H1. now rewrite IH.
Qed.

Lemma split_sp_app_token w : forall acc l,
  forallb tokbyte w = true -> split_sp (w ++ l) acc = split_sp l (acc ++ w).
Proof.
  induction w as [|c w IH]; intros acc l Hw; simpl.
  - now rewrite app_nil_r.
  - simpl in Hw. apply andb_true_iff in Hw as [Hc Hw].
    unfold tokbyte in Hc. apply andb_true_iff in Hc as [_ H2].
    apply negb_true_iff in H2. rewrite H2, IH by assumption.
    now rewrite <- app_assoc.
Qed.

(** The tokens of a line that starts with a token and a space, or with a
    token and the newline. *)
Lemma line_tokens_space w r :
  forallb tokbyte w = true ->
  line_tokens (w ++ SP :: r) =
  if nonempty w then string_of_list_ascii w :: line_tokens r else [].
Proof.
  intros Hw. unfold line_tokens.
  rewrite line_app_token by assumption.
  assert (E : line (SP :: r) = SP :: line r) by reflexivity.
  rewrite E, split_sp_app_token by assumption. simpl.
  destruct (nonempty w); reflexivity.
Qed.

Lemma line_tokens_newline w r :
  forallb tokbyte w = true ->
  line_tokens (w ++ LF :: r) =
  if nonempty w then [string_of_list_ascii w] else [].
Proof.
  intros Hw. unfold line_tokens.
  rewrite line_app_token by assumption.
  assert (E : line (LF :: r) = []) by reflexivity.
  rewrite E, split_sp_app_token by assumption. simpl.
  destruct (nonempty w); reflexivity.
Qed.

Lemma line_tokens_at_newline r : line_tokens (LF :: r) = [].
Proof. reflexivity. Qed.

Lemma skipn_app_length {A} (w l : list A) : skipn (List.length w) (w ++ l) = l.
Proof. induction w; simpl; auto. Qed.

(** What a run of the loop draws and returns, from any cursor of any
    buffer: either every token of the line ahead was accepted, and the
    loop drew them all and returns the record after the last; or it drew
    the tokens up to the first one [fill] rejects and returns that error. *)
Lemma Parse_trace_loop_spec fuel : forall d k e sf pos ss' sf' res drawn,
  Parse_trace_loop fuel (st d k e) sf pos = Return (ss', sf', res, drawn) ->
  (res = (Some sf', None) /\
   drawn = line_tokens (skipn k d) /\
   fill_all drawn pos sf = Return (sf', None)) \/
  (exists x pre t rest sfm,
      res = (None, Some x) /\
      drawn = (pre ++ [t])%list /\
      line_tokens (skipn k d) = (pre ++ t :: rest)%list /\
      fill_all pre pos sf = Return (sfm, None) /\
      fill t (pos + Z.of_nat (List.length pre)) sfm = Return (sf', Some x)).
Proof.
  induction fuel as [|fuel IH]; intros d k e sf pos ss' sf' res drawn H;
    [discriminate|].
  rewrite Parse_trace_loop_step in H.
  destruct (scan (skipn k d) []) as [[[t er'] n]| |] eqn:E; try discriminate.
  destruct (scan_inv _ _ _ _ _ E) as (w & r & Hw & Ht & Hc). simpl in Ht.
  cbn [bind] in H.
  destruct (t =? "")%string eqn:Et.
  - apply String.eqb_eq in Et. inversion H; subst ss' sf' res drawn.
    left. split; [reflexivity|]. split; [|reflexivity].
    rewrite Et in Ht. symmetry in Ht. apply string_of_list_ascii_empty in Ht. subst w.
    destruct Hc as [(_ & _ & ->)|(_ & _ & ->)]; reflexivity.
  - apply String.eqb_neq in Et.
    assert (Hne : nonempty w = true).
    { destruct w; [now subst t|reflexivity]. }
    set (suffix := match er' with Some _ => LF :: r | None => r end).
    assert (Hl : line_tokens (skipn k d) = t :: line_tokens suffix).
    { subst suffix. destruct Hc as [(-> & _ & ->)|(-> & _ & ->)].
      - rewrite line_tokens_newline, Hne by assumption. now subst t.
      - rewrite line_tokens_space, Hne by assumption. now subst t. }
    assert (Hk : skipn (k + n) d = suffix).
    { subst suffix. rewrite Nat.add_comm, <- skipn_skipn.
      destruct Hc as [(-> & -> & ->)|(-> & -> & ->)].
      - apply skipn_app_length.
      - change (S (List.length w)) with (1 + List.length w)%nat.
        rewrite <- skipn_skipn, skipn_app_length. reflexivity. }
    rewrite Hl. clearbody suffix.
    destruct (fill t pos sf) as [[sf1 [x|]]| |] eqn:Hf; try discriminate;
      cbn [bind] in H.
    + inversion H; subst ss' sf' res drawn.
      right. exists x, [], t, (line_tokens suffix), sf.
      simpl. rewrite Z.add_0_r. auto.
    + destruct (Parse_trace_loop fuel (st d (k + n) e) sf1 (pos + 1))
        as [[[[ss2 sf2] res2] drawn2]| |] eqn:EP; try discriminate.
      cbn [bind] in H. inversion H; subst ss' sf' res drawn.
      destruct (IH _ _ _ _ _ _ _ _ _ EP)
        as [(Hr & Hd & Ha)|(x & pre & t' & rest & sfm & Hr & Hd & Hlt & Ha & Hx)];
        rewrite Hk in *.
      * left. split; [assumption|]. split; [now rewrite Hd|].
        simpl. rewrite Hf. simpl. exact Ha.
      * right. exists x, (t :: pre), t', rest, sfm.
        split; [assumption|]. split; [now rewrite Hd|].
        split; [now rewrite Hlt|]. split.
        -- simpl. rewrite Hf. simpl. exact Ha.
        -- replace (pos + Z.of_nat (List.length (t :: pre)))
             with (pos + 1 + Z.of_nat (List.length pre))
             by (cbn [List.length]; lia).
           exact Hx.
Qed.

(** The same for [Parse]. *)
Lemma Parse_trace_spec ReadFile s bytes s1 res drawn :
  ReadFile (pf s) = (bytes, None) ->
  Parse_trace ReadFile s = Return (s1, res, drawn) ->
  pf s1 = pf s /\
  ((res = (Some (fields s1), None) /\
    drawn = line_tokens bytes /\
    fill_all drawn 1 (fields s) = Return (fields s1, None)) \/
   (exists x pre t rest sfm,
       res = (None, Some x) /\
       drawn = (pre ++ [t])%list /\
       line_tokens bytes = (pre ++ t :: rest)%list /\
       fill_all pre 1 (fields s) = Return (sfm, None) /\
       fill t (1 + Z.of_nat (List.length pre)) sfm = Return (fields s1, Some x))).
Proof.
  intros Hrd H. unfold Parse_trace in H. rewrite Hrd in H. cbv zeta in H.
  change (mkStatStream (Some bytes) 0 (Z.of_nat (List.length bytes)))
    with (st bytes 0 (Z.of_nat (List.length bytes))) in H.
  destruct (Parse_trace_loop _ _ _ _) as [[[[ss' sf'] res'] drawn']| |] eqn:E;
    try discriminate.
  cbn [bind] in H. inversion H; subst s1 res drawn. simpl.
  split; [reflexivity|].
  exact (Parse_trace_loop_spec _ _ _ _ _ _ _ _ _ _ E).
Qed.

Lemma Parse_returns_trace ReadFile s s1 res :
  Parse ReadFile s = Return (s1, res) ->
  exists drawn, Parse_trace ReadFile s = Return (s1, res, drawn).
Proof.
  rewrite Parse_trace_forget.
  destruct (Parse_trace ReadFile s) as [[[s2 res2] drawn]| |]; try discriminate.
  simpl. intros H. inversion H; subst. now exists drawn.
Qed.

(** A record [Parse] returns is the one the tokens of the line make, all
    of them accepted; an error it returns after a successful read is the
    one of the first token rejected. *)
Lemma Parse_record ReadFile s bytes s1 r :
  ReadFile (pf s) = (bytes, None) ->
  Parse ReadFile s = Return (s1, (Some r, None)) ->
  fill_all (line_tokens bytes) 1 (fields s) = Return (r, None).
Proof.
  intros Hrd H. destruct (Parse_returns_trace _ _ _ _ H) as [drawn Ht].
  destruct (Parse_trace_spec _ _ _ _ _ _ Hrd Ht)
    as [_ [(Hr & Hd & Ha)|(x & pre & t & rest & sfm & Hr & _)]];
    [|discriminate].
  inversion Hr; subst. exact Ha.
Qed.



(** The tokens [Parse] draws on the sample records: all 52 segments of
    [init_line]; four of the nine segments of [bad_ppid_line], the fourth
    being the one rejected; three of the 52 segments of
    [doubled_space_line]. *)
Example Parse_trace_samples :
  (exists s1 r,
      Parse_trace (file init_line) (NewStat "/proc/1/stat") =
      Return (s1, (Some r, None), segments init_line) /\
      List.length (segments init_line) = 52%nat) /\
  (exists s1 x,
      Parse_trace (file bad_ppid_line) (NewStat "/proc/7/stat") =
      Return (s1, (None, Some x), ["7"; "(sh)"; "R"; "x"]) /\
      List.length (segments bad_ppid_line) = 9%nat) /\
  (exists s1 r,
      Parse_trace (file doubled_space_line) (NewStat "/proc/1/stat") =
      Return (s1, (Some r, None), ["1"; "(init)"; "S"]) /\
      List.length (segments doubled_space_line) = 52%nat).
Proof.
  split; [|split]; eexists _, _; split; vm_compute; reflexivity.
Qed.


Lemma fill_all_app a : forall b pos sf,
  fill_all (a ++ b) pos sf =
  '(sf1, e) <- fill_all a pos sf ;;
  match e with
  | Some x => Return (sf1, Some x)
  | None => fill_all b (pos + Z.of_nat (List.length a)) sf1
  end.
Proof.
  induction a as [|t a IH]; intros b pos sf.
  - simpl. now rewrite Z.add_0_r.
  - cbn [app fill_all].
    destruct (fill t pos sf) as [[sf1 [x|]]| |]; cbn [bind]; try reflexivity.
    rewrite IH. cbn [List.length].
    replace (pos + 1 + Z.of_nat (List.length a))
      with (pos + Z.of_nat (S (List.length a))) by lia.
    reflexivity.
Qed.

Lemma fill_all_beyond toks : forall pos sf,
  52 < pos -> fill_all toks pos sf = Return (sf, None).
Proof.
  induction toks as [|t toks IH]; intros pos sf H; [reflexivity|].
  simpl. unfold fill. rewrite fieldParseMap_outside by lia. simpl.
  apply IH. lia.
Qed.

Lemma Forall_firstn_keep {A} (P : A -> Prop) n : forall l,
  Forall P l -> Forall P (firstn n l).
Proof.
  induction n as [|n IH]; intros l H; [constructor|].
  destruct H; simpl; constructor; auto.
Qed.

Lemma fill_all_firstn toks sf :
  Forall (fun t => t <> "") toks ->
  fill_all toks 1 sf = fill_all (firstn 52 toks) 1 sf.
Proof.
  intros Hne. rewrite <- (firstn_skipn 52 toks) at 1.
  rewrite fill_all_app.
  destruct (fill_all_returns (firstn 52 toks) 1 sf) as (sf1 & e & E).
  { now apply Forall_firstn_keep. }
  rewrite E. cbn [bind]. destruct e as [x|]; [reflexivity|].
  destruct (Nat.le_gt_cases 52 (List.length toks)) as [Hl|Hl].
  - rewrite length_firstn, Nat.min_l by assumption. now apply fill_all_beyond.
  - rewrite skipn_all2 by lia. reflexivity.
Qed.

(** The result of [Parse] is determined by the first 52 tokens of the
    first line: the bytes after the first newline and the tokens after the
    52nd change neither the record nor the error. *)
Theorem Parse_first_52_tokens ReadFile1 ReadFile2 s1 s2 b1 b2 :
  ReadFile1 (pf s1) = (b1, None) ->
  ReadFile2 (pf s2) = (b2, None) ->
  fields s1 = fields s2 ->
  has_newline b1 = true ->
  has_newline b2 = true ->
  firstn 52 (line_tokens b1) = firstn 52 (line_tokens b2) ->
  exists s1' s2' res,
    Parse ReadFile1 s1 = Return (s1', res) /\
    Parse ReadFile2 s2 = Return (s2', res) /\
    fields s1' = fields s2'.
Proof.
  intros H1 H2 Hf Hn1 Hn2 Ht.
  destruct (Parse_line ReadFile1 s1 b1 H1 Hn1) as (ss1 & sf1 & e1 & F1 & P1).
  destruct (Parse_line ReadFile2 s2 b2 H2 Hn2) as (ss2 & sf2 & e2 & F2 & P2).
  rewrite fill_all_firstn in F1, F2 by apply line_tokens_nonempty.
  rewrite Ht, Hf, F2 in F1. inversion F1; subst.
  eexists _, _, _. split; [exact P1|]. split; [exact P2|]. reflexivity.
Qed.

Lemma Parse_first_52_tokens_witness :
  file init_line (pf (NewStat "/proc/1/stat")) = (init_line, None) /\
  file init_line_extra (pf (NewStat "/proc/1/stat")) = (init_line_extra, None) /\
  has_newline init_line = true /\
  has_newline init_line_extra = true /\
  firstn 52 (line_tokens init_line) = firstn 52 (line_tokens init_line_extra) /\
  exists s1' s2' res,
    Parse (file init_line) (NewStat "/proc/1/stat") = Return (s1', res) /\
    Parse (file init_line_extra) (NewStat "/proc/1/stat") = Return (s2', res) /\
    fields s1' = fields s2'.
Proof.
  do 5 (split; [vm_compute; reflexivity|]).
  apply (Parse_first_52_tokens (file init_line) (file init_line_extra)
           (NewStat "/proc/1/stat") (NewStat "/proc/1/stat")
           init_line init_line_extra); vm_compute; reflexivity.
Defined.

(** ** The fields of a decoded record *)

Lemma fill_all_frame toks : forall pos sf sf' e k,
  fill_all toks pos sf = Return (sf', e) ->
  (forall j, (j < List.length toks)%nat -> slotOf (pos + Z.of_nat j) <> k) ->
  fieldAt k sf' = fieldAt k sf.
Proof.
  induction toks as [|t toks IH]; intros pos sf sf' e k H Hk.
  - simpl in H. now inversion H.
  - simpl in H. destruct (fill t pos sf) as [[sf1 [x|]]| |] eqn:Hf; try discriminate;
      simpl in H.
    + inversion H; subst. apply fill_returns_wr in Hf. subst.
      apply wr_frame. specialize (Hk 0%nat ltac:(simpl; lia)).
      rewrite Z.add_0_r in Hk. congruence.
    + rewrite (IH _ _ _ _ k H).
      * apply fill_returns_wr in Hf. subst.
        apply wr_frame. specialize (Hk 0%nat ltac:(simpl; lia)).
        rewrite Z.add_0_r in Hk. congruence.
      * intros j Hj. specialize (Hk (S j) ltac:(simpl; lia)).
        replace (pos + 1 + Z.of_nat j) with (pos + Z.of_nat (S j)) by lia.
        assumption.
Qed.

(** What [fill] puts into the field of its position depends on the token
    only. *)
Lemma fill_value_independent tok pos sf1 sf2 a b e1 e2 :
  fill tok pos sf1 = Return (a, e1) ->
  fill tok pos sf2 = Return (b, e2) ->
  fieldAt (slotOf pos) a = fieldAt (slotOf pos) b.
Proof.
  intros H1 H2.
  destruct (position_dec pos) as [Hp|Hp].
  - apply positions_spec in Hp.
    pose proof (fill_returns_wr _ _ _ _ _ H1) as ->.
    pose proof (fill_returns_wr _ _ _ _ _ H2) as ->.
    destruct sf1, sf2; each_position Hp;
      first [ reflexivity
            | destruct tok; [discriminate H1|reflexivity] ].
  - unfold slotOf. destruct (pos =? 13) eqn:E; [lia|].
    now rewrite !fieldAt_outside.
Qed.

Lemma fill_all_field toks : forall pos sf sf' i tok sf0 sf1 e,
  fill_all toks pos sf = Return (sf', None) ->
  nth_error toks i = Some tok ->
  (forall j, (i < j < List.length toks)%nat ->
             slotOf (pos + Z.of_nat j) <> slotOf (pos + Z.of_nat i)) ->
  fill tok (pos + Z.of_nat i) sf0 = Return (sf1, e) ->
  fieldAt (slotOf (pos + Z.of_nat i)) sf' = fieldAt (slotOf (pos + Z.of_nat i)) sf1.
Proof.
  induction toks as [|t toks IH]; intros pos sf sf' i tok sf0 sf1 e H Hn Hs Hf.
  - destruct i; discriminate.
  - simpl in H. destruct (fill t pos sf) as [[sf2 [x|]]| |] eqn:Hfill; try discriminate.
    simpl in H. destruct i as [|i].
    + simpl in Hn. inversion Hn; subst t. rewrite Z.add_0_r in *.
      rewrite (fill_all_frame _ _ _ _ _ (slotOf pos) H).
      * exact (fill_value_independent _ _ _ _ _ _ _ _ Hfill Hf).
      * intros j Hj. specialize (Hs (S j) ltac:(simpl; lia)).
        replace (pos + 1 + Z.of_nat j) with (pos + Z.of_nat (S j)) by lia.
        assumption.
    + simpl in Hn.
      replace (pos + Z.of_nat (S i)) with (pos + 1 + Z.of_nat i) in * by lia.
      apply (IH (pos + 1) sf2 sf' i tok sf0 sf1 e H Hn); [|assumption].
      intros j Hj. specialize (Hs (S j) ltac:(simpl; lia)).
      replace (pos + Z.of_nat (S j)) with (pos + 1 + Z.of_nat j) in Hs by lia.
      assumption.
Qed.

(** In a record [Parse] returns, the field of the [i+1]-th token holds what
    [fill] makes of that token alone, given any record; the one exception
    is the 12th token when a 13th follows, whose field the 13th
    overwrites. *)
Theorem Parse_fields ReadFile s bytes s1 r i tok sf0 sf1 e :
  ReadFile (pf s) = (bytes, None) ->
  Parse ReadFile s = Return (s1, (Some r, None)) ->
  nth_error (line_tokens bytes) i = Some tok ->
  (i = 11%nat -> (List.length (line_tokens bytes) <= 12)%nat) ->
  fill tok (Z.of_nat i + 1) sf0 = Return (sf1, e) ->
  fieldAt (slotOf (Z.of_nat i + 1)) r = fieldAt (slotOf (Z.of_nat i + 1)) sf1.
Proof.
  intros Hrd HP Hi H12 Hf.
  pose proof (Parse_record ReadFile s bytes s1 r Hrd HP) as F.
  replace (Z.of_nat i + 1) with (1 + Z.of_nat i) in * by lia.
  apply (fill_all_field _ _ _ _ _ _ sf0 _ e F Hi); [|assumption].
  intros j Hj. unfold slotOf.
  destruct (Z.eqb_spec (1 + Z.of_nat j) 13), (Z.eqb_spec (1 + Z.of_nat i) 13); lia.
Qed.

Lemma Parse_fields_witness :
  file gap_line (pf (NewStat "/proc/5/stat")) = (gap_line, None) /\
  Parse (file gap_line) (NewStat "/proc/5/stat") =
    Return (mkStat "/proc/5/stat" (st gap_line 7 11)
                   (set_Comm "(x)" (set_Pid 5 zeroStatField)),
            (Some (set_Comm "(x)" (set_Pid 5 zeroStatField)), None)) /\
  nth_error (line_tokens gap_line) 0 = Some "5" /\
  fill "5" (Z.of_nat 0 + 1) (fields bash_stat) =
    Return (set_Pid 5 (fields bash_stat), None) /\
  fieldAt (slotOf (Z.of_nat 0 + 1)) (set_Comm "(x)" (set_Pid 5 zeroStatField)) =
    fieldAt (slotOf (Z.of_nat 0 + 1)) (set_Pid 5 (fields bash_stat)).
Proof.
  split; [reflexivity|]. split; [vm_compute; reflexivity|].
  split; [reflexivity|]. split; [vm_compute; reflexivity|].
  apply (Parse_fields (file gap_line) (NewStat "/proc/5/stat") gap_line
           (mkStat "/proc/5/stat" (st gap_line 7 11)
                   (set_Comm "(x)" (set_Pid 5 zeroStatField)))
           (set_Comm "(x)" (set_Pid 5 zeroStatField)) 0 "5" (fields bash_stat)
           (set_Pid 5 (fields bash_stat)) None);
    [reflexivity|vm_compute; reflexivity|reflexivity|discriminate|vm_compute; reflexivity].
Defined.

(** The fields whose number is beyond the number of tokens keep the value
    the [Stat] held before: zero after [NewStat]. *)
Theorem Parse_untouched_fields ReadFile s bytes s1 r k :
  ReadFile (pf s) = (bytes, None) ->
  Parse ReadFile s = Return (s1, (Some r, None)) ->
  Z.of_nat (List.length (line_tokens bytes)) < k ->
  fieldAt k r = fieldAt k (fields s).
Proof.
  intros Hrd HP Hk.
  pose proof (Parse_record ReadFile s bytes s1 r Hrd HP) as F.
  apply (fill_all_frame _ _ _ _ _ k F).
  intros j Hj. unfold slotOf. destruct (Z.eqb_spec (1 + Z.of_nat j) 13); lia.
Qed.

Lemma Parse_untouched_fields_witness :
  file gap_line (pf (NewStat "/proc/5/stat")) = (gap_line, None) /\
  Parse (file gap_line) (NewStat "/proc/5/stat") =
    Return (mkStat "/proc/5/stat" (st gap_line 7 11)
                   (set_Comm "(x)" (set_Pid 5 zeroStatField)),
            (Some (set_Comm "(x)" (set_Pid 5 zeroStatField)), None)) /\
  Z.of_nat (List.length (line_tokens gap_line)) < 3 /\
  fieldAt 3 (set_Comm "(x)" (set_Pid 5 zeroStatField)) =
  fieldAt 3 (fields (NewStat "/proc/5/stat")).
Proof.
  split; [reflexivity|]. split; [vm_compute; reflexivity|].
  split; [reflexivity|].
  apply (Parse_untouched_fields (file gap_line) (NewStat "/proc/5/stat") gap_line
           (mkStat "/proc/5/stat" (st gap_line 7 11)
                   (set_Comm "(x)" (set_Pid 5 zeroStatField)))
           _ 3);
    [reflexivity|vm_compute; reflexivity|reflexivity].
Defined.

(** ** Buffers without a newline *)

Lemma split_sp_not_nil l : forall acc, split_sp l acc <> [].
Proof.
  induction l as [|c l IH]; intros acc; simpl; [discriminate|].
  destruct (c =? SP)%char; [discriminate|apply IH].
Qed.

Lemma tokens_loop_unterminated fuel : forall l pre e,
  no_newline l = true ->
  forallb nonempty (removelast (split_sp l [])) = true ->
  (List.length l < fuel)%nat ->
  tokens_loop fuel (st (pre ++ l) (List.length pre) e) = Panic.
Proof.
  induction fuel as [|fuel IH]; intros l pre e Hl Hs Hf; [lia|].
  rewrite tokens_loop_step, skipn_app, skipn_all, Nat.sub_diag. simpl skipn.
  rewrite app_nil_l.
  destruct (first_piece l [] Hl) as (w & Hw & [[-> Hsp]|(l' & -> & Hsp & Hl')]);
    simpl in Hsp.
  - now rewrite scan_unterminated.
  - rewrite Hsp in Hs. rewrite scan_space by assumption. simpl app.
    assert (Hsplit : split_sp l' [] <> []) by apply split_sp_not_nil.
    destruct (split_sp l' []) as [|p ps] eqn:Ep; [congruence|].
    cbn [removelast] in Hs. simpl in Hs.
    apply andb_true_iff in Hs as [Hwne Hs].
    destruct w as [|c w]; [discriminate|].
    rewrite length_app in Hf. simpl in Hf.
    cbn [bind string_of_list_ascii String.eqb].
    replace (pre ++ (c :: w) ++ SP :: l')%list
      with ((pre ++ (c :: w) ++ [SP]) ++ l')%list
      by (now rewrite <- !app_assoc).
    replace (List.length pre + S (List.length (c :: w)))%nat
      with (List.length (pre ++ (c :: w) ++ [SP]))
      by (rewrite !length_app; simpl; lia).
    rewrite IH; try assumption; [reflexivity| |lia].
    rewrite Ep. exact Hs.
Qed.

Lemma Parse_loop_tokens_panic fuel : forall ss sf pos,
  tokens_loop fuel ss = Panic ->
  Parse_loop fuel ss sf pos = Panic \/
  exists ss' sf' x, Parse_loop fuel ss sf pos = Return (ss', sf', (None, Some x)).
Proof.
  induction fuel as [|fuel IH]; intros ss sf pos H; [discriminate|].
  simpl in H |- *. destruct (next ss) as [[[field e] ss1]| |]; try discriminate;
    [|now left].
  simpl in H |- *. destruct (field =? "")%string; [discriminate|].
  destruct (fill field pos sf) as [[sf1 [x|]]| |] eqn:Hf; simpl.
  - right. now exists ss1, sf1, x.
  - apply IH. destruct (tokens_loop fuel ss1); simpl in H; congruence.
  - now left.
  - exfalso. exact (fill_fuel _ _ _ Hf).
Qed.

Lemma no_newline_iff bytes : has_newline bytes = false -> no_newline bytes = true.
Proof.
  unfold has_newline, no_newline.
  induction bytes as [|c bytes IH]; simpl; [reflexivity|].
  intros H. apply orb_false_iff in H as [Hc H]. rewrite Hc. simpl. now apply IH.
Qed.

(** A buffer without a newline in which every token but the last is
    followed by exactly one space (the empty buffer included) never decodes
    to a record: [Parse] panics at the end of the buffer, unless a field
    error ends it before. *)
Theorem Parse_without_newline ReadFile s bytes :
  ReadFile (pf s) = (bytes, None) ->
  has_newline bytes = false ->
  forallb nonempty (removelast (split_sp bytes [])) = true ->
  Parse ReadFile s = Panic \/
  exists s1 x, Parse ReadFile s = Return (s1, (None, Some x)).
Proof.
  intros Hrd Hn Hs. unfold Parse. rewrite Hrd.
  pose proof (tokens_loop_unterminated (S (List.length bytes)) bytes []
                (Z.of_nat (List.length bytes)) (no_newline_iff _ Hn) Hs
                ltac:(lia)) as Ht.
  simpl app in Ht.
  destruct (Parse_loop_tokens_panic _ _ (fields s) 1 Ht) as [E|(ss' & sf' & x & E)].
  - left. unfold st in E. simpl Z.of_nat in E. now rewrite E.
  - right. unfold st in E. simpl Z.of_nat in E. rewrite E. simpl.
    now eexists _, _.
Qed.

Lemma Parse_without_newline_witness :
  file unterminated_line (pf (NewStat "/proc/1/stat")) = (unterminated_line, None) /\
  has_newline unterminated_line = false /\
  forallb nonempty (removelast (split_sp unterminated_line [])) = true /\
  (Parse (file unterminated_line) (NewStat "/proc/1/stat") = Panic \/
   exists s1 x,
     Parse (file unterminated_line) (NewStat "/proc/1/stat") =
     Return (s1, (None, Some x))).
Proof.
  do 3 (split; [vm_compute; reflexivity|]).
  apply (Parse_without_newline (file unterminated_line) (NewStat "/proc/1/stat")
           unterminated_line); vm_compute; reflexivity.
Defined.

(** ** The errors Parse returns *)

Lemma ParseUint_loop_error s0 base maxVal cutoff cs : forall n v e,
  strconv.ParseUint_loop s0 base maxVal cutoff cs n = (v, Some e) ->
  strconv.Num e = s0 /\
  (strconv.Err e = strconv.ErrSyntax \/ strconv.Err e = strconv.ErrRange).
Proof.
  induction cs as [|c cs IH]; intros n v e H; cbn [strconv.ParseUint_loop] in H;
    [discriminate|].
  destruct (strconv.digit (byteZ c)) as [d|]; [|inversion H; auto].
  destruct (d >=? base); [inversion H; auto|].
  destruct (n >=? cutoff); [inversion H; auto|].
  cbv zeta in H.
  match type of H with
  | (if ?b then _ else _) = _ => destruct b; [inversion H; auto|]
  end.
  exact (IH _ _ _ H).
Qed.

Lemma ParseUint_error tok w v e :
  In w widths ->
  strconv.ParseUint tok 10 w = (v, Some e) ->
  strconv.Num e = tok /\
  (strconv.Err e = strconv.ErrSyntax \/ strconv.Err e = strconv.ErrRange).
Proof.
  intros Hw. unfold strconv.ParseUint.
  destruct (tok =? "")%string; [intros E; inversion E; auto|].
  each_width Hw; cbn [Z.leb Z.geb Z.gtb Z.compare Pos.compare Pos.compare_cont
                        andb orb negb];
    apply ParseUint_loop_error.
Qed.

Lemma ParseInt_error tok w v e :
  In w widths ->
  strconv.ParseInt tok 10 w = (v, Some e) ->
  strconv.Num e = tok /\
  (strconv.Err e = strconv.ErrSyntax \/ strconv.Err e = strconv.ErrRange).
Proof.
  intros Hw H.
  destruct (string_dec tok "") as [->|Hne].
  { cbn [strconv.ParseInt] in H. inversion H; auto. }
  rewrite ParseInt_sign in H by assumption.
  destruct (strconv.ParseUint (snd (strip_sign tok)) 10 w) as [un [[f n k]|]] eqn:EU.
  - pose proof (ParseUint_error _ _ _ _ Hw EU) as [_ Hk]. simpl in Hk.
    destruct k; cbv zeta in H;
      repeat match type of H with
             | (if ?b then _ else _) = _ => destruct b
             end; inversion H; subst; simpl; auto;
      destruct Hk; discriminate.
  - cbv zeta in H.
    repeat match type of H with
           | (if ?b then _ else _) = _ => destruct b
           end; inversion H; subst; simpl; auto.
Qed.

Lemma er_NumErr pos tok x :
  er pos tok = Some x ->
  exists e,
    x = NumErr e /\ strconv.Num e = tok /\
    (strconv.Err e = strconv.ErrSyntax \/ strconv.Err e = strconv.ErrRange).
Proof.
  intros H.
  unfold er in H. destruct (position_dec pos) as [Hp|Hp];
    [|rewrite fieldParseMap_outside in H by assumption; discriminate].
  apply positions_spec in Hp.
  each_position Hp; cbv [fieldParseMap assign] in H; cbn [fst snd] in H;
    try discriminate;
    try (destruct (list_ascii_of_string tok); discriminate);
    match type of H with
    | snd (int32Cover _) = _ =>
      unfold int32Cover in H;
      destruct (strconv.ParseInt tok 10 32) as [v [e|]] eqn:E;
      [|discriminate]; inversion H; subst;
      exists e; split; [reflexivity|];
      apply (ParseInt_error _ 32 _ _ ltac:(simpl; tauto) E)
    | snd (int64Cover _) = _ =>
      unfold int64Cover in H;
      destruct (strconv.ParseInt tok 10 64) as [v [e|]] eqn:E;
      [|discriminate]; inversion H; subst;
      exists e; split; [reflexivity|];
      apply (ParseInt_error _ 64 _ _ ltac:(simpl; tauto) E)
    | snd (uint32Cover _) = _ =>
      unfold uint32Cover in H;
      destruct (strconv.ParseUint tok 10 32) as [v [e|]] eqn:E;
      [|discriminate]; inversion H; subst;
      exists e; split; [reflexivity|];
      apply (ParseUint_error _ 32 _ _ ltac:(simpl; tauto) E)
    | snd (uint64Cover _) = _ =>
      unfold uint64Cover in H;
      destruct (strconv.ParseUint tok 10 64) as [v [e|]] eqn:E;
      [|discriminate]; inversion H; subst;
      exists e; split; [reflexivity|];
      apply (ParseUint_error _ 64 _ _ ltac:(simpl; tauto) E)
    end.
Qed.

(** The error that ends a run of the loop is a [*strconv.NumError] that
    names a non-empty token without delimiters. *)
Lemma Parse_loop_error_token fuel : forall d k e sf pos ss' sf' r x,
  Parse_loop fuel (st d k e) sf pos = Return (ss', sf', (r, Some x)) ->
  exists ne,
    x = NumErr ne /\
    strconv.Num ne <> "" /\
    forallb tokbyte (list_ascii_of_string (strconv.Num ne)) = true.
Proof.
  induction fuel as [|fuel IH]; intros d k e sf pos ss' sf' r x H; [discriminate|].
  rewrite Parse_loop_step in H.
  destruct (scan (skipn k d) []) as [[[t er'] n]| |] eqn:E; try discriminate.
  simpl in H. destruct (t =? "")%string eqn:Et; [discriminate|].
  apply String.eqb_neq in Et. rewrite fill_wr in H by assumption. simpl in H.
  destruct (er pos t) as [y|] eqn:Ey.
  - inversion H; subst.
    destruct (er_NumErr _ _ _ Ey) as (ne & -> & Hnum & _).
    destruct (scan_inv _ _ _ _ _ E) as (w & r0 & Hw & Ht & _). simpl in Ht.
    exists ne. rewrite Hnum. split; [reflexivity|]. split; [assumption|].
    rewrite Ht. now rewrite list_ascii_of_string_of_list_ascii.
  - exact (IH _ _ _ _ _ _ _ _ _ H).
Qed.

(** An error [Parse] returns after a successful read is never [erreof]: it
    is the [*strconv.NumError] of the first token of the line that [fill]
    rejects at its position, every token before it having been accepted.
    Its [Num] is that token, which is not empty and holds no delimiter; its
    [Err] is the syntax or the range error; no record comes with it, and
    [s.fields] is left as the rejecting [fill] wrote it. *)
Theorem Parse_error_names_token ReadFile s bytes s1 r x :
  ReadFile (pf s) = (bytes, None) ->
  Parse ReadFile s = Return (s1, (r, Some x)) ->
  exists e pre rest sfm,
    x = NumErr e /\
    (strconv.Err e = strconv.ErrSyntax \/ strconv.Err e = strconv.ErrRange) /\
    strconv.Num e <> "" /\
    forallb tokbyte (list_ascii_of_string (strconv.Num e)) = true /\
    line_tokens bytes = (pre ++ strconv.Num e :: rest)%list /\
    fill_all pre 1 (fields s) = Return (sfm, None) /\
    fill (strconv.Num e) (1 + Z.of_nat (List.length pre)) sfm =
      Return (fields s1, Some x) /\
    r = None.
Proof.
  intros Hrd HP.
  destruct (Parse_returns_trace _ _ _ _ HP) as [drawn Ht].
  destruct (Parse_trace_spec _ _ _ _ _ _ Hrd Ht)
    as [_ [(Hr & _)|(x' & pre & t & rest & sfm & Hr & _ & Hl & Ha & Hx)]];
    [discriminate Hr|].
  inversion Hr; subst r x'.
  assert (Hne : t <> "").
  { pose proof (line_tokens_nonempty bytes) as Hall. rewrite Hl in Hall.
    apply Forall_app in Hall as [_ Hall]. now inversion Hall. }
  pose proof Hx as Her. rewrite fill_wr in Her by assumption.
  assert (Hex : er (1 + Z.of_nat (List.length pre)) t = Some x) by congruence.
  destruct (er_NumErr _ _ _ Hex) as (e & -> & Hnum & Hkind).
  assert (Htok : strconv.Num e <> "" /\
                 forallb tokbyte (list_ascii_of_string (strconv.Num e)) = true).
  { unfold Parse in HP. rewrite Hrd in HP.
    change (mkStatStream (Some bytes) 0 (Z.of_nat (List.length bytes)))
      with (st bytes 0 (Z.of_nat (List.length bytes))) in HP.
    destruct (Parse_loop _ _ _ _) as [[[ss' sf'] [r' [y|]]]| |] eqn:E;
      cbn [bind] in HP; inversion HP; subst.
    destruct (Parse_loop_error_token _ _ _ _ _ _ _ _ _ _ E) as (ne & Hy & H1 & H2).
    inversion Hy; subst ne. now split. }
  destruct Htok as [H1 H2]. subst t.
  exists e, pre, rest, sfm. auto 10.
Qed.

Lemma Parse_error_names_token_witness :
  file bad_ppid_line (pf (NewStat "/proc/7/stat")) = (bad_ppid_line, None) /\
  Parse (file bad_ppid_line) (NewStat "/proc/7/stat") =
    Return (mkStat "/proc/7/stat" (st bad_ppid_line 11 28)
              (set_PPid 0 (set_State Running (set_Comm "(sh)" (set_Pid 7 zeroStatField)))),
            (None, Some (NumErr (strconv.mkNumError "ParseInt" "x" strconv.ErrSyntax)))) /\
  exists e pre rest sfm,
    NumErr (strconv.mkNumError "ParseInt" "x" strconv.ErrSyntax) = NumErr e /\
    (strconv.Err e = strconv.ErrSyntax \/ strconv.Err e = strconv.ErrRange) /\
    strconv.Num e <> "" /\
    forallb tokbyte (list_ascii_of_string (strconv.Num e)) = true /\
    line_tokens bad_ppid_line = (pre ++ strconv.Num e :: rest)%list /\
    fill_all pre 1 (fields (NewStat "/proc/7/stat")) = Return (sfm, None) /\
    fill (strconv.Num e) (1 + Z.of_nat (List.length pre)) sfm =
      Return (set_PPid 0 (set_State Running (set_Comm "(sh)" (set_Pid 7 zeroStatField))),
              Some (NumErr (strconv.mkNumError "ParseInt" "x" strconv.ErrSyntax))) /\
    @None StatField = None.
Proof.
  split; [reflexivity|]. split; [vm_compute; reflexivity|].
  apply (Parse_error_names_token (file bad_ppid_line) (NewStat "/proc/7/stat")
           bad_ppid_line
           (mkStat "/proc/7/stat" (st bad_ppid_line 11 28)
              (set_PPid 0 (set_State Running (set_Comm "(sh)" (set_Pid 7 zeroStatField)))))
           None);
    [reflexivity|vm_compute; reflexivity].
Defined.

(** ** Every field stays within its declared type *)

Lemma intN_fits w z : In w [8; 16; 32; 64] -> fits true w (intN w z) = true.
Proof.
  intros Hw. unfold fits, intN.
  assert (Hp : 0 < 2 ^ w) by (apply Z.pow_pos_nonneg; simpl in Hw; lia).
  pose proof (Z.mod_pos_bound (z + 2 ^ (w - 1)) (2 ^ w) Hp) as Hb.
  assert (E : 2 ^ w = 2 * 2 ^ (w - 1)).
  { simpl in Hw. destruct Hw as [<-|[<-|[<-|[<-|[]]]]]; reflexivity. }
  apply andb_true_iff. split; lia.
Qed.

Lemma uintN_fits w z : In w [16; 32; 64] -> fits false w (uintN w z) = true.
Proof.
  intros Hw. unfold fits, uintN.
  assert (Hp : 0 < 2 ^ w) by (apply Z.pow_pos_nonneg; simpl in Hw; lia).
  pose proof (Z.mod_pos_bound z (2 ^ w) Hp) as Hb.
  apply andb_true_iff. split; lia.
Qed.

Lemma ParseUint_loop_range s0 base maxVal cutoff cs : forall n,
  0 <= n <= maxVal ->
  0 <= fst (strconv.ParseUint_loop s0 base maxVal cutoff cs n) <= maxVal.
Proof.
  induction cs as [|c cs IH]; intros n Hn; cbn [strconv.ParseUint_loop].
  - assumption.
  - destruct (strconv.digit (byteZ c)) as [d|]; [|cbn [fst]; lia].
    destruct (d >=? base); [cbn [fst]; lia|].
    destruct (n >=? cutoff); [cbn [fst]; lia|].
    cbv zeta.
    destruct (Z.ltb_spec (uint64 (uint64 (n * base) + d)) (uint64 (n * base)));
      cbn [orb]; [cbn [fst]; lia|].
    destruct (Z.gtb_spec (uint64 (uint64 (n * base) + d)) maxVal); [cbn [fst]; lia|].
    apply IH. split; [|assumption].
    unfold uint64, uintN. apply Z.mod_pos_bound. reflexivity.
Qed.

Lemma ParseUint_fits tok : fits false 64 (fst (strconv.ParseUint tok 10 64)) = true.
Proof.
  unfold strconv.ParseUint. destruct (tok =? "")%string; [reflexivity|].
  cbn [Z.leb Z.geb Z.gtb Z.compare Pos.compare Pos.compare_cont andb orb negb].
  cbv zeta.
  change (uint64 (uint64 (Z.shiftl 1 64) - 1)) with 18446744073709551615.
  pose proof (ParseUint_loop_range tok 10 18446744073709551615
                (strconv.maxUint64 / 10 + 1) (list_ascii_of_string tok) 0
                ltac:(lia)) as H.
  revert H. generalize (fst (strconv.ParseUint_loop tok 10 18446744073709551615
                (strconv.maxUint64 / 10 + 1) (list_ascii_of_string tok) 0)) as v.
  intros v H. unfold fits. change (2 ^ 64 - 1) with 18446744073709551615.
  apply andb_true_iff. split; lia.
Qed.

Lemma int64_fits z : fits true 64 (int64 z) = true.
Proof. apply intN_fits. simpl; tauto. Qed.

Lemma ParseInt_fits tok : fits true 64 (fst (strconv.ParseInt tok 10 64)) = true.
Proof.
  unfold strconv.ParseInt. destruct tok as [|c rest]; [reflexivity|].
  destruct (c =? "+")%char; [|destruct (c =? "-")%char];
    match goal with
    | |- context [strconv.ParseUint ?s 10 64] =>
      destruct (strconv.ParseUint s 10 64) as [un [[f n k]|]]
    end;
    try destruct k; cbv zeta;
    repeat match goal with
           | |- context [if ?b then _ else _] => destruct b
           end;
    cbn [fst]; first [ reflexivity | apply int64_fits ].
Qed.

Lemma coverOf_fits signed w tok :
  In w [32; 64] -> fits signed w (fst (coverOf signed w tok)) = true.
Proof.
  intros Hw. simpl in Hw.
  destruct Hw as [<-|[<-|[]]]; destruct signed; unfold coverOf; cbn [Z.eqb Pos.eqb].
  - unfold int32Cover. destruct (strconv.ParseInt tok 10 32) as [v [e|]];
      [reflexivity|]. apply (intN_fits 32). simpl; tauto.
  - unfold uint32Cover. destruct (strconv.ParseUint tok 10 32) as [v [e|]];
      [reflexivity|]. apply (uintN_fits 32). simpl; tauto.
  - unfold int64Cover. destruct (strconv.ParseInt tok 10 64) as [v e] eqn:E.
    pose proof (ParseInt_fits tok) as H. now rewrite E in H.
  - unfold uint64Cover. destruct (strconv.ParseUint tok 10 64) as [v e] eqn:E.
    pose proof (ParseUint_fits tok) as H. now rewrite E in H.
Qed.

Lemma declared_slotOf pos x : declared pos = Some x -> declared (slotOf pos) = Some x.
Proof.
  unfold slotOf. destruct (Z.eqb_spec pos 13) as [->|]; [|auto].
  intros H. inversion H. reflexivity.
Qed.

Lemma stateOf_id c : stateOf c = c.
Proof.
  unfold stateOf.
  repeat match goal with
         | |- (if ?c =? ?v then _ else _) = _ =>
           destruct (Z.eqb_spec c v) as [->|_]; [reflexivity|]
         end.
  reflexivity.
Qed.

Lemma well_typed_field sf k :
  well_typed sf = true -> In k positions ->
  exists v, fieldAt k sf = Some v /\ in_type k v = true.
Proof.
  unfold well_typed. rewrite forallb_forall. intros H Hk. specialize (H k Hk).
  destruct (fieldAt k sf) as [v|]; [|discriminate]. now exists v.
Qed.

Lemma undeclared_positions pos :
  In pos positions -> declared pos = None -> pos = 2 \/ pos = 3.
Proof.
  intros Hp Hd. each_position Hp; try discriminate Hd; auto.
Qed.

Lemma wr_name tok sf : fieldAt 2 (wr 2 tok sf) = Some (TextVal tok).
Proof. destruct sf; reflexivity. Qed.

Lemma wr_state c tok sf :
  fieldAt 3 (wr 3 (String c tok) sf) = Some (IntVal (stateOf (int8 (byteZ c)))).
Proof. destruct sf; reflexivity. Qed.

Lemma wr_well_typed pos tok sf :
  well_typed sf = true -> well_typed (wr pos tok sf) = true.
Proof.
  intros Hwt. unfold well_typed. apply forallb_forall. intros k Hk.
  destruct (Z.eq_dec k (slotOf pos)) as [->|Hne].
  2:{ rewrite wr_frame by assumption.
      destruct (well_typed_field sf k Hwt Hk) as (v & -> & Hv). exact Hv. }
  destruct (declared pos) as [[signed w]|] eqn:Hd.
  - destruct (fill_declared_value pos signed w tok sf Hd) as (sf' & Hfill & Hval).
    apply fill_returns_wr in Hfill. subst sf'. rewrite Hval.
    unfold in_type. rewrite (declared_slotOf _ _ Hd).
    apply coverOf_fits. exact (declared_width _ _ _ Hd).
  - destruct (position_dec pos) as [Hp|Hp].
    + apply positions_spec in Hp.
      destruct (undeclared_positions pos Hp Hd) as [-> | ->];
        change (slotOf 2) with 2 in *; change (slotOf 3) with 3 in *.
      * rewrite wr_name. reflexivity.
      * destruct tok as [|c tok].
        -- change (wr 3 "" sf) with sf.
           destruct (well_typed_field sf 3 Hwt Hk) as (v & -> & Hv). exact Hv.
        -- rewrite wr_state, stateOf_id.
           unfold in_type. cbn [declared Z.eqb Pos.eqb andb].
           apply (intN_fits 8). simpl; tauto.
    + rewrite wr_outside by assumption.
      destruct (well_typed_field sf (slotOf pos) Hwt Hk) as (v & -> & Hv). exact Hv.
Qed.

Lemma apply_writes_well_typed ws : forall sf,
  well_typed sf = true -> well_typed (apply_writes ws sf) = true.
Proof.
  induction ws as [|[p t] ws IH]; intros sf H; [assumption|].
  rewrite apply_writes_cons. apply IH. now apply wr_well_typed.
Qed.

(** Every field of a record [Parse] returns holds a value of its declared
    type, when the fields of the [Stat] did before (as after [NewStat]):
    no conversion stores a value its type cannot hold. *)
Theorem Parse_well_typed ReadFile s s1 r :
  well_typed (fields s) = true ->
  Parse ReadFile s = Return (s1, (Some r, None)) ->
  well_typed r = true.
Proof.
  intros Hwt. unfold Parse. destruct (ReadFile (pf s)) as [bytes [x|]]; [discriminate|].
  change (mkStatStream (Some bytes) 0 (Z.of_nat (List.length bytes)))
    with (st bytes 0 (Z.of_nat (List.length bytes))).
  destruct (Parse_loop_shape (S (List.length bytes)) bytes 0
              (Z.of_nat (List.length bytes)) 1)
    as [H|[H|(ws & k' & [y|] & _ & H)]]; rewrite H; cbn [bind];
    intros E; inversion E; subst.
  now apply apply_writes_well_typed.
Qed.

Lemma Parse_well_typed_witness :
  well_typed (fields (NewStat "/proc/2051/stat")) = true /\
  Parse (file bash_line) (NewStat "/proc/2051/stat") =
    Return (bash_stat, (Some (fields bash_stat), None)) /\
  well_typed (fields bash_stat) = true.
Proof.
  split; [reflexivity|]. split; [vm_compute; reflexivity|].
  apply (Parse_well_typed (file bash_line) (NewStat "/proc/2051/stat") bash_stat);
    [reflexivity|vm_compute; reflexivity].
Defined.

(** ** The state conversion *)

(** C7.  On a non-empty token entry 3 never fails: [fill] returns a nil
    error and a record whose [State] is the code of the token's first byte
    as an [int8].  That code is the named state when the byte is one of the
    eleven state letters (the constants are the letters' codes) and the raw
    byte otherwise.  No other field of the record changes. *)
Theorem state_conversion_never_fails field sf :
  field <> "" ->
  exists d0 rest sf',
    field = String d0 rest /\
    fill field 3 sf = Return (sf', None) /\
    State sf' = int8 (byteZ d0) /\
    stateOf (int8 (byteZ d0)) = int8 (byteZ d0) /\
    (In (byteZ d0)
        [Running; Sleeping; DiskSleep; Zombie; Stopped; TracingStop;
         PagingWaking; Dead; Dead2633To313; Wakekill; Parked] ->
     State sf' = byteZ d0) /\
    sf' = set_State (int8 (byteZ d0)) sf /\
    (forall k, k <> 3 -> fieldAt k sf' = fieldAt k sf).
Proof.
  intros Hne. destruct field as [|d0 rest]; [congruence|].
  assert (Hfill : fill (String d0 rest) 3 sf =
                  Return (set_State (int8 (byteZ d0)) sf, None)).
  { unfold fill, fieldParseMap, bind. simpl list_ascii_of_string.
    cbv beta iota. now rewrite stateOf_id. }
  exists d0, rest, (set_State (int8 (byteZ d0)) sf).
  split; [reflexivity|]. split; [exact Hfill|].
  split; [destruct sf; reflexivity|]. split; [apply stateOf_id|].
  split.
  - intros Hin. replace (State (set_State (int8 (byteZ d0)) sf))
      with (int8 (byteZ d0)) by (destruct sf; reflexivity).
    simpl in Hin.
    repeat (destruct Hin as [Hin|Hin]; [rewrite <- Hin; reflexivity|]).
    contradiction.
  - split; [reflexivity|]. intros k Hk.
    apply fill_returns_wr in Hfill. rewrite Hfill.
    apply wr_frame. exact Hk.
Qed.

Lemma state_conversion_never_fails_witness :
  "S" <> "" /\
  exists d0 rest sf',
    "S" = String d0 rest /\
    fill "S" 3 zeroStatField = Return (sf', None) /\
    State sf' = int8 (byteZ d0) /\
    stateOf (int8 (byteZ d0)) = int8 (byteZ d0) /\
    (In (byteZ d0)
        [Running; Sleeping; DiskSleep; Zombie; Stopped; TracingStop;
         PagingWaking; Dead; Dead2633To313; Wakekill; Parked] ->
     State sf' = byteZ d0) /\
    sf' = set_State (int8 (byteZ d0)) zeroStatField /\
    (forall k, k <> 3 -> fieldAt k sf' = fieldAt k zeroStatField).
Proof.
  split; [discriminate|].
  apply (state_conversion_never_fails "S" zeroStatField). discriminate.
Defined.

(** ** The 16-bit conversions *)

(** [int16Cover] and [uint16Cover], which no entry of the table uses,
    convert a numeral that fits 16 bits to its value and return 0 with the
    range error for any other numeral. *)
Theorem narrow_conversions tok :
  (snd (numeral true tok) <> [] ->
   forallb is_digit (snd (numeral true tok)) = true ->
   int16Cover tok =
   if fits true 16 (numeral_value true tok)
   then (numeral_value true tok, None)
   else (0, Some (NumErr (strconv.rangeError strconv.fnParseInt tok)))) /\
  (snd (numeral false tok) <> [] ->
   forallb is_digit (snd (numeral false tok)) = true ->
   uint16Cover tok =
   if fits false 16 (numeral_value false tok)
   then (numeral_value false tok, None)
   else (0, Some (NumErr (strconv.rangeError strconv.fnParseUint tok)))).
Proof.
  assert (Hw : In 16 widths) by (simpl; tauto).
  unfold numeral_value, numeral. cbn [fst snd]. split; intros Hne Hd.
  - apply list_ascii_of_string_nonempty in Hne. unfold int16Cover.
    destruct (fits true 16 _) eqn:Hfit.
    + rewrite (ParseInt_decimal tok 16 Hw Hne Hd Hfit). f_equal.
      unfold fits in Hfit. apply andb_true_iff in Hfit as [Hlo Hhi].
      revert Hlo Hhi.
      generalize (if fst (strip_sign tok)
                  then - decimal_value (list_ascii_of_string (snd (strip_sign tok))) 0
                  else decimal_value (list_ascii_of_string (snd (strip_sign tok))) 0) as v.
      intros v Hlo Hhi. unfold int16, intN.
      change (2 ^ (16 - 1)) with 32768 in *. change (2 ^ 16) with 65536.
      rewrite Z.mod_small; lia.
    + pose proof (ParseInt_out_of_range tok 16 Hw Hne Hd Hfit) as E.
      destruct (strconv.ParseInt tok 10 16) as [v [e|]]; simpl in E;
        [|discriminate]. now inversion E.
  - apply list_ascii_of_string_nonempty in Hne. unfold uint16Cover.
    rewrite (ParseUint_decimal tok 16 Hw Hne Hd).
    pose proof (decimal_value_ge _ 0 Hd ltac:(lia)) as Hpos.
    unfold fits.
    destruct (Z.leb_spec (decimal_value (list_ascii_of_string tok) 0) (2 ^ 16 - 1)) as [Hle|Hgt].
    + destruct (Z.leb_spec 0 (decimal_value (list_ascii_of_string tok) 0)); [|lia].
      cbn [andb]. f_equal. unfold uint16, uintN.
      change (2 ^ 16) with 65536 in *. rewrite Z.mod_small; lia.
    + rewrite andb_false_r. reflexivity.
Qed.

Lemma narrow_conversions_witness :
  snd (numeral true "-32769") <> [] /\
  forallb is_digit (snd (numeral true "-32769")) = true /\
  int16Cover "-32769" =
  if fits true 16 (numeral_value true "-32769")
  then (numeral_value true "-32769", None)
  else (0, Some (NumErr (strconv.rangeError strconv.fnParseInt "-32769"))).
Proof.
  split; [discriminate|]. split; [reflexivity|].
  apply (proj1 (narrow_conversions "-32769")); [discriminate|reflexivity].
Defined.

(** ** The earlier revision *)

Lemma draft_next_loop_scan fuel : forall d k buf,
  (k <= List.length d)%nat ->
  (List.length d - k < fuel)%nat ->
  draft.next_loop fuel (st d k (Z.of_nat (List.length d))) buf =
  Return (fst (draft_scan (skipn k d) buf),
          st d (k + snd (draft_scan (skipn k d) buf)) (Z.of_nat (List.length d))).
Proof.
  induction fuel as [|fuel IH]; intros d k buf Hk Hf; [lia|].
  simpl draft.next_loop.
  assert (Heof : draft.isEOF (st d k (Z.of_nat (List.length d))) =
                 (k =? List.length d)%nat).
  { unfold draft.isEOF, st. cbn [cur end_].
    destruct (Nat.eqb_spec k (List.length d)) as [->|Hne];
      [apply Z.eqb_refl|apply Z.eqb_neq; lia]. }
  rewrite Heof. destruct (Nat.eqb_spec k (List.length d)) as [E|E].
  - subst k. rewrite skipn_all. simpl. now rewrite Nat.add_0_r.
  - assert (Hlt : (k < List.length d)%nat) by lia.
    unfold isSpace. rewrite at_cur_st.
    destruct (skipn k d) as [|c rest] eqn:Es.
    { exfalso. apply (f_equal (@List.length ascii)) in Es.
      rewrite length_skipn in Es. simpl in Es. lia. }
    assert (E' : skipn (S k) d = rest).
    { change (S k) with (1 + k)%nat. rewrite <- skipn_skipn, Es. reflexivity. }
    simpl. destruct (c =? SP)%char.
    + simpl. rewrite advance_st. now rewrite Nat.add_1_r.
    + simpl. rewrite advance_st, IH by lia. rewrite E'.
      destruct (draft_scan rest (buf ++ [c])) as [t n]. simpl.
      now rewrite Nat.add_succ_r.
Qed.

Lemma draft_next_scan d k :
  (k <= List.length d)%nat ->
  draft.next (st d k (Z.of_nat (List.length d))) =
  Return (fst (draft_scan (skipn k d) []),
          st d (k + snd (draft_scan (skipn k d) [])) (Z.of_nat (List.length d))).
Proof.
  intros Hk. unfold draft.next. rewrite remaining_st.
  apply draft_next_loop_scan; lia.
Qed.

Lemma draft_scan_space w : forall buf r,
  no_space w = true ->
  draft_scan (w ++ SP :: r) buf = (string_of_list_ascii (buf ++ w), S (List.length w)).
Proof.
  induction w as [|c w IH]; intros buf r Hw; simpl.
  - now rewrite app_nil_r.
  - simpl in Hw. apply andb_true_iff in Hw as [Hc Hw].
    apply negb_true_iff in Hc. rewrite Hc, IH by assumption.
    now rewrite <- app_assoc.
Qed.

Lemma draft_scan_end w : forall buf,
  no_space w = true -> draft_scan w buf = ("", List.length w).
Proof.
  induction w as [|c w IH]; intros buf Hw; simpl; [reflexivity|].
  simpl in Hw. apply andb_true_iff in Hw as [Hc Hw].
  apply negb_true_iff in Hc. now rewrite Hc, IH.
Qed.

(** [next] of the earlier revision never reads outside the buffer: it
    returns the bytes up to the next space and steps over the space, a
    newline being a byte like any other; when no space is left it moves to
    the end of the buffer and returns the empty string, so the bytes after
    the last space are dropped. *)
Theorem draft_next_spec pre w r :
  no_space w = true ->
  draft.next (st (pre ++ w ++ SP :: r) (List.length pre)
                 (Z.of_nat (List.length (pre ++ w ++ SP :: r)))) =
    Return (string_of_list_ascii w,
            st (pre ++ w ++ SP :: r) (List.length pre + S (List.length w))
               (Z.of_nat (List.length (pre ++ w ++ SP :: r)))) /\
  draft.next (st (pre ++ w) (List.length pre) (Z.of_nat (List.length (pre ++ w)))) =
    Return ("", st (pre ++ w) (List.length (pre ++ w))
                   (Z.of_nat (List.length (pre ++ w)))).
Proof.
  intros Hw. split.
  - rewrite draft_next_scan by (rewrite length_app; lia).
    rewrite skipn_app, skipn_all, Nat.sub_diag. simpl skipn. rewrite app_nil_l.
    now rewrite draft_scan_space.
  - rewrite draft_next_scan by (rewrite length_app; lia).
    rewrite skipn_app, skipn_all, Nat.sub_diag. simpl skipn. rewrite app_nil_l.
    rewrite draft_scan_end by assumption. simpl. now rewrite length_app.
Qed.

Lemma draft_next_spec_witness :
  no_space (list_ascii_of_string "4194304" ++ [LF]) = true /\
  draft.next (st nine_fields 40 (Z.of_nat (List.length nine_fields))) =
    Return ("", st nine_fields 48 (Z.of_nat (List.length nine_fields))).
Proof.
  split; [reflexivity|].
  exact (proj2 (draft_next_spec
                  (list_ascii_of_string "2051 (bash) S 2040 2051 2051 34816 2077 ")
                  (list_ascii_of_string "4194304" ++ [LF]) [] eq_refl)).
Defined.

(** The first piece of a buffer, as [split_sp] cuts it. *)
Lemma first_piece_any l : forall acc,
  exists w,
    no_space w = true /\
    ((l = w /\ split_sp l acc = [(acc ++ w)%list]) \/
     (exists l',
         l = (w ++ SP :: l')%list /\
         split_sp l acc = (acc ++ w)%list :: split_sp l' [])).
Proof.
  induction l as [|c l IH]; intros acc.
  - exists []. split; [reflexivity|]. left. now rewrite app_nil_r.
  - simpl. destruct (c =? SP)%char eqn:Esp.
    + apply Ascii.eqb_eq in Esp; subst c.
      exists []. split; [reflexivity|]. right. exists l.
      now rewrite app_nil_r.
    + destruct (IH (acc ++ [c])%list) as (w & Hw & Hcase).
      exists (c :: w). split.
      * simpl. now rewrite Esp.
      * rewrite <- app_assoc in Hcase. simpl in Hcase.
        destruct Hcase as [[-> Hs]|(l' & -> & Hs)]; [left|right]; auto.
        exists l'. auto.
Qed.

Lemma draft_fill_wr tok pos sf :
  tok <> "" -> exists f, draft.fill tok pos sf = Return (draft_wr pos tok sf, f).
Proof.
  intros Hne. unfold draft_wr, draft.fill.
  destruct (draft.fieldParseMap pos) as [g|] eqn:E; [|now exists draft.Blank].
  assert (Hg : exists sf' e, g tok sf = Return (sf', e)).
  { unfold draft.fieldParseMap in E.
    repeat match type of E with
           | match ?p with _ => _ end = _ => destruct p; try discriminate
           end;
    inversion E; subst; unfold assign;
      first [ now eexists _, _
            | destruct (draft.int16Cover tok) as [v [e|]]; now eexists _, _
            | destruct tok as [|c tok]; [congruence|]; simpl; now eexists _, _ ]. }
  destruct Hg as (sf' & e & ->). simpl. destruct e; now eexists.
Qed.

Lemma removelast_cons {A} (x : A) l :
  l <> [] -> removelast (x :: l) = x :: removelast l.
Proof. destruct l; [congruence|reflexivity]. Qed.

Lemma draft_Parse_loop_spec fuel : forall l pre sf pos out,
  (List.length l < fuel)%nat ->
  exists k,
    draft.Parse_loop fuel (st (pre ++ l) (List.length pre)
                            (Z.of_nat (List.length (pre ++ l)))) sf pos out =
    Return (st (pre ++ l) k (Z.of_nat (List.length (pre ++ l))),
            draft_fill_all (draft_tokens l) pos sf,
            (out ++ map (String.append " ") (draft_tokens l ++ [""]))%list).
Proof.
  induction fuel as [|fuel IH]; intros l pre sf pos out Hf; [lia|].
  cbn [draft.Parse_loop].
  rewrite draft_next_scan by (rewrite length_app; lia).
  rewrite skipn_app, skipn_all, Nat.sub_diag. simpl skipn. rewrite app_nil_l.
  unfold draft_tokens.
  destruct (first_piece_any l []) as (w & Hw & [[-> Hs]|(l' & -> & Hs)]);
    simpl in Hs; rewrite Hs.
  - rewrite draft_scan_end by assumption. cbn [bind fst snd String.eqb].
    cbn [removelast leading map app]. now eexists.
  - rewrite draft_scan_space by assumption. cbn [app bind fst snd].
    rewrite removelast_cons by apply split_sp_not_nil.
    destruct w as [|c w].
    + cbn [string_of_list_ascii String.eqb leading nonempty map app]. now eexists.
    + cbn [string_of_list_ascii String.eqb leading nonempty map].
      destruct (draft_fill_wr (String c (string_of_list_ascii w)) pos sf
                  ltac:(discriminate)) as [f Hfill].
      rewrite Hfill. cbn [bind].
      rewrite length_app in Hf. simpl in Hf.
      replace (pre ++ (c :: w) ++ SP :: l')%list
        with ((pre ++ (c :: w) ++ [SP]) ++ l')%list
        by (now rewrite <- !app_assoc).
      replace (List.length pre + S (List.length (c :: w)))%nat
        with (List.length (pre ++ (c :: w) ++ [SP]))
        by (rewrite !length_app; simpl; lia).
      destruct (IH l' (pre ++ (c :: w) ++ [SP])%list
                   (draft_wr pos (String c (string_of_list_ascii w)) sf) (pos + 1)
                   (out ++ [String.append " " (String c (string_of_list_ascii w))])%list
                   ltac:(lia)) as [k Hk].
      exists k. rewrite Hk. unfold draft_tokens. cbn [draft_fill_all].
      do 2 f_equal. cbn [app map]. now rewrite <- (app_assoc out).
Qed.

(** [Parse] of the earlier revision returns a record and a nil error for
    every buffer it has read: it never panics and drops every conversion
    error.  The record comes from the pieces between spaces up to the first
    empty one, decoded in order from position 1; the piece after the last
    space (the last field of a record as the kernel writes it) is never
    decoded.  Every token is printed, the final empty one included. *)
Theorem draft_Parse_decodes ReadFile s bytes :
  ReadFile (pf s) = (bytes, None) ->
  exists k,
    draft.Parse ReadFile s =
    Return (mkStat (pf s) (st bytes k (Z.of_nat (List.length bytes)))
                   (draft_fill_all (draft_tokens bytes) 1 (fields s)),
            map (String.append " ") (draft_tokens bytes ++ [""]),
            (Some (draft_fill_all (draft_tokens bytes) 1 (fields s)), None)).
Proof.
  intros Hrd. unfold draft.Parse. rewrite Hrd.
  destruct (draft_Parse_loop_spec (S (List.length bytes)) bytes [] (fields s) 1 []
              ltac:(lia)) as [k Hk].
  simpl app in Hk. unfold st at 1 in Hk. simpl Z.of_nat in Hk.
  exists k. rewrite Hk. reflexivity.
Qed.

Lemma draft_Parse_decodes_witness :
  file nine_fields (pf (NewStat "/proc/2051/stat")) = (nine_fields, None) /\
  draft_tokens nine_fields =
    ["2051"; "(bash)"; "S"; "2040"; "2051"; "2051"; "34816"; "2077"] /\
  exists k,
    draft.Parse (file nine_fields) (NewStat "/proc/2051/stat") =
    Return (mkStat (pf (NewStat "/proc/2051/stat"))
                   (st nine_fields k (Z.of_nat (List.length nine_fields)))
                   (draft_fill_all (draft_tokens nine_fields) 1
                                   (fields (NewStat "/proc/2051/stat"))),
            map (String.append " ") (draft_tokens nine_fields ++ [""]),
            (Some (draft_fill_all (draft_tokens nine_fields) 1
                                  (fields (NewStat "/proc/2051/stat"))), None)).
Proof.
  split; [reflexivity|]. split; [vm_compute; reflexivity|].
  apply (draft_Parse_decodes (file nine_fields) (NewStat "/proc/2051/stat") nine_fields).
  reflexivity.
Defined.

Lemma draft_conversions_law tok :
  snd (numeral true tok) <> [] ->
  forallb is_digit (snd (numeral true tok)) = true ->
  if fits true 16 (numeral_value true tok)
  then
    draft.int16Cover tok = (numeral_value true tok, None) /\
    draft.int32Cover tok = (numeral_value true tok, None)
  else
    draft.int16Cover tok = (0, Some (NumErr (strconv.rangeError strconv.fnParseInt tok))) /\
    draft.int32Cover tok = (0, Some (NumErr (strconv.rangeError strconv.fnParseInt tok))).
Proof.
  assert (Hw : In 16 widths) by (simpl; tauto).
  unfold numeral_value, numeral. cbn [fst snd]. intros Hne Hd.
  apply list_ascii_of_string_nonempty in Hne.
  unfold draft.int16Cover, draft.int32Cover.
  destruct (fits true 16 _) eqn:Hfit.
  - rewrite (ParseInt_decimal tok 16 Hw Hne Hd Hfit).
    unfold fits in Hfit. apply andb_true_iff in Hfit as [Hlo Hhi].
    revert Hlo Hhi.
    generalize (if fst (strip_sign tok)
                then - decimal_value (list_ascii_of_string (snd (strip_sign tok))) 0
                else decimal_value (list_ascii_of_string (snd (strip_sign tok))) 0) as v.
    intros v Hlo Hhi. change (2 ^ (16 - 1)) with 32768 in *.
    split; f_equal; unfold int16, int32, intN;
      [change (2 ^ (16 - 1)) with 32768; change (2 ^ 16) with 65536
      |change (2 ^ (32 - 1)) with 2147483648; change (2 ^ 32) with 4294967296];
      rewrite Z.mod_small; lia.
  - pose proof (ParseInt_out_of_range tok 16 Hw Hne Hd Hfit) as E.
    destruct (strconv.ParseInt tok 10 16) as [v [e|]]; simpl in E; [|discriminate].
    inversion E; subst. now split.
Qed.

(** Every conversion of the earlier revision reads its token as a signed
    16-bit integer: a numeral that fits is returned converted to the
    result type, so a negative one wraps in the unsigned conversions; any
    other numeral gives 0 and the range error, also where the result type
    could hold it. *)
Theorem draft_conversions tok :
  snd (numeral true tok) <> [] ->
  forallb is_digit (snd (numeral true tok)) = true ->
  if fits true 16 (numeral_value true tok)
  then
    draft.int16Cover tok = (numeral_value true tok, None) /\
    draft.int32Cover tok = (numeral_value true tok, None) /\
    draft.uint16Cover tok = (numeral_value true tok mod 2 ^ 16, None) /\
    draft.uint32Cover tok = (numeral_value true tok mod 2 ^ 32, None) /\
    draft.uint64Cover tok = (numeral_value true tok mod 2 ^ 64, None)
  else
    draft.int16Cover tok = (0, Some (NumErr (strconv.rangeError strconv.fnParseInt tok))) /\
    draft.int32Cover tok = (0, Some (NumErr (strconv.rangeError strconv.fnParseInt tok))) /\
    draft.uint16Cover tok = (0, Some (NumErr (strconv.rangeError strconv.fnParseInt tok))) /\
    draft.uint32Cover tok = (0, Some (NumErr (strconv.rangeError strconv.fnParseInt tok))) /\
    draft.uint64Cover tok = (0, Some (NumErr (strconv.rangeError strconv.fnParseInt tok))).
Proof.
  assert (Hw : In 16 widths) by (simpl; tauto).
  unfold numeral_value, numeral. cbn [fst snd]. intros Hne Hd.
  apply list_ascii_of_string_nonempty in Hne.
  unfold draft.int16Cover, draft.int32Cover, draft.uint16Cover, draft.uint32Cover, draft.uint64Cover.
  destruct (fits true 16 _) eqn:Hfit.
  - rewrite (ParseInt_decimal tok 16 Hw Hne Hd Hfit).
    unfold fits in Hfit. apply andb_true_iff in Hfit as [Hlo Hhi].
    revert Hlo Hhi.
    generalize (if fst (strip_sign tok)
                then - decimal_value (list_ascii_of_string (snd (strip_sign tok))) 0
                else decimal_value (list_ascii_of_string (snd (strip_sign tok))) 0) as v.
    intros v Hlo Hhi. change (2 ^ (16 - 1)) with 32768 in *.
    repeat split; f_equal; unfold int16, int32, intN;
      [change (2 ^ (16 - 1)) with 32768; change (2 ^ 16) with 65536
      |change (2 ^ (32 - 1)) with 2147483648; change (2 ^ 32) with 4294967296];
      rewrite Z.mod_small; lia.
  - pose proof (ParseInt_out_of_range tok 16 Hw Hne Hd Hfit) as E.
    destruct (strconv.ParseInt tok 10 16) as [v [e|]]; simpl in E; [|discriminate].
    inversion E; subst. repeat split.
Qed.

Lemma draft_conversions_witness :
  snd (numeral true "-1") <> [] /\
  forallb is_digit (snd (numeral true "-1")) = true /\
  draft.uint64Cover "-1" = (18446744073709551615, None) /\
  snd (numeral true "4194304") <> [] /\
  forallb is_digit (snd (numeral true "4194304")) = true /\
  draft.int32Cover "4194304" =
    (0, Some (NumErr (strconv.rangeError strconv.fnParseInt "4194304"))).
Proof.
  split; [discriminate|]. split; [reflexivity|].
  split.
  { pose proof (draft_conversions "-1" ltac:(discriminate) eq_refl) as H.
    exact (proj2 (proj2 (proj2 (proj2 H)))). }
  split; [discriminate|]. split; [reflexivity|].
  pose proof (draft_conversions "4194304" ltac:(discriminate) eq_refl) as H.
  exact (proj1 (proj2 H)).
Defined.

(** At the positions 4 to 9 of the earlier revision a numeral beyond 16
    bits is rejected and leaves 0 in its field; [Parse] drops the error, so
    such a value silently decodes as 0. *)
Theorem draft_fill_narrow pos tok sf :
  4 <= pos <= 9 ->
  snd (numeral true tok) <> [] ->
  forallb is_digit (snd (numeral true tok)) = true ->
  exists sf',
    draft.fill tok pos sf =
      Return (sf',
              if fits true 16 (numeral_value true tok) then draft.Blank
              else draft.Conversion
                     (NumErr (strconv.rangeError strconv.fnParseInt tok))) /\
    fieldAt pos sf' =
      Some (IntVal (if fits true 16 (numeral_value true tok)
                    then numeral_value true tok else 0)).
Proof.
  intros Hp Hne Hd.
  pose proof (draft_conversions_law tok Hne Hd) as H.
  assert (Hpos : pos = 4 \/ pos = 5 \/ pos = 6 \/ pos = 7 \/ pos = 8 \/ pos = 9) by lia.
  destruct (fits true 16 (numeral_value true tok));
    destruct H as (H16 & H32);
    destruct sf;
    destruct Hpos as [->|[->|[->|[->|[->| ->]]]]];
    unfold draft.fill, draft.fieldParseMap, assign, bind; rewrite ?H16, ?H32;
    eexists; split; reflexivity.
Qed.

Lemma draft_fill_narrow_witness :
  4 <= 9 <= 9 /\
  snd (numeral true "4194304") <> [] /\
  forallb is_digit (snd (numeral true "4194304")) = true /\
  exists sf',
    draft.fill "4194304" 9 zeroStatField =
      Return (sf',
              if fits true 16 (numeral_value true "4194304") then draft.Blank
              else draft.Conversion
                     (NumErr (strconv.rangeError strconv.fnParseInt "4194304"))) /\
    fieldAt 9 sf' =
      Some (IntVal (if fits true 16 (numeral_value true "4194304")
                    then numeral_value true "4194304" else 0)).
Proof.
  split; [lia|]. split; [discriminate|]. split; [reflexivity|].
  apply (draft_fill_narrow 9 "4194304" zeroStatField); [lia|discriminate|reflexivity].
Defined.

(** ** The field no entry writes *)

Lemma Parse_keeps_CMajFlt_witness :
  Parse (file bash_line) (NewStat "/proc/2051/stat") =
    Return (bash_stat, (Some (fields bash_stat), None)) /\
  CMajFlt (fields bash_stat) = CMajFlt (fields (NewStat "/proc/2051/stat")).
Proof.
  split; [vm_compute; reflexivity|].
  apply (Parse_keeps_CMajFlt (file bash_line) (NewStat "/proc/2051/stat") bash_stat).
  vm_compute; reflexivity.
Defined.
